(** * GeoStack: the bulk-acquisition engine, embedded and verified

    A shallow embedding of the acquisition code of the repository:

    - [Storage]:    [GeoSatellite/src/storage.py] (class [MBTilesStorage]);
    - [Raster]:     [GeoSatellite/src/downloader.py], [GeoTiles/src/downloader.py]
                    and [GeoSatellite/src/utils.py] (tile fetch, dispatcher, row flip);
    - [Vector]:     the tile loop of [OSMDownloader.fetch_layer] and of
                    [fetch_save_voivodeships_geojson] in [GeoKMZ/osm_downloader.py];
    - [Merge]:      the concat / drop_duplicates step of the same two functions;
    - [Partition]:  the grid construction of the same two functions.

    Python integers are [Z], byte strings and text are [string] (a Rocq
    [ascii] is one byte), Python floats are IEEE binary64 values of
    [SpecFloat], raised exceptions are the left side of [PyResult]. *)

From Stdlib Require Import ZArith List Bool Arith Lia String Ascii.
From Stdlib Require Import Permutation.
From Stdlib Require Import Floats.SpecFloat.
Import ListNotations.

Local Open Scope string_scope.
Local Open Scope Z_scope.
Local Open Scope list_scope.

(** ** Python results: a value or a raised exception *)

Inductive PyExc : Type :=
| IndexError (msg : string)
| KeyError (msg : string)
| ValueError (msg : string)
| OverflowError (msg : string)
| ZeroDivisionError (msg : string)
| IntegrityError (msg : string).

Inductive PyResult (A : Type) : Type :=
| Return (a : A)
| Raise (e : PyExc).

Arguments Return {A} a.
Arguments Raise {A} e.

Definition py_bind {A B : Type} (c : PyResult A) (k : A -> PyResult B) : PyResult B :=
  match c with
  | Return a => k a
  | Raise e => Raise e
  end.

Notation "x <- c ;; k" := (py_bind c (fun x => k))
  (at level 61, c at next level, right associativity).

(** Byte strings ([bytes]) are strings of 8-bit characters. *)
Definition bytes := string.

(** [needle in hay], on [str] and on [bytes]. *)
Fixpoint str_in (needle hay : string) : bool :=
  prefix needle hay
  || match hay with
     | EmptyString => false
     | String _ rest => str_in needle rest
     end.

(** [s.lower()] on the ASCII letters. *)
Definition lower_char (c : ascii) : ascii :=
  let n := nat_of_ascii c in
  if (65 <=? n)%nat && (n <=? 90)%nat then ascii_of_nat (n + 32) else c.

Fixpoint lower (s : string) : string :=
  match s with
  | EmptyString => EmptyString
  | String c rest => String (lower_char c) (lower rest)
  end.

(** ** The tile store ([GeoSatellite/src/storage.py]) *)

Module Storage.

(** One row of [tiles (zoom_level, tile_column, tile_row, tile_data)]. *)
Record TileRow : Type := mkTileRow {
  zoom_level : Z;
  tile_column : Z;
  tile_row : Z;
  tile_data : bytes
}.

(** The database behind an open [MBTilesStorage]: both tables in rowid
    (insertion) order, and the number of [commit] calls so far.  The
    [metadata] table is created as [(name text, value text)] with no key
    and no index; [tiles] carries the unique index [tile_index]. *)
Record Store : Type := mkStore {
  metadata : list (string * string);
  tiles : list TileRow;
  commits : nat
}.

Definition same_index (z x y : Z) (r : TileRow) : bool :=
  (zoom_level r =? z) && (tile_column r =? x) && (tile_row r =? y).

Definition index_of (r : TileRow) : Z * Z * Z :=
  (zoom_level r, tile_column r, tile_row r).

(** [CREATE UNIQUE INDEX IF NOT EXISTS tile_index]: building the index
    over rows that already hold a duplicate triple fails. *)
Fixpoint unique_index_ok (rows : list TileRow) : bool :=
  match rows with
  | [] => true
  | r :: rest =>
      negb (existsb (same_index (zoom_level r) (tile_column r) (tile_row r)) rest)
      && unique_index_ok rest
  end.

(** [_init_schema] on the database found at [filepath] ([None] when
    [sqlite3.connect] creates the file).  [CREATE TABLE IF NOT EXISTS]
    keeps the tables of an existing file as they are. *)
Definition _init_schema (file : option Store) : PyResult Store :=
  match file with
  | None => Return (mkStore [] [] 0)
  | Some db =>
      if unique_index_ok (tiles db) then Return db
      else Raise (IntegrityError "UNIQUE constraint failed: tiles.zoom_level, tiles.tile_column, tiles.tile_row")
  end.

(** [__enter__]: connect, ensure the schema (the two PRAGMAs change
    speed, not contents). *)
Definition __enter__ (file : option Store) : PyResult Store := _init_schema file.

(** [INSERT OR REPLACE INTO metadata (name, value)]: REPLACE deletes the
    rows that conflict on a UNIQUE or PRIMARY KEY constraint before it
    inserts.  [metadata] has no such constraint, so no row ever conflicts
    and the statement appends. *)
Definition insert_or_replace_metadata (rows : list (string * string)) (kv : string * string)
  : list (string * string) :=
  rows ++ [kv].

Definition save_metadata (st : Store) (name description bounds_str fmt : string) : Store :=
  let meta :=
    [ ("name", name);
      ("type", "overlay");
      ("version", "1.2");
      ("description", description);
      ("format", fmt);
      ("bounds", bounds_str) ] in
  mkStore (fold_left insert_or_replace_metadata meta (metadata st)) (tiles st) (commits st).

(** [INSERT OR IGNORE INTO tiles]: the row is skipped when the unique
    index [tile_index] already holds its (zoom_level, tile_column,
    tile_row), and appended otherwise.  The indices are those of map
    tiles, well inside SQLite's 64-bit integers, and the statement is
    taken to succeed: on an [sqlite3.Error] the source prints and goes on. *)
Definition save_tile (st : Store) (z x y_tms : Z) (data : bytes) : Store :=
  if existsb (same_index z x y_tms) (tiles st) then st
  else mkStore (metadata st) (tiles st ++ [mkTileRow z x y_tms data]) (commits st).

Definition commit (st : Store) : Store :=
  mkStore (metadata st) (tiles st) (S (commits st)).

(** [__exit__]: the last commit, before the connection is closed. *)
Definition __exit__ (st : Store) : Store := commit st.

(** Readers. [select_tile] is [SELECT tile_data FROM tiles WHERE ...];
    [select_metadata] is the viewer's
    [SELECT value FROM metadata WHERE name=?] followed by [fetchone]
    ([mbview.py]); [metadata_values] is the same query with [fetchall]. *)
Definition select_tile (st : Store) (z x y : Z) : option bytes :=
  option_map tile_data (find (same_index z x y) (tiles st)).

Definition tile_count (st : Store) : nat := List.length (tiles st).

Definition metadata_values (st : Store) (name : string) : list string :=
  map snd (filter (fun kv => String.eqb (fst kv) name) (metadata st)).

Definition select_metadata (st : Store) (name : string) : option string :=
  hd_error (metadata_values st name).

End Storage.

(** ** Raster tiles: fetch and dispatch
    ([GeoSatellite/src/downloader.py], [GeoTiles/src/downloader.py],
    [GeoSatellite/src/utils.py]) *)

Module Raster.
Import Storage.

(** [mercantile.Tile(x, y, z)]; [y] counts rows from the top. *)
Record Tile : Type := mkTile {
  tile_x : Z;
  tile_y : Z;
  tile_z : Z
}.

(** [utils.flip_y].  Zoom levels come from [range(min_zoom, max_zoom + 1)]
    over tile pyramids and are not negative; for a negative [z] Python's
    [2**z] is a float, which this integer model does not follow. *)
Definition flip_y (z y : Z) : Z := (2 ^ z - 1) - y.

(** What [requests.get(url, headers=..., timeout=...)] and the reads of
    [resp.status_code] and [resp.content] come to: a response, or an
    exception whose [str(e)] is [msg]. *)
Inductive HttpOutcome : Type :=
| Response (status_code : Z) (content : bytes)
| RequestException (msg : string).

(** [b[:n]] *)
Definition slice_to (n : nat) (b : bytes) : bytes := substring 0 n b.

(** [b'\x89PNG'] *)
Definition png_magic : bytes := String "137"%char "PNG".

(** The triple both fetchers return: (tile, content or None, error
    message or None). *)
Definition FetchResult : Type := Tile * option bytes * option string.

Module GeoSatellite.
Section Fetch.

(** [url_template.format(z=tile.z, y=tile.y, x=tile.x)]: Python's
    [str.format], which raises on a field it is not given. *)
Variable str_format : string -> Tile -> PyResult string.
Variable requests_get : string -> list (string * string) -> Z -> HttpOutcome.

Definition fetch_tile_content (tile : Tile) (url_template : string)
    (headers : list (string * string)) (timeout : Z) : PyResult FetchResult :=
  url <- str_format url_template tile ;;
  match requests_get url headers timeout with
  | Response status_code content =>
      if status_code =? 200 then
        if str_in "ServiceException" content || str_in "<html" (slice_to 50 content)
        then Return (tile, None, None)
        else Return (tile, Some content, None)
      else Return (tile, None, None)
  | RequestException msg => Return (tile, None, Some msg)
  end.

End Fetch.
End GeoSatellite.

Module GeoTiles.

(** [random.choice(seq)]: [draw] is the number the generator produces,
    reduced below [len(seq)]; an empty sequence raises. *)
Definition random_choice {A : Type} (draw : nat) (seq : list A) : PyResult A :=
  match nth_error seq (draw mod List.length seq) with
  | Some a => Return a
  | None => Raise (IndexError "Cannot choose from an empty sequence")
  end.

Section Fetch.

Variable str_format : string -> Tile -> PyResult string.
Variable requests_get : string -> list (string * string) -> Z -> HttpOutcome.

Definition fetch_tile_content (draw : nat) (tile : Tile) (servers : list string)
    (headers : list (string * string)) (timeout : Z) : PyResult FetchResult :=
  server <- random_choice draw servers ;;
  url <- str_format server tile ;;
  match requests_get url headers timeout with
  | Response status_code content =>
      if (status_code =? 200) && prefix png_magic content
      then Return (tile, Some content, None)
      else Return (tile, None, None)
  | RequestException msg => Return (tile, None, Some msg)
  end.

End Fetch.
End GeoTiles.

(** Python truth of [content] and of [error_msg]: [None] and the empty
    string are false. *)
Definition truthy (v : option string) : bool :=
  match v with
  | Some (String _ _) => true
  | _ => false
  end.

Definition value_of (v : option string) : string :=
  match v with
  | Some s => s
  | None => EmptyString
  end.

Inductive Line : Type :=
| TileErrorLine (tile : Tile) (error_msg : string)
| ProgressLine (processed total errors_count : Z)
| FinishedLine (processed total errors_count : Z)
| WarningLine (errors_count : Z).

(** The state of [run_downloader]'s loop. *)
Record Run : Type := mkRun {
  storage_instance : Store;
  errors_count : Z;
  processed : Z;
  printed : list Line
}.

(** The body of [for future in as_completed(future_to_tile)] for a future
    whose [result()] is the triple [r]. *)
Definition handle_result (total : Z) (run : Run) (r : FetchResult) : Run :=
  let '(tile_xyz, content, error_msg) := r in
  let run1 :=
    if truthy content then
      let y_tms := flip_y (tile_z tile_xyz) (tile_y tile_xyz) in
      mkRun (save_tile (storage_instance run) (tile_z tile_xyz) (tile_x tile_xyz) y_tms
                       (value_of content))
            (errors_count run) (processed run) (printed run)
    else
      mkRun (storage_instance run) (errors_count run + 1) (processed run)
            (if truthy error_msg
             then printed run ++ [TileErrorLine tile_xyz (value_of error_msg)]
             else printed run) in
  let run2 := mkRun (storage_instance run1) (errors_count run1) (processed run1 + 1) (printed run1) in
  if (processed run2) mod 200 =? 0 then
    mkRun (commit (storage_instance run2)) (errors_count run2) (processed run2)
          (printed run2 ++ [ProgressLine (processed run2) total (errors_count run2)])
  else run2.

(** The loop: [completed] is what [future.result()] gives for the futures
    in the order [as_completed] yields them; a future whose call raised
    re-raises there and ends the run. *)
Fixpoint drain (total : Z) (completed : list (PyResult FetchResult)) (run : Run) : PyResult Run :=
  match completed with
  | [] => Return run
  | Return r :: rest => drain total rest (handle_result total run r)
  | Raise e :: _ => Raise e
  end.

Definition run_downloader (tiles_list : list Tile) (completed : list (PyResult FetchResult))
    (storage_instance : Store) : PyResult Run :=
  let total := Z.of_nat (List.length tiles_list) in
  run <- drain total completed (mkRun storage_instance 0 0 []) ;;
  let run1 := mkRun (commit (Raster.storage_instance run)) (errors_count run) (processed run)
                    (printed run ++ [FinishedLine (processed run) total (errors_count run)]) in
  Return (if 0 <? errors_count run1
          then mkRun (Raster.storage_instance run1) (errors_count run1) (processed run1)
                     (printed run1 ++ [WarningLine (errors_count run1)])
          else run1).

(** [executor.submit(fetch_tile_content, tile, ...) for tile in tiles_list]:
    one call, and one future, per element of the work list. *)
Definition submit_all (fetch : Tile -> PyResult FetchResult) (tiles_list : list Tile)
  : list (PyResult FetchResult) :=
  map fetch tiles_list.

(** One future is submitted per element of [tiles_list], and
    [as_completed] yields every future once, in the order the workers
    finish: the completed results are a permutation of the results of the
    submitted calls. *)
Definition as_completed (submitted completed : list (PyResult FetchResult)) : Prop :=
  Permutation submitted completed.

End Raster.

(** ** Merging the partial results
    ([pd.concat] and [drop_duplicates] in [GeoKMZ/osm_downloader.py]) *)

Module Merge.

(** The value of one cell.  A missing value (NaN) is a column the row
    has no entry for. *)
Inductive Cell : Type :=
| IntCell (n : Z)
| StrCell (s : string).

(** A record: its attribute bag, column name to value. *)
Definition Row : Type := list (string * Cell).

Record GeoDataFrame : Type := mkFrame {
  columns : list string;
  rows : list Row
}.

(** [gdf.empty]: some axis has length 0. *)
Definition empty (gdf : GeoDataFrame) : bool :=
  match rows gdf, columns gdf with
  | [], _ => true
  | _, [] => true
  | _, _ => false
  end.

(** ['name' in gdf.columns] *)
Definition has_column (name : string) (gdf : GeoDataFrame) : bool :=
  existsb (String.eqb name) (columns gdf).

(** [row[name]], [None] for NaN. *)
Fixpoint cell (name : string) (row : Row) : option Cell :=
  match row with
  | [] => None
  | (c, v) :: rest => if String.eqb c name then Some v else cell name rest
  end.

Definition cell_eqb (a b : Cell) : bool :=
  match a, b with
  | IntCell n, IntCell m => n =? m
  | StrCell s, StrCell t => String.eqb s t
  | _, _ => false
  end.

(** Equality of two values under [duplicated]: pandas counts two missing
    values as equal. *)
Definition value_eqb (a b : option Cell) : bool :=
  match a, b with
  | Some x, Some y => cell_eqb x y
  | None, None => true
  | _, _ => false
  end.

(** The column index of [pd.concat]: the union of the frames' columns, in
    the order they first appear. *)
Fixpoint union_columns (acc : list string) (cols : list string) : list string :=
  match cols with
  | [] => acc
  | c :: rest =>
      if existsb (String.eqb c) acc then union_columns acc rest
      else union_columns (acc ++ [c]) rest
  end.

(** [pd.concat(frames, ignore_index=True)].  Where a column gets missing
    values pandas holds its integers as float64; the integers here are
    OSM ids, below 2^53, for which that conversion is exact and changes no
    comparison, so a cell keeps its integer. *)
Definition concat (frames : list GeoDataFrame) : PyResult GeoDataFrame :=
  match frames with
  | [] => Raise (ValueError "No objects to concatenate")
  | _ =>
      Return (mkFrame (fold_left (fun acc f => union_columns acc (columns f)) frames [])
                      (flat_map rows frames))
  end.

(** [gdf.drop_duplicates(subset=[name])] with the default [keep='first']:
    a row is dropped when its value in the column has been seen. *)
Fixpoint keep_unseen (name : string) (seen : list (option Cell)) (rs : list Row) : list Row :=
  match rs with
  | [] => []
  | r :: rest =>
      let v := cell name r in
      if existsb (value_eqb v) seen then keep_unseen name seen rest
      else r :: keep_unseen name (v :: seen) rest
  end.

Definition drop_duplicates (name : string) (gdf : GeoDataFrame) : GeoDataFrame :=
  mkFrame (columns gdf) (keep_unseen name [] (rows gdf)).

(** [gdf[gdf[name] == value]] *)
Definition where_equal (name : string) (value : Cell) (gdf : GeoDataFrame) : GeoDataFrame :=
  mkFrame (columns gdf)
          (filter (fun r => value_eqb (cell name r) (Some value)) (rows gdf)).

(** The merge step of [fetch_layer] and of
    [fetch_save_voivodeships_geojson]:
    [final_gdf = pd.concat(frames, ignore_index=True)], then
    [if 'osmid' in final_gdf.columns: final_gdf = final_gdf.drop_duplicates(subset=['osmid'])]. *)
Definition merge_frames (frames : list GeoDataFrame) : PyResult GeoDataFrame :=
  final_gdf <- concat frames ;;
  Return (if has_column "osmid" final_gdf
          then drop_duplicates "osmid" final_gdf
          else final_gdf).

(** Modelled after the specification, to compare [merge_frames] with.
    A record has an identity when it has a value under [osmid]; a record
    without one has no identity that could equal another.  A record is
    dropped when it has an identity and a record before it has the same
    one; a record without identity is kept as it is. *)
Definition earlier_has_identity (all : list Row) (k : nat) (r : Row) : bool :=
  match cell "osmid" r with
  | Some identity =>
      existsb (fun r' => match cell "osmid" r' with
                         | Some identity' => cell_eqb identity identity'
                         | None => false
                         end)
              (firstn k all)
  | None => false
  end.

(** The merge in the specification's words: the records of all partial
    sets in partition order, without every record whose identity equals
    that of an earlier record; all of them when no partial set has the
    identity field. *)
Definition merged_records (parts : list GeoDataFrame) : list Row :=
  let all := flat_map rows parts in
  if existsb (has_column "osmid") parts
  then map snd (filter (fun kr => negb (earlier_has_identity all (fst kr) (snd kr)))
                       (combine (seq 0 (List.length all)) all))
  else all.

End Merge.

(** ** The vector tile loop
    ([OSMDownloader.fetch_layer] and [fetch_save_voivodeships_geojson]) *)

Module Vector.
Import Merge.

(** What [ox.features_from_polygon] / [ox.features_from_bbox] comes to:
    a frame, or an exception with its [str(e)]. *)
Inductive QueryOutcome : Type :=
| Features (gdf : GeoDataFrame)
| QueryError (msg : string).

(** [config['download_settings']], with the defaults of [.get]. *)
Record DownloadSettings : Type := mkSettings {
  max_attempts : Z;
  sleep_on_timeout : Z;
  sleep_on_rate_limit : Z;
  sleep_on_error : Z
}.

Definition default_settings : DownloadSettings := mkSettings 3 30 45 10.

(** What the loop does to the outside: a query sent to a server for
    (tile number, attempt number), a [time.sleep(wait_time)] after a
    failure, the random pause between two tiles. *)
Inductive Event : Type :=
| Attempt (i attempt : nat) (server : string)
| Sleep (wait_time : Z)
| Pause.

Record LoopState : Type := mkLoop {
  frames : list GeoDataFrame;
  trace : list Event
}.

Definition emit (e : Event) (st : LoopState) : LoopState :=
  mkLoop (frames st) (trace st ++ [e]).

(** [servers[(i + attempt) % len(servers)]]; the list is not empty where
    the loops index it. *)
Definition server_at (servers : list string) (k : nat) : string :=
  nth (k mod List.length servers) servers EmptyString.

(** The wait chosen in the [except] branch of [fetch_layer]. *)
Definition wait_time_for (download_settings : DownloadSettings) (e : string) : Z :=
  let error_msg := lower e in
  if str_in "504" error_msg || str_in "timeout" error_msg
  then sleep_on_timeout download_settings
  else if str_in "rate limit" error_msg || str_in "429" error_msg
  then sleep_on_rate_limit download_settings
  else sleep_on_error download_settings.

Section Loops.

(** The geometry of a tile: a polygon for [fetch_layer], a bbox tuple
    for the voivodeship download. *)
Variable Geom : Type.

Variable servers : list string.
Variable download_settings : DownloadSettings.

(** [query i attempt tile_geom server]: the outcome of the query sent
    for tile [i] at attempt [attempt]. *)
Variable query : nat -> nat -> Geom -> string -> QueryOutcome.

(** [self.stop_flag]: [None], or an object whose [value] is read before
    attempt [attempt] of tile [i]. *)
Variable stop_flag : option (nat -> nat -> bool).

Definition stop_requested (i attempt : nat) : bool :=
  match stop_flag with
  | Some value => value i attempt
  | None => false
  end.

(** [for attempt in range(1, max_attempts + 1)] for tile [i], on the
    attempt numbers still to run. *)
Fixpoint attempts_loop (i : nat) (tile_geom : Geom) (attempts : list nat) (st : LoopState)
  : LoopState :=
  match attempts with
  | [] => st
  | attempt :: rest =>
      if stop_requested i attempt then st
      else
        let current_server := server_at servers (i + attempt) in
        let st1 := emit (Attempt i attempt current_server) st in
        match query i attempt tile_geom current_server with
        | Features gdf =>
            if negb (empty gdf)
            then mkLoop (frames st1 ++ [gdf]) (trace st1)
            else st1
        | QueryError e =>
            let wait_time := wait_time_for download_settings e in
            let st2 := if Z.of_nat attempt <? max_attempts download_settings
                       then emit (Sleep wait_time) st1
                       else st1 in
            attempts_loop i tile_geom rest st2
        end
  end.

Definition attempt_numbers : list nat :=
  seq 1 (Z.to_nat (max_attempts download_settings)).

(** [for i, tile_geom in enumerate(tiles, 1)], from tile number [i] on;
    [total] is [len(tiles)]. *)
Fixpoint tiles_loop (i total : nat) (tiles : list Geom) (st : LoopState) : LoopState :=
  match tiles with
  | [] => st
  | tile_geom :: rest =>
      let st1 := attempts_loop i tile_geom attempt_numbers st in
      let st2 := if (i <? total)%nat then emit Pause st1 else st1 in
      tiles_loop (S i) total rest st2
  end.

(** [fetch_layer] from its tile list to the merged frame; [None] is
    [return False]. *)
Definition fetch_layer_tiles (tiles : list Geom) : PyResult (option GeoDataFrame) * list Event :=
  match servers with
  | [] => (Return None, [])
  | _ =>
      let st := tiles_loop 1 (List.length tiles) tiles (mkLoop [] []) in
      match frames st with
      | [] => (Return None, trace st)
      | _ => (final_gdf <- merge_frames (frames st) ;; Return (Some final_gdf), trace st)
      end
  end.

(** The loop of [fetch_save_voivodeships_geojson]: one query per tile,
    at [servers[i % n_servers]]. *)
Fixpoint voivodeship_loop (i total : nat) (tiles : list Geom) (st : LoopState) : LoopState :=
  match tiles with
  | [] => st
  | tile_bbox :: rest =>
      let server := server_at servers i in
      let st1 := emit (Attempt i 0 server) st in
      let st2 :=
        match query i 0 tile_bbox server with
        | Features gdf =>
            let gdf1 := if has_column "admin_level" gdf
                        then where_equal "admin_level" (StrCell "4") gdf
                        else gdf in
            if negb (empty gdf1)
            then mkLoop (frames st1 ++ [gdf1]) (trace st1)
            else st1
        | QueryError e => st1
        end in
      let st3 := if (i <? total)%nat then emit Pause st2 else st2 in
      voivodeship_loop (S i) total rest st3
  end.

End Loops.

End Vector.

(** ** Partition of the query region
    (the grid of [OSMDownloader.fetch_layer] and of
    [fetch_save_voivodeships_geojson]) *)

Module Partition.

(** Python floats: IEEE 754 binary64. *)
Definition float : Type := spec_float.
Definition prec : Z := 53.
Definition emax : Z := 1024.

Definition fadd : float -> float -> float := SFadd prec emax.
Definition fsub : float -> float -> float := SFsub prec emax.
Definition fmul : float -> float -> float := SFmul prec emax.
Definition fdiv : float -> float -> float := SFdiv prec emax.
Definition fsqrt : float -> float := SFsqrt prec emax.
Definition fzero : float := S754_zero false.

(** [float(n)] for an integer [n], rounded to nearest even. *)
Definition float_of_Z (n : Z) : float := binary_normalize prec emax n 0 false.

(** [a / b] on floats.  (A limit read from the configuration as an
    integer, such as the default 500000000, is compared and divided as
    the float of the same value.) *)
Definition py_div (a b : float) : PyResult float :=
  if SFeqb b fzero then Raise (ZeroDivisionError "float division by zero")
  else Return (fdiv a b).

(** [a / n] for an integer [n], which is converted to a float first. *)
Definition py_div_int (a : float) (n : Z) : PyResult float :=
  py_div a (float_of_Z n).

(** [math.sqrt] *)
Definition math_sqrt (x : float) : PyResult float :=
  if SFltb x fzero then Raise (ValueError "math domain error")
  else Return (fsqrt x).

(** [math.ceil], which returns an integer. *)
Definition math_ceil (x : float) : PyResult Z :=
  match x with
  | S754_zero _ => Return 0
  | S754_nan => Raise (ValueError "cannot convert float NaN to integer")
  | S754_infinity _ => Raise (OverflowError "cannot convert float infinity to integer")
  | S754_finite sign m e =>
      if 0 <=? e then Return ((if sign then -1 else 1) * (Z.pos m * 2 ^ e))
      else if sign then Return (- (Z.pos m / 2 ^ (- e)))
      else Return (- ((- Z.pos m) / 2 ^ (- e)))
  end.

(** [math.pi] and the factor of [math.radians]. *)
Definition math_pi : float := S754_finite false 7074237752028440 (-51).
Definition math_radians (x : float) : float := fmul x (fdiv math_pi (float_of_Z 180)).

Definition is_nan (x : float) : bool :=
  match x with S754_nan => true | _ => false end.

Section Grid.

(** The cosine of the C library. *)
Variable libm_cos : float -> float.

(** [math.cos]: a NaN that does not come from a NaN argument (the
    argument is infinite) is a domain error. *)
Definition math_cos (x : float) : PyResult float :=
  let r := libm_cos x in
  if is_nan r && negb (is_nan x) then Raise (ValueError "math domain error")
  else Return r.

(** The geometry library (shapely): geometries, [geom.bounds],
    [box(minx, miny, maxx, maxy)], [a.intersection(b)], [geom.is_empty]. *)
Variable Geom : Type.
Variable bounds : Geom -> float * float * float * float.
Variable box : float -> float -> float -> float -> Geom.
Variable intersection : Geom -> Geom -> Geom.
Variable is_empty : Geom -> bool.

(** The equirectangular area of the bounds (w, s, e, n), in square
    metres. *)
Definition approx_area (b : float * float * float * float) : PyResult float :=
  let '(w, s, e, n) := b in
  let lat_mid := fdiv (fadd s n) (float_of_Z 2) in
  let m_per_deg_lat := float_of_Z 111320 in
  c <- math_cos (math_radians lat_mid) ;;
  let m_per_deg_lon := fmul (float_of_Z 111320) c in
  Return (fmul (fmul (fmul (fsub e w) m_per_deg_lon) (fsub n s)) m_per_deg_lat).

(** [max(2, int(math.ceil(math.sqrt(area / max_area))))] *)
Definition grid_size (area max_area : float) : PyResult Z :=
  q <- py_div area max_area ;;
  r <- math_sqrt q ;;
  c <- math_ceil r ;;
  Return (Z.max 2 c).

(** [range(n)] *)
Definition range (n : Z) : list Z := map Z.of_nat (seq 0 (Z.to_nat n)).

(** The corners of the grid cell (i, j). *)
Definition cell_bounds (w s lon_step lat_step : float) (i j : Z)
  : float * float * float * float :=
  (fadd w (fmul (float_of_Z i) lon_step),
   fadd s (fmul (float_of_Z j) lat_step),
   fadd w (fmul (float_of_Z (i + 1)) lon_step),
   fadd s (fmul (float_of_Z (j + 1)) lat_step)).

(** The two nested loops of [fetch_layer], on the list [tiles] they
    append to. *)
Definition polygon_loops (polygon_geom : Geom) (w s lon_step lat_step : float) (n_tiles : Z)
  : list Geom :=
  fold_left
    (fun tiles i =>
       fold_left
         (fun tiles j =>
            let '(minx, miny, maxx, maxy) := cell_bounds w s lon_step lat_step i j in
            let tile_box := box minx miny maxx maxy in
            let tile_poly := intersection polygon_geom tile_box in
            if negb (is_empty tile_poly) then tiles ++ [tile_poly] else tiles)
         (range n_tiles) tiles)
    (range n_tiles) [].

(** The tile list of [fetch_layer]. *)
Definition fetch_layer_partition (polygon_geom : Geom) (max_area : float)
  : PyResult (list Geom) :=
  let '(w, s, e, n) := bounds polygon_geom in
  area <- approx_area (w, s, e, n) ;;
  if SFleb area max_area then Return [polygon_geom]
  else
    n_tiles <- grid_size area max_area ;;
    lon_step <- py_div_int (fsub e w) n_tiles ;;
    lat_step <- py_div_int (fsub n s) n_tiles ;;
    Return (polygon_loops polygon_geom w s lon_step lat_step n_tiles).

(** The two nested loops of [fetch_save_voivodeships_geojson]. *)
Definition bbox_loops (w s lon_step lat_step : float) (n_tiles : Z)
  : list (float * float * float * float) :=
  fold_left
    (fun tiles i =>
       fold_left
         (fun tiles j => tiles ++ [cell_bounds w s lon_step lat_step i j])
         (range n_tiles) tiles)
    (range n_tiles) [].

(** The tile list of [fetch_save_voivodeships_geojson]. *)
Definition voivodeship_partition (poland_bbox : float * float * float * float)
    (max_area : float) : PyResult (list (float * float * float * float)) :=
  let '(w, s, e, n) := poland_bbox in
  area <- approx_area (w, s, e, n) ;;
  if SFleb area max_area then Return [poland_bbox]
  else
    n_tiles <- grid_size area max_area ;;
    lon_step <- py_div_int (fsub e w) n_tiles ;;
    lat_step <- py_div_int (fsub n s) n_tiles ;;
    Return (bbox_loops w s lon_step lat_step n_tiles).

(** Modelled after the specification, to compare the loops with: the
    n-by-n grid over the bounding rectangle, cell (i, j) for i and j in
    0 .. n-1, column by column; and for a polygon, every cell intersected
    with the polygon, the empty intersections dropped. *)
Definition grid_cells (b : float * float * float * float) (n : Z)
  : list (float * float * float * float) :=
  let '(w, s, e, n') := b in
  let lon_step := fdiv (fsub e w) (float_of_Z n) in
  let lat_step := fdiv (fsub n' s) (float_of_Z n) in
  flat_map (fun i => map (fun j => cell_bounds w s lon_step lat_step i j) (range n)) (range n).

Definition box_of (c : float * float * float * float) : Geom :=
  let '(minx, miny, maxx, maxy) := c in box minx miny maxx maxy.

Definition clipped_grid (polygon_geom : Geom) (n : Z) : list Geom :=
  filter (fun g => negb (is_empty g))
         (map (fun c => intersection polygon_geom (box_of c))
              (grid_cells (bounds polygon_geom) n)).

End Grid.

End Partition.

(** ** [OSMDownloader.fetch_layer], from the region to the merged frame *)

Module Layer.
Import Merge Vector Partition.

Section FetchLayer.

Variable libm_cos : float -> float.
Variable Geom : Type.
Variable bounds : Geom -> float * float * float * float.
Variable box : float -> float -> float -> float -> Geom.
Variable intersection : Geom -> Geom -> Geom.
Variable is_empty : Geom -> bool.
Variable servers : list string.
Variable download_settings : DownloadSettings.
Variable query : nat -> nat -> Geom -> string -> QueryOutcome.
Variable stop_flag : option (nat -> nat -> bool).

(** The part of [fetch_layer] before the file is written: the server
    check, the partition, the tile loop, the merge.  The result is the
    merged frame, [None] for [return False], and the events of the run. *)
Definition fetch_layer (polygon_geom : Geom) (max_area : float)
  : PyResult (option GeoDataFrame) * list Event :=
  match servers with
  | [] => (Return None, [])
  | _ =>
      match fetch_layer_partition libm_cos Geom bounds box intersection is_empty
              polygon_geom max_area with
      | Raise exc => (Raise exc, [])
      | Return tiles =>
          fetch_layer_tiles Geom servers download_settings query stop_flag tiles
      end
  end.

End FetchLayer.

End Layer.

(** ** The viewer ([mbview.py]) *)

Module Viewer.
Import Storage Raster.

(** What the tile route answers: the image with its media type, or 404. *)
Inductive TileAnswer : Type :=
| TileImage (content : bytes) (media_type : string)
| NotFound.

(** [get_tile(z, x, y)] on the database [db] of the opened file, for a
    zoom that is not negative (for a negative one Python's [2**z] is a
    float).  The query is the one with [fetchone]; every failure inside
    the [try] ends in the 404 as well. *)
Definition get_tile (db : Store) (z x y : Z) : TileAnswer :=
  let tms_y := (2 ^ z - 1) - y in
  match find (same_index z x tms_y) (tiles db) with
  | Some row =>
      let header := slice_to 4 (tile_data row) in
      let mime := if prefix png_magic header then "image/png" else "image/jpeg" in
      TileImage (tile_data row) mime
  | None => NotFound
  end.

(** The zoom range of [index()]:
    [SELECT MIN(zoom_level), MAX(zoom_level) FROM tiles], and (1, 18)
    when the table is empty. *)
Definition zoom_range (db : Store) : Z * Z :=
  match map zoom_level (tiles db) with
  | [] => (1, 18)
  | z :: zs => (fold_left Z.min zs z, fold_left Z.max zs z)
  end.

End Viewer.

(** ** The zoom levels of a GeoTiles run ([GeoTiles/main.py]) *)

Module TilesMain.

(** [value or default] for an option of the command line: [None] and 0
    are false. *)
Definition py_or (value : option Z) (default : Z) : Z :=
  match value with
  | Some v => if v =? 0 then default else v
  | None => default
  end.

(** The zoom levels [main] asks tiles for: the resolution of
    [--min-zoom] / [--max-zoom] against [config['zoom_levels']], the two
    checks, and [range(min_zoom, max_zoom + 1)]; [None] where [main]
    prints its message and returns. *)
Definition zoom_levels (min_zoom max_zoom : option Z) (config_min config_max : Z)
  : option (list Z) :=
  let min_zoom := py_or min_zoom config_min in
  let max_zoom := py_or max_zoom config_max in
  if max_zoom <? min_zoom then None
  else if (min_zoom <? 0) || (19 <? max_zoom) then None
  else Some (map (fun k => min_zoom + Z.of_nat k) (seq 0 (Z.to_nat (max_zoom + 1 - min_zoom)))).

End TilesMain.

(** ** Layer files and the loop over the layers
    ([load_layers_from_file], [load_multiple_layer_files] and
    [OSMDownloader.download_layers] in [GeoKMZ/osm_downloader.py]) *)

Module Layers.

(** A Python [dict] with string keys: its items in insertion order, no
    key twice. *)
Definition Dict (V : Type) : Type := list (string * V).

Fixpoint dict_get {V : Type} (k : string) (d : Dict V) : option V :=
  match d with
  | [] => None
  | (k', v) :: rest => if String.eqb k' k then Some v else dict_get k rest
  end.

(** [d[k] = v]: an existing key keeps its place. *)
Fixpoint dict_set {V : Type} (k : string) (v : V) (d : Dict V) : Dict V :=
  match d with
  | [] => [(k, v)]
  | (k', v') :: rest =>
      if String.eqb k' k then (k', v) :: rest else (k', v') :: dict_set k v rest
  end.

(** [d.update(other)] *)
Definition dict_update {V : Type} (d other : Dict V) : Dict V :=
  fold_left (fun acc kv => dict_set (fst kv) (snd kv) acc) other d.

Definition dict_keys {V : Type} (d : Dict V) : list string := map fst d.

(** What is found at the path of a layer file. *)
Inductive LayerFile (V : Type) : Type :=
| FileMissing
| FileUnreadable
| FileWithoutLayers
| FileWithLayers (layers : Dict V).

Arguments FileMissing {V}.
Arguments FileUnreadable {V}.
Arguments FileWithoutLayers {V}.
Arguments FileWithLayers {V} layers.

(** [load_layers_from_file]: every failure is printed and answered with
    the empty dict. *)
Definition load_layers_from_file {V : Type} (layer_file : LayerFile V) : Dict V :=
  match layer_file with
  | FileWithLayers layers => layers
  | _ => []
  end.

(** [load_multiple_layer_files] *)
Definition load_multiple_layer_files {V : Type} (layer_files : list (LayerFile V)) : Dict V :=
  fold_left
    (fun all_layers layer_file =>
       let layers := load_layers_from_file layer_file in
       match layers with
       | [] => all_layers
       | _ => dict_update all_layers layers
       end)
    layer_files [].

(** What [download_layers] does to the outside. *)
Inductive Step : Type :=
| FetchLayer (i : nat) (name : string)
| SleepBetweenLayers.

(** How [download_layers] ends: it returns its two lists, the process
    exits ([sys.exit] in the download of the boundaries), or an exception
    goes up to the caller. *)
Inductive Ended : Type :=
| Returned (succeeded failed : list string)
| SystemExit (code : Z)
| Propagated (e : PyExc).

(** How the call of [fetch_save_voivodeships_geojson] ends. *)
Inductive Boundaries : Type :=
| BoundariesReady
| BoundariesExit (code : Z)
| BoundariesRaise (e : PyExc).

Section DownloadLayers.

Variable Geom : Type.
Variable LayerConfig : Type.

(** [self.layers_dict] *)
Variable layers_dict : Dict LayerConfig.

(** [box(bbox[0], bbox[1], bbox[2], bbox[3])] *)
Variable box : Partition.float -> Partition.float -> Partition.float -> Partition.float -> Geom.

(** The call of [fetch_save_voivodeships_geojson], and
    [get_voivodeship_geometry(voiv_geojson, region_name)], whose
    exceptions are caught. *)
Variable boundaries : Boundaries.
Variable get_voivodeship_geometry : string -> PyResult Geom.

(** [self.fetch_layer(name, tags, polygon_geom, ...)] for the [i]-th
    name: True, False or an exception. *)
Variable fetch_layer : nat -> string -> Geom -> PyResult bool.

Definition known (name : string) : bool :=
  match dict_get name layers_dict with
  | Some _ => true
  | None => false
  end.

(** [for i, name in enumerate(layer_names, 1)], from the [i]-th name on. *)
Fixpoint layers_loop (i total : nat) (names : list string) (polygon_geom : Geom)
    (succeeded failed : list string) (steps : list Step) : Ended * list Step :=
  match names with
  | [] => (Returned succeeded failed, steps)
  | name :: rest =>
      if negb (known name)
      then layers_loop (S i) total rest polygon_geom succeeded (failed ++ [name]) steps
      else
        match fetch_layer i name polygon_geom with
        | Raise e => (Propagated e, steps ++ [FetchLayer i name])
        | Return ok =>
            let succeeded1 := if ok then succeeded ++ [name] else succeeded in
            let failed1 := if ok then failed else failed ++ [name] in
            let steps1 := steps ++ [FetchLayer i name] in
            let steps2 := if (i <? total)%nat then steps1 ++ [SleepBetweenLayers] else steps1 in
            layers_loop (S i) total rest polygon_geom succeeded1 failed1 steps2
        end
  end.

(** Python truth of [region_name]: [None] and the empty string are
    false. *)
Definition given (region_name : option string) : bool :=
  match region_name with
  | Some (String _ _) => true
  | _ => false
  end.

Definition download_layers (layer_names : list string) (region_name : option string)
    (bbox : option (Partition.float * Partition.float * Partition.float * Partition.float))
  : Ended * list Step :=
  if given region_name then
    match boundaries with
    | BoundariesExit code => (SystemExit code, [])
    | BoundariesRaise e => (Propagated e, [])
    | BoundariesReady =>
        match get_voivodeship_geometry
                (match region_name with Some r => r | None => EmptyString end) with
        | Raise _ => (Returned [] layer_names, [])
        | Return polygon_geom =>
            layers_loop 1 (List.length layer_names) layer_names polygon_geom [] [] []
        end
    end
  else
    match bbox with
    | Some (w, s, e, n) =>
        layers_loop 1 (List.length layer_names) layer_names (box w s e n) [] [] []
    | None => (Returned [] layer_names, [])
    end.

End DownloadLayers.

End Layers.

(** * Part II: properties *)

(** ** The tile store *)

Module StorageFacts.
Import Storage.


Lemma same_index_spec z x y r :
  same_index z x y r = true <-> index_of r = (z, x, y).
Proof.
  unfold same_index, index_of. rewrite !andb_true_iff, !Z.eqb_eq.
  split.
  - intros [[-> ->] ->]. reflexivity.
  - intros H. injection H as -> -> ->. auto.
Qed.

Lemma present_iff st z x y :
  existsb (same_index z x y) (tiles st) = true <-> In (z, x, y) (map index_of (tiles st)).
Proof.
  rewrite existsb_exists, in_map_iff. split.
  - intros (r & Hin & Hr). exists r. split; [now apply same_index_spec | exact Hin].
  - intros (r & Hr & Hin). exists r. split; [exact Hin | now apply same_index_spec].
Qed.

Lemma select_tile_present st z x y :
  existsb (same_index z x y) (tiles st) = true <-> exists p, select_tile st z x y = Some p.
Proof.
  unfold select_tile. split.
  - intros H. apply existsb_exists in H. destruct H as (r & Hin & Hr).
    destruct (find (same_index z x y) (tiles st)) eqn:E.
    + eexists. reflexivity.
    + exfalso. apply (find_none _ _ E) in Hin. congruence.
  - intros [p Hp]. destruct (find (same_index z x y) (tiles st)) eqn:E; [|discriminate].
    apply find_some in E. apply existsb_exists. exists t. exact E.
Qed.

Lemma save_tile_present st z x y data :
  existsb (same_index z x y) (tiles st) = true -> save_tile st z x y data = st.
Proof. intros H. unfold save_tile. now rewrite H. Qed.

Lemma find_app_none {A} (f : A -> bool) l1 l2 :
  find f l1 = None -> find f (l1 ++ l2) = find f l2.
Proof.
  induction l1 as [|a l1 IH]; simpl; [reflexivity|].
  destruct (f a); [discriminate | exact IH].
Qed.

Lemma same_index_refl z x y d : same_index z x y (mkTileRow z x y d) = true.
Proof. unfold same_index. simpl. now rewrite !Z.eqb_refl. Qed.

Lemma save_tile_absent st z x y data :
  existsb (same_index z x y) (tiles st) = false ->
  select_tile (save_tile st z x y data) z x y = Some data
  /\ tile_count (save_tile st z x y data) = S (tile_count st).
Proof.
  intros H. unfold save_tile, select_tile, tile_count. rewrite H. simpl. split.
  - rewrite find_app_none.
    + simpl. now rewrite same_index_refl.
    + destruct (find (same_index z x y) (tiles st)) eqn:E; [|reflexivity].
      apply find_some in E.
      assert (existsb (same_index z x y) (tiles st) = true)
        by (apply existsb_exists; eauto).
      congruence.
  - rewrite length_app. simpl. lia.
Qed.

Lemma save_tile_makes_present st z x y data :
  existsb (same_index z x y) (tiles (save_tile st z x y data)) = true.
Proof.
  unfold save_tile. destruct (existsb (same_index z x y) (tiles st)) eqn:E.
  - exact E.
  - simpl. rewrite existsb_app. simpl. rewrite same_index_refl.
    now rewrite orb_true_r.
Qed.

(** The unique index is never broken by [save_tile]. *)
Lemma unique_index_ok_app rows r :
  unique_index_ok rows = true ->
  existsb (same_index (zoom_level r) (tile_column r) (tile_row r)) rows = false ->
  unique_index_ok (rows ++ [r]) = true.
Proof.
  induction rows as [|a rows IH]; simpl; intros Hu Hn.
  - reflexivity.
  - apply andb_true_iff in Hu. destruct Hu as [Ha Hu].
    apply orb_false_iff in Hn. destruct Hn as [Hra Hn].
    rewrite existsb_app. simpl. rewrite orb_false_r.
    apply negb_true_iff in Ha. rewrite Ha. simpl.
    replace (same_index (zoom_level a) (tile_column a) (tile_row a) r) with false.
    + simpl. now apply IH.
    + symmetry. apply not_true_is_false. intros H.
      apply same_index_spec in H.
      assert (same_index (zoom_level r) (tile_column r) (tile_row r) a = true).
      { apply same_index_spec. unfold index_of in *. congruence. }
      congruence.
Qed.

Lemma save_tile_keeps_unique st z x y data :
  unique_index_ok (tiles st) = true ->
  unique_index_ok (tiles (save_tile st z x y data)) = true.
Proof.
  intros Hu. unfold save_tile.
  destruct (existsb (same_index z x y) (tiles st)) eqn:E; [exact Hu|].
  simpl. apply unique_index_ok_app; [exact Hu | exact E].
Qed.

Lemma save_tile_twice st z x y first second :
  save_tile (save_tile st z x y first) z x y second = save_tile st z x y first.
Proof. apply save_tile_present, save_tile_makes_present. Qed.

(** A store holding the tile 3/2/5. *)
Definition one_tile_store : Store :=
  save_tile (mkStore [] [] 0) 3 2 5 "first".

(** C2 (upsertTile is idempotent per key).  For every store state and
    every tile index (z, x, y) that is already present with payload
    [first], a further [save_tile] with the same index and any payload
    [second] leaves the payload stored under the index equal to [first],
    leaves the number of tile rows unchanged, and in fact leaves the whole
    store unchanged: the duplicate write is ignored, not an overwrite. *)
Theorem save_tile_first_write_wins (st : Store) (z x y : Z) (first second : bytes) :
  select_tile st z x y = Some first ->
  select_tile (save_tile st z x y second) z x y = Some first
  /\ tile_count (save_tile st z x y second) = tile_count st
  /\ save_tile st z x y second = st.
Proof.
  intros Hsel.
  assert (Hp : existsb (same_index z x y) (tiles st) = true)
    by (apply select_tile_present; eauto).
  rewrite (save_tile_present _ _ _ _ second Hp). auto.
Qed.

Lemma save_tile_first_write_wins_witness :
  select_tile one_tile_store 3 2 5 = Some "first"
  /\ select_tile (save_tile one_tile_store 3 2 5 "second") 3 2 5 = Some "first"
  /\ tile_count (save_tile one_tile_store 3 2 5 "second") = 1%nat.
Proof.
  split; [reflexivity|].
  destruct (save_tile_first_write_wins one_tile_store 3 2 5 "first" "second" eq_refl)
    as (Hsel & Hcount & _).
  split; [exact Hsel | exact Hcount].
Defined.

(** *** Facts about the metadata table *)

Lemma save_metadata_rows st name description bounds_str fmt :
  metadata (save_metadata st name description bounds_str fmt) =
  metadata st ++ [ ("name", name); ("type", "overlay"); ("version", "1.2");
                   ("description", description); ("format", fmt);
                   ("bounds", bounds_str) ].
Proof.
  unfold save_metadata, insert_or_replace_metadata. simpl.
  now rewrite <- !app_assoc.
Qed.

(** Rows written by an earlier [save_metadata] are never removed. *)
Lemma save_metadata_keeps_rows st name description bounds_str fmt kv :
  In kv (metadata st) ->
  In kv (metadata (save_metadata st name description bounds_str fmt)).
Proof. intros H. rewrite save_metadata_rows. apply in_or_app. now left. Qed.

Lemma save_metadata_grows st name description bounds_str fmt :
  List.length (metadata (save_metadata st name description bounds_str fmt))
  = (List.length (metadata st) + 6)%nat.
Proof. rewrite save_metadata_rows, length_app. reflexivity. Qed.

(** The run of [GeoSatellite/main.py] on an output file that exists
    ("dane zostana dopisane"): metadata saved by the first run, then again
    by the second run with another name, format and bounds. *)
Definition metadata_saved_twice : Store :=
  save_metadata
    (save_metadata (mkStore [] [] 0) "ORTO" "Layer: ORTO, Zoom: 10-12" "14.1,49.0,24.2,54.9" "jpg")
    "TOPO" "Layer: TOPO, Zoom: 8-9" "19.0,50.0,20.0,51.0" "png".

(** C10 at its failing input.  After the second [save_metadata] the table
    holds twelve rows, both values of every name, and the viewer's query
    still answers with the values of the first call: nothing was replaced. *)
Theorem save_metadata_second_call_does_not_replace :
  List.length (metadata metadata_saved_twice) = 12%nat
  /\ metadata_values metadata_saved_twice "name" = ["ORTO"; "TOPO"]
  /\ metadata_values metadata_saved_twice "format" = ["jpg"; "png"]
  /\ select_metadata metadata_saved_twice "bounds" = Some "14.1,49.0,24.2,54.9"
  /\ select_metadata metadata_saved_twice "name" <> Some "TOPO".
Proof. repeat split; try reflexivity. discriminate. Qed.

End StorageFacts.

(** ** Raster tiles: the fetchers *)

Module FetchFacts.
Import Raster.

(** [b'\xff\xd8\xff'], the first bytes of a JPEG file. *)
Definition jpeg_magic : bytes := String "255"%char (String "216"%char (String "255"%char "")).

(** Has the signature of one of the two declared formats
    ([img_fmt] is ['png'] or ['jpg'] in [GeoSatellite/main.py]). *)
Definition has_image_signature (body : bytes) : bool :=
  prefix png_magic body || prefix jpeg_magic body.

(** The test the GeoSatellite fetcher applies to a 200 body. *)
Definition looks_like_error_page (body : bytes) : bool :=
  str_in "ServiceException" body || str_in "<html" (slice_to 50 body).

(** A template without replacement fields formats to itself. *)
Definition format_plain (template : string) (tile : Tile) : PyResult string :=
  Return template.

(** An error page served with status 200: its [<html] tag comes after a
    comment longer than fifty bytes. *)
Definition error_page : bytes :=
  "<!-- generated by the map proxy: upstream server busy --><html><body>503 Service Unavailable</body></html>".

Definition serves (status_code : Z) (body : bytes)
  : string -> list (string * string) -> Z -> HttpOutcome :=
  fun _ _ _ => Response status_code body.

Definition breaks (msg : string)
  : string -> list (string * string) -> Z -> HttpOutcome :=
  fun _ _ _ => RequestException msg.

Definition tile0 : Tile := mkTile 2 5 3.

(** C6 as stated fails on the GeoSatellite fetcher: an HTML error page
    that carries no image signature is returned as the payload. *)
Lemma geosatellite_returns_error_page_as_payload :
  GeoSatellite.fetch_tile_content format_plain (serves 200 error_page)
    tile0 "http://wms.example/ortho" [] 10
  = Return (tile0, Some error_page, None)
  /\ has_image_signature error_page = false
  /\ str_in "<html" error_page = true.
Proof. repeat split; reflexivity. Qed.

Lemma random_choice_In {A : Type} draw (seq : list A) a :
  GeoTiles.random_choice draw seq = Return a -> In a seq.
Proof.
  unfold GeoTiles.random_choice.
  destruct (nth_error seq (draw mod List.length seq)) eqn:E; [|discriminate].
  intros H. injection H as <-. eapply nth_error_In; eauto.
Qed.

Lemma random_choice_nonempty {A : Type} draw (seq : list A) :
  seq <> [] -> exists a, GeoTiles.random_choice draw seq = Return a.
Proof.
  intros Hne. unfold GeoTiles.random_choice.
  destruct (nth_error seq (draw mod List.length seq)) eqn:E.
  - eexists. reflexivity.
  - exfalso. apply nth_error_None in E.
    destruct seq as [|a seq]; [congruence|].
    pose proof (Nat.mod_upper_bound draw (List.length (a :: seq))) as Hb.
    simpl in *. lia.
Qed.

(** Case analysis along the body of a fetcher. *)
Ltac fetch_cases :=
  repeat match goal with
  | |- context [match ?c with Return _ => _ | Raise _ => _ end] =>
      destruct c eqn:?; try discriminate
  | |- context [match ?c with Response _ _ => _ | RequestException _ => _ end] =>
      destruct c eqn:?; try discriminate
  | |- context [if ?b then _ else _] =>
      destruct b eqn:?; try discriminate
  end.

Section Fetchers.

Variable str_format : string -> Tile -> PyResult string.
Variable requests_get : string -> list (string * string) -> Z -> HttpOutcome.
Variables (headers : list (string * string)) (timeout : Z).

Lemma geotiles_payload_inv draw tile servers t body err :
  GeoTiles.fetch_tile_content str_format requests_get draw tile servers headers timeout
    = Return (t, Some body, err) ->
  prefix png_magic body = true /\ err = None /\ t = tile
  /\ exists url, requests_get url headers timeout = Response 200 body.
Proof.
  unfold GeoTiles.fetch_tile_content, py_bind. fetch_cases.
  intros H. injection H as <- <- <-.
  match goal with E : (_ && _)%bool = true |- _ => apply andb_true_iff in E; destruct E as [Es Ep] end.
  apply Z.eqb_eq in Es. subst. eauto.
Qed.

Lemma geosatellite_payload_inv tile url_template t body err :
  GeoSatellite.fetch_tile_content str_format requests_get tile url_template headers timeout
    = Return (t, Some body, err) ->
  looks_like_error_page body = false /\ err = None /\ t = tile
  /\ exists url, requests_get url headers timeout = Response 200 body.
Proof.
  unfold GeoSatellite.fetch_tile_content, looks_like_error_page, py_bind. fetch_cases.
  intros H. injection H as <- <- <-.
  match goal with E : (_ =? 200) = true |- _ => apply Z.eqb_eq in E end.
  subst. eauto.
Qed.

Lemma geotiles_on_200 draw tile servers server url body :
  GeoTiles.random_choice draw servers = Return server ->
  str_format server tile = Return url ->
  requests_get url headers timeout = Response 200 body ->
  GeoTiles.fetch_tile_content str_format requests_get draw tile servers headers timeout
    = Return (tile, if prefix png_magic body then Some body else None, None).
Proof.
  intros Hc Hf Hg. unfold GeoTiles.fetch_tile_content, py_bind.
  rewrite Hc, Hf, Hg. simpl. now destruct (prefix png_magic body).
Qed.

Lemma geosatellite_on_200 tile url_template url body :
  str_format url_template tile = Return url ->
  requests_get url headers timeout = Response 200 body ->
  GeoSatellite.fetch_tile_content str_format requests_get tile url_template headers timeout
    = Return (tile, if looks_like_error_page body then None else Some body, None).
Proof.
  intros Hf Hg. unfold GeoSatellite.fetch_tile_content, looks_like_error_page, py_bind.
  rewrite Hf, Hg. simpl.
  now destruct (str_in "ServiceException" body || str_in "<html" (slice_to 50 body)).
Qed.

(** Once the URL is built, each fetcher returns a triple for the tile it
    was given, with no payload next to an error message. *)
Lemma geotiles_after_url draw tile servers server url :
  GeoTiles.random_choice draw servers = Return server ->
  str_format server tile = Return url ->
  exists content err,
    GeoTiles.fetch_tile_content str_format requests_get draw tile servers headers timeout
      = Return (tile, content, err)
    /\ (err <> None -> content = None)
    /\ (forall msg, requests_get url headers timeout = RequestException msg ->
          content = None /\ err = Some msg).
Proof.
  intros Hc Hf. unfold GeoTiles.fetch_tile_content, py_bind. rewrite Hc, Hf.
  destruct (requests_get url headers timeout) as [status body|msg].
  - destruct ((status =? 200) && prefix png_magic body);
      do 2 eexists; (split; [reflexivity|split; [congruence|discriminate]]).
  - do 2 eexists. split; [reflexivity|]. split; [reflexivity|].
    intros msg' H. injection H as <-. auto.
Qed.

Lemma geosatellite_after_url tile url_template url :
  str_format url_template tile = Return url ->
  exists content err,
    GeoSatellite.fetch_tile_content str_format requests_get tile url_template headers timeout
      = Return (tile, content, err)
    /\ (err <> None -> content = None)
    /\ (forall msg, requests_get url headers timeout = RequestException msg ->
          content = None /\ err = Some msg).
Proof.
  intros Hf. unfold GeoSatellite.fetch_tile_content, py_bind. rewrite Hf.
  destruct (requests_get url headers timeout) as [status body|msg].
  - destruct (status =? 200);
      [destruct (str_in "ServiceException" body || str_in "<html" (slice_to 50 body))|];
      do 2 eexists; (split; [reflexivity|split; [congruence|discriminate]]).
  - do 2 eexists. split; [reflexivity|]. split; [reflexivity|].
    intros msg' H. injection H as <-. auto.
Qed.

Lemma geotiles_no_servers draw tile :
  GeoTiles.fetch_tile_content str_format requests_get draw tile [] headers timeout
    = Raise (IndexError "Cannot choose from an empty sequence").
Proof.
  unfold GeoTiles.fetch_tile_content, GeoTiles.random_choice. simpl.
  now destruct draw.
Qed.

Lemma geosatellite_format_raises tile url_template e :
  str_format url_template tile = Raise e ->
  GeoSatellite.fetch_tile_content str_format requests_get tile url_template headers timeout
    = Raise e.
Proof. intros H. unfold GeoSatellite.fetch_tile_content, py_bind. now rewrite H. Qed.

End Fetchers.

(** C6, amended.  A payload comes back only from a 200 response whose
    body passed the fetcher's own test: for GeoTiles the body starts with
    the PNG signature; for GeoSatellite the body has no [ServiceException]
    in it and no [<html] within its first fifty bytes (no signature is
    looked at).  A 200 body that fails the test is returned as
    (tile, None, None), and one that passes is returned whole. *)
Theorem payload_only_after_validation
    (str_format : string -> Tile -> PyResult string)
    (requests_get : string -> list (string * string) -> Z -> HttpOutcome)
    (draw : nat) (tile : Tile) (servers : list string) (url_template : string)
    (headers : list (string * string)) (timeout : Z) :
  (forall t body err,
      GeoTiles.fetch_tile_content str_format requests_get draw tile servers headers timeout
        = Return (t, Some body, err) ->
      prefix png_magic body = true /\ err = None /\ t = tile
      /\ exists url, requests_get url headers timeout = Response 200 body)
  /\ (forall t body err,
      GeoSatellite.fetch_tile_content str_format requests_get tile url_template headers timeout
        = Return (t, Some body, err) ->
      looks_like_error_page body = false /\ err = None /\ t = tile
      /\ exists url, requests_get url headers timeout = Response 200 body)
  /\ (forall server url body,
      GeoTiles.random_choice draw servers = Return server ->
      str_format server tile = Return url ->
      requests_get url headers timeout = Response 200 body ->
      GeoTiles.fetch_tile_content str_format requests_get draw tile servers headers timeout
        = Return (tile, if prefix png_magic body then Some body else None, None))
  /\ (forall url body,
      str_format url_template tile = Return url ->
      requests_get url headers timeout = Response 200 body ->
      GeoSatellite.fetch_tile_content str_format requests_get tile url_template headers timeout
        = Return (tile, if looks_like_error_page body then None else Some body, None)).
Proof.
  split; [|split; [|split]].
  - intros t body err. apply geotiles_payload_inv.
  - intros t body err. apply geosatellite_payload_inv.
  - intros server url body. apply geotiles_on_200.
  - intros url body. apply geosatellite_on_200.
Qed.

(** A PNG body and a page with [<html] at its start, each served with
    status 200 to both fetchers. *)
Lemma payload_only_after_validation_witness :
  GeoTiles.fetch_tile_content format_plain (serves 200 (png_magic ++ "...")%string)
      1 tile0 ["http://a.tile.example/"; "http://b.tile.example/"] [] 15
    = Return (tile0, Some (png_magic ++ "...")%string, None)
  /\ GeoSatellite.fetch_tile_content format_plain (serves 200 "<html>busy</html>")
      tile0 "http://wms.example/ortho" [] 10
    = Return (tile0, None, None).
Proof.
  destruct (payload_only_after_validation format_plain (serves 200 (png_magic ++ "...")%string)
              1 tile0 ["http://a.tile.example/"; "http://b.tile.example/"]
              "http://wms.example/ortho" [] 15) as (_ & _ & Hpng & _).
  destruct (payload_only_after_validation format_plain (serves 200 "<html>busy</html>")
              1 tile0 [] "http://wms.example/ortho" [] 10) as (_ & _ & _ & Hhtml).
  split.
  - exact (Hpng "http://b.tile.example/" "http://b.tile.example/" _ eq_refl eq_refl eq_refl).
  - exact (Hhtml "http://wms.example/ortho" _ eq_refl eq_refl).
Defined.

(** C9 as stated fails: with an empty server list the GeoTiles fetcher
    raises before it reaches its [try]. *)
Lemma geotiles_fetch_raises_without_servers :
  GeoTiles.fetch_tile_content format_plain (serves 200 png_magic) 0 tile0 [] [] 15
  = Raise (IndexError "Cannot choose from an empty sequence")
  /\ ~ (exists triple : FetchResult,
          GeoTiles.fetch_tile_content format_plain (serves 200 png_magic) 0 tile0 [] [] 15
          = Return triple).
Proof.
  split; [reflexivity|]. intros [triple H]. discriminate H.
Qed.

(** C9, amended.  Whenever the URL can be built (the server list is not
    empty and [str.format] accepts the template), each fetcher returns a
    triple (tile, payload or None, message or None) for the tile it was
    given, never a payload together with a message, and every exception
    of the HTTP request comes back as the message with no payload.  The
    exceptions of building the URL are raised to the caller. *)
Theorem fetch_returns_triple_once_url_is_built
    (str_format : string -> Tile -> PyResult string)
    (requests_get : string -> list (string * string) -> Z -> HttpOutcome)
    (draw : nat) (tile : Tile) (servers : list string) (url_template : string)
    (headers : list (string * string)) (timeout : Z) :
  (servers <> [] ->
   (forall server, In server servers -> exists url, str_format server tile = Return url) ->
   exists content err,
     GeoTiles.fetch_tile_content str_format requests_get draw tile servers headers timeout
       = Return (tile, content, err)
     /\ (err <> None -> content = None)
     /\ (forall msg, (forall url, requests_get url headers timeout = RequestException msg) ->
           content = None /\ err = Some msg))
  /\ (forall url, str_format url_template tile = Return url ->
      exists content err,
        GeoSatellite.fetch_tile_content str_format requests_get tile url_template headers timeout
          = Return (tile, content, err)
        /\ (err <> None -> content = None)
        /\ (forall msg, requests_get url headers timeout = RequestException msg ->
              content = None /\ err = Some msg))
  /\ GeoTiles.fetch_tile_content str_format requests_get draw tile [] headers timeout
       = Raise (IndexError "Cannot choose from an empty sequence")
  /\ (forall e, str_format url_template tile = Raise e ->
      GeoSatellite.fetch_tile_content str_format requests_get tile url_template headers timeout
        = Raise e).
Proof.
  split; [|split; [|split]].
  - intros Hne Hfmt.
    destruct (random_choice_nonempty draw servers Hne) as [server Hc].
    destruct (Hfmt server (random_choice_In _ _ _ Hc)) as [url Hf].
    destruct (geotiles_after_url str_format requests_get headers timeout
                draw tile servers server url Hc Hf) as (content & err & He & Hn & Hm).
    exists content, err. split; [exact He|]. split; [exact Hn|].
    intros msg Hall. apply (Hm msg), Hall.
  - intros url. apply geosatellite_after_url.
  - apply geotiles_no_servers.
  - intros e. apply geosatellite_format_raises.
Qed.

Lemma fetch_returns_triple_once_url_is_built_witness :
  GeoTiles.fetch_tile_content format_plain (breaks "Read timed out")
      1 tile0 ["http://a.tile.example/"; "http://b.tile.example/"] [] 15
    = Return (tile0, None, Some "Read timed out")
  /\ GeoSatellite.fetch_tile_content format_plain (breaks "Read timed out")
      tile0 "http://wms.example/ortho" [] 10
    = Return (tile0, None, Some "Read timed out").
Proof.
  destruct (fetch_returns_triple_once_url_is_built format_plain (breaks "Read timed out")
              1 tile0 ["http://a.tile.example/"; "http://b.tile.example/"]
              "http://wms.example/ortho" [] 15) as (Hosm & _ & _ & _).
  destruct (fetch_returns_triple_once_url_is_built format_plain (breaks "Read timed out")
              1 tile0 ["http://a.tile.example/"; "http://b.tile.example/"]
              "http://wms.example/ortho" [] 10) as (_ & Hsat & _ & _).
  split.
  - destruct Hosm as (content & err & He & _ & Hm).
    + discriminate.
    + intros server _. exists server. reflexivity.
    + destruct (Hm "Read timed out" (fun _ => eq_refl)) as [-> ->]. exact He.
  - destruct (Hsat "http://wms.example/ortho" eq_refl) as (content & err & He & _ & Hm).
    destruct (Hm "Read timed out" eq_refl) as [-> ->]. exact He.
Defined.

End FetchFacts.

(** ** Raster tiles: the dispatcher *)

Module DispatchFacts.
Import Storage Raster StorageFacts.

(** The index under which the dispatcher stores a tile. *)
Definition store_index (t : Tile) : Z * Z * Z :=
  (tile_z t, tile_x t, flip_y (tile_z t) (tile_y t)).

Lemma flip_y_involutive z y : flip_y z (flip_y z y) = y.
Proof. unfold flip_y. lia. Qed.

Lemma store_index_inj t1 t2 : store_index t1 = store_index t2 -> t1 = t2.
Proof.
  destruct t1 as [x1 y1 z1], t2 as [x2 y2 z2]. unfold store_index, flip_y. simpl.
  intros H. injection H as -> -> Hy. f_equal. lia.
Qed.

(** The triples a fetch function gives for a work list, and the part of
    them the dispatcher writes. *)
Definition has_payload (r : FetchResult) : bool := truthy (snd (fst r)).

Definition result_tile (r : FetchResult) : Tile := fst (fst r).

(** The loop on the pure part of its state. *)
Definition write_payload (st : Store) (r : FetchResult) : Store :=
  let t := result_tile r in
  save_tile st (tile_z t) (tile_x t) (flip_y (tile_z t) (tile_y t)) (value_of (snd (fst r))).

Lemma handle_result_tiles total run r :
  tiles (storage_instance (handle_result total run r)) =
  tiles (if has_payload r then write_payload (storage_instance run) r else storage_instance run).
Proof.
  destruct r as [[t content] err]. unfold handle_result, has_payload, write_payload, result_tile.
  simpl. destruct (truthy content); simpl;
    match goal with |- context [if ?c then _ else _] => destruct c end; reflexivity.
Qed.

Lemma handle_result_processed total run r :
  processed (handle_result total run r) = processed run + 1.
Proof.
  destruct r as [[t content] err]. unfold handle_result.
  destruct (truthy content); simpl;
    match goal with |- context [if ?c then _ else _] => destruct c end; reflexivity.
Qed.

Lemma handle_result_errors total run r :
  errors_count (handle_result total run r) =
  errors_count run + (if has_payload r then 0 else 1).
Proof.
  destruct r as [[t content] err]. unfold handle_result, has_payload. simpl.
  destruct (truthy content); simpl;
    match goal with |- context [if ?c then _ else _] => destruct c end; simpl; lia.
Qed.

Lemma drain_returns total rs run :
  drain total (map Return rs) run = Return (fold_left (handle_result total) rs run).
Proof.
  revert run. induction rs as [|r rs IH]; intros run; simpl; [reflexivity | apply IH].
Qed.

Lemma fold_processed total rs run :
  processed (fold_left (handle_result total) rs run) = processed run + Z.of_nat (List.length rs).
Proof.
  revert run. induction rs as [|r rs IH]; intros run; simpl List.length; simpl fold_left.
  - lia.
  - rewrite IH, handle_result_processed. lia.
Qed.

Lemma fold_errors total rs run :
  errors_count (fold_left (handle_result total) rs run) =
  errors_count run + Z.of_nat (List.length (filter (fun r => negb (has_payload r)) rs)).
Proof.
  revert run. induction rs as [|r rs IH]; intros run; simpl filter; simpl fold_left.
  - simpl. lia.
  - rewrite IH, handle_result_errors. destruct (has_payload r); simpl negb; cbv iota.
    + lia.
    + simpl List.length. lia.
Qed.

Lemma write_payload_tiles_ext s1 s2 r :
  tiles s1 = tiles s2 -> tiles (write_payload s1 r) = tiles (write_payload s2 r).
Proof.
  intros E. unfold write_payload, save_tile. cbv zeta. rewrite E.
  destruct (existsb _ (tiles s2)); simpl; [exact E | reflexivity].
Qed.

Lemma fold_write_payload_ext l : forall s1 s2,
  tiles s1 = tiles s2 ->
  tiles (fold_left write_payload l s1) = tiles (fold_left write_payload l s2).
Proof.
  induction l as [|a l IHl]; intros s1 s2 E; simpl; [exact E|].
  apply IHl. now apply write_payload_tiles_ext.
Qed.

Lemma fold_tiles total rs run :
  tiles (storage_instance (fold_left (handle_result total) rs run)) =
  tiles (fold_left write_payload (filter has_payload rs) (storage_instance run)).
Proof.
  revert run. induction rs as [|r rs IH]; intros run; simpl filter; simpl fold_left.
  - reflexivity.
  - rewrite IH. pose proof (handle_result_tiles total run r) as Ht.
    destruct (has_payload r); simpl fold_left; now apply fold_write_payload_ext.
Qed.

(** *** What a sequence of writes leaves in the tile table *)

Definition indexes (st : Store) : list (Z * Z * Z) := map index_of (tiles st).

Definition result_index (r : FetchResult) : Z * Z * Z := store_index (result_tile r).

Lemma indexes_write st r :
  indexes (write_payload st r) =
  if existsb (same_index (tile_z (result_tile r)) (tile_x (result_tile r))
                (flip_y (tile_z (result_tile r)) (tile_y (result_tile r)))) (tiles st)
  then indexes st else indexes st ++ [result_index r].
Proof.
  unfold write_payload, save_tile, indexes. cbv zeta.
  destruct (existsb _ (tiles st)); [reflexivity|].
  simpl. now rewrite map_app.
Qed.

Lemma In_indexes_write st r k :
  In k (indexes (write_payload st r)) <-> In k (indexes st) \/ k = result_index r.
Proof.
  rewrite indexes_write.
  destruct (existsb _ (tiles st)) eqn:E.
  - split; [auto|]. intros [H| ->]; [exact H|].
    apply present_iff in E. exact E.
  - rewrite in_app_iff. simpl. intuition congruence.
Qed.

Lemma In_indexes_fold l : forall st k,
  In k (indexes (fold_left write_payload l st)) <->
  In k (indexes st) \/ In k (map result_index l).
Proof.
  induction l as [|r l IH]; intros st k; simpl.
  - tauto.
  - rewrite IH, In_indexes_write. intuition congruence.
Qed.

Lemma count_fold l : forall st,
  NoDup (map result_index l) ->
  (forall r, In r l -> ~ In (result_index r) (indexes st)) ->
  tile_count (fold_left write_payload l st) = (tile_count st + List.length l)%nat.
Proof.
  induction l as [|r l IH]; intros st Hnd Hfresh; simpl.
  - lia.
  - inversion Hnd as [|? ? Hnotin Hnd']; subst.
    rewrite IH.
    + assert (Habs : existsb (same_index (tile_z (result_tile r)) (tile_x (result_tile r))
                (flip_y (tile_z (result_tile r)) (tile_y (result_tile r)))) (tiles st) = false).
      { apply not_true_is_false. intros H. apply present_iff in H.
        apply (Hfresh r); [now left | exact H]. }
      unfold write_payload, save_tile, tile_count. cbv zeta. rewrite Habs. simpl.
      rewrite length_app. simpl. lia.
    + exact Hnd'.
    + intros r' Hr' Hin. apply In_indexes_write in Hin. destruct Hin as [Hin|Heq].
      * apply (Hfresh r'); [now right | exact Hin].
      * apply Hnotin. rewrite <- Heq. now apply in_map.
Qed.

Lemma select_tile_kept st z x y p z' x' y' d :
  select_tile st z x y = Some p ->
  select_tile (save_tile st z' x' y' d) z x y = Some p.
Proof.
  intros H. unfold save_tile.
  destruct (existsb (same_index z' x' y') (tiles st)); [exact H|].
  unfold select_tile in *. simpl.
  destruct (find (same_index z x y) (tiles st)) eqn:E; [|discriminate].
  assert (Hf : forall l2, find (same_index z x y) (tiles st ++ l2) = Some t).
  { clear H. revert E. induction (tiles st) as [|a l IHl]; simpl; [discriminate|].
    intros E l2. destruct (same_index z x y a); [exact E | now apply IHl]. }
  now rewrite Hf.
Qed.

Lemma select_fold_kept l : forall st z x y p,
  select_tile st z x y = Some p ->
  select_tile (fold_left write_payload l st) z x y = Some p.
Proof.
  induction l as [|r l IH]; intros st z x y p H; simpl; [exact H|].
  apply IH. unfold write_payload. cbv zeta. now apply select_tile_kept.
Qed.

Lemma select_fold_written l : forall st r,
  In r l ->
  NoDup (map result_index l) ->
  (forall r', In r' l -> ~ In (result_index r') (indexes st)) ->
  select_tile (fold_left write_payload l st)
    (tile_z (result_tile r)) (tile_x (result_tile r))
    (flip_y (tile_z (result_tile r)) (tile_y (result_tile r)))
  = Some (value_of (snd (fst r))).
Proof.
  induction l as [|a l IH]; intros st r Hin Hnd Hfresh; [destruct Hin|].
  inversion Hnd as [|? ? Hnotin Hnd']; subst. simpl fold_left.
  destruct Hin as [->|Hin].
  - apply select_fold_kept. unfold write_payload. cbv zeta.
    apply save_tile_absent. apply not_true_is_false. intros H.
    apply present_iff in H. apply (Hfresh r); [now left | exact H].
  - apply IH; [exact Hin | exact Hnd' |].
    intros r' Hr' Hidx. apply In_indexes_write in Hidx. destruct Hidx as [Hidx|Heq].
    + apply (Hfresh r'); [now right | exact Hidx].
    + apply Hnotin. rewrite <- Heq. now apply in_map.
Qed.

(** *** Order of completion *)

Lemma filter_length_perm {A : Type} (f : A -> bool) l l' :
  Permutation l l' -> List.length (filter f l) = List.length (filter f l').
Proof.
  induction 1 as [|a l l' _ IH|a b l|l l' l'' _ IH1 _ IH2]; simpl.
  - reflexivity.
  - destruct (f a); simpl; congruence.
  - destruct (f a), (f b); reflexivity.
  - congruence.
Qed.

Lemma filter_perm {A : Type} (f : A -> bool) l l' :
  Permutation l l' -> Permutation (filter f l) (filter f l').
Proof.
  induction 1 as [|a l l' _ IH|a b l|l l' l'' _ IH1 _ IH2]; simpl.
  - constructor.
  - destruct (f a); [now constructor | exact IH].
  - destruct (f a), (f b); try reflexivity. apply perm_swap.
  - eapply perm_trans; eauto.
Qed.

Lemma filter_map_comm {A B : Type} (f : B -> bool) (g : A -> B) l :
  filter f (map g l) = map g (filter (fun a => f (g a)) l).
Proof.
  induction l as [|a l IH]; simpl; [reflexivity|].
  destruct (f (g a)); simpl; now rewrite IH.
Qed.

Lemma NoDup_map_inj {A B : Type} (f : A -> B) l :
  (forall a b, f a = f b -> a = b) -> NoDup l -> NoDup (map f l).
Proof.
  intros Hinj. induction 1 as [|a l Hnotin Hnd IH]; simpl; constructor.
  - intros Hin. apply in_map_iff in Hin. destruct Hin as (b & Hb & Hin).
    apply Hinj in Hb. subst. contradiction.
  - exact IH.
Qed.

(** A fetch function in the sense of the dispatcher: for a tile it gives
    a payload or none and a message or none; the call the dispatcher
    submits returns them with the tile, as both fetchers do. *)
Definition call (fetch : Tile -> option bytes * option string) (t : Tile) : PyResult FetchResult :=
  Return (t, fst (fetch t), snd (fetch t)).

Definition returned (fetch : Tile -> option bytes * option string) (t : Tile) : bool :=
  truthy (fst (fetch t)).

Section Drain.

Variable fetch : Tile -> option bytes * option string.
Variable tiles_list : list Tile.
Variable st0 : Store.
Variable completed : list (PyResult FetchResult).
Hypothesis Horder : as_completed (submit_all (call fetch) tiles_list) completed.

Let triples : list FetchResult := map (fun t => (t, fst (fetch t), snd (fetch t))) tiles_list.

Lemma completed_triples :
  exists rs, completed = map Return rs /\ Permutation triples rs.
Proof.
  unfold as_completed in Horder.
  assert (Hm : submit_all (call fetch) tiles_list = map Return triples).
  { unfold triples, submit_all. now rewrite map_map. }
  rewrite Hm in Horder. apply Permutation_sym in Horder.
  apply Permutation_map_inv in Horder. destruct Horder as (rs & Hc & Hp).
  exists rs. split; [exact Hc | exact Hp].
Qed.

Lemma triples_with_payload :
  filter has_payload triples
  = map (fun t => (t, fst (fetch t), snd (fetch t))) (filter (returned fetch) tiles_list).
Proof. unfold triples. now rewrite filter_map_comm. Qed.

Lemma triples_without_payload :
  List.length (filter (fun r => negb (has_payload r)) triples)
  = List.length (filter (fun t => negb (returned fetch t)) tiles_list).
Proof. unfold triples. now rewrite filter_map_comm, length_map. Qed.

Lemma run_downloader_drains :
  exists run,
    run_downloader tiles_list completed st0 = Return run
    /\ processed run = Z.of_nat (List.length tiles_list)
    /\ errors_count run
       = Z.of_nat (List.length (filter (fun t => negb (returned fetch t)) tiles_list))
    /\ (forall z x y,
          (exists p, select_tile (storage_instance run) z x y = Some p) <->
          (exists p, select_tile st0 z x y = Some p)
          \/ (exists t, In t tiles_list /\ returned fetch t = true /\ store_index t = (z, x, y)))
    /\ (tiles st0 = [] -> NoDup tiles_list ->
          tile_count (storage_instance run)
            = List.length (filter (returned fetch) tiles_list)
          /\ (forall t, In t tiles_list -> returned fetch t = true ->
                select_tile (storage_instance run)
                  (tile_z t) (tile_x t) (flip_y (tile_z t) (tile_y t)) = fst (fetch t))).
Proof.
  destruct completed_triples as (rs & Hc & Hp).
  set (total := Z.of_nat (List.length tiles_list)).
  set (loop := fold_left (handle_result total) rs (mkRun st0 0 0 [])).
  assert (Hrun : exists run,
             run_downloader tiles_list completed st0 = Return run
             /\ processed run = processed loop
             /\ errors_count run = errors_count loop
             /\ tiles (storage_instance run) = tiles (storage_instance loop)).
  { unfold run_downloader. fold total. rewrite Hc, drain_returns. fold loop.
    unfold py_bind. eexists. split; [reflexivity|].
    destruct (0 <? _); simpl; auto. }
  destruct Hrun as (run & Hret & Hproc & Herr & Htiles).
  assert (Hstored : tiles (storage_instance run)
                    = tiles (fold_left write_payload (filter has_payload rs) st0)).
  { rewrite Htiles. unfold loop. now rewrite fold_tiles. }
  assert (Hpp : Permutation (filter has_payload triples) (filter has_payload rs))
    by now apply filter_perm.
  exists run. split; [exact Hret|]. split; [|split; [|split]].
  - rewrite Hproc. unfold loop. rewrite fold_processed. simpl.
    rewrite <- (Permutation_length Hp). unfold triples. now rewrite length_map.
  - rewrite Herr. unfold loop. rewrite fold_errors. simpl.
    rewrite <- (filter_length_perm _ _ _ Hp). now rewrite triples_without_payload.
  - intros z x y.
    rewrite <- !select_tile_present, !present_iff.
    change (map index_of (tiles (storage_instance run))) with (indexes (storage_instance run)).
    unfold indexes at 1. rewrite Hstored.
    change (map index_of (tiles (fold_left write_payload (filter has_payload rs) st0)))
      with (indexes (fold_left write_payload (filter has_payload rs) st0)).
    rewrite In_indexes_fold.
    apply or_iff_compat_l.
    split.
    + intros Hin. apply in_map_iff in Hin. destruct Hin as (r & Hr & Hin).
      apply (Permutation_in _ (Permutation_sym Hpp)) in Hin.
      rewrite triples_with_payload in Hin. apply in_map_iff in Hin.
      destruct Hin as (t & <- & Hin). apply filter_In in Hin. destruct Hin as [Hin Hret'].
      exists t. repeat split; auto.
    + intros (t & Hin & Hret' & Hidx).
      apply in_map_iff. exists (t, fst (fetch t), snd (fetch t)). split; [exact Hidx|].
      apply (Permutation_in _ Hpp). rewrite triples_with_payload.
      apply (in_map (fun t => (t, fst (fetch t), snd (fetch t)))). apply filter_In. auto.
  - intros Hempty Hnd.
    assert (Hnd' : NoDup (map result_index (filter has_payload rs))).
    { apply (Permutation_NoDup (Permutation_map result_index Hpp)).
      rewrite triples_with_payload, map_map. unfold result_index, result_tile. simpl.
      apply NoDup_map_inj; [apply store_index_inj | now apply NoDup_filter]. }
    assert (Hfresh : forall r, In r (filter has_payload rs) -> ~ In (result_index r) (indexes st0)).
    { intros r _. unfold indexes. rewrite Hempty. simpl. tauto. }
    split.
    + unfold tile_count at 1. rewrite Hstored.
      change (List.length (tiles (fold_left write_payload (filter has_payload rs) st0)))
        with (tile_count (fold_left write_payload (filter has_payload rs) st0)).
      rewrite count_fold by assumption.
      unfold tile_count. rewrite Hempty. simpl.
      rewrite <- (Permutation_length Hpp), triples_with_payload. now rewrite length_map.
    + intros t Hin Hret'.
      assert (Hr : In (t, fst (fetch t), snd (fetch t)) (filter has_payload rs)).
      { apply (Permutation_in _ Hpp). rewrite triples_with_payload.
        apply (in_map (fun t => (t, fst (fetch t), snd (fetch t)))). apply filter_In. auto. }
      pose proof (select_fold_written _ st0 _ Hr Hnd' Hfresh) as Hsel.
      unfold result_tile in Hsel. simpl in Hsel.
      unfold select_tile in *. rewrite Hstored, Hsel.
      unfold returned, truthy in Hret'. destruct (fst (fetch t)) as [[|c s]|]; try discriminate.
      reflexivity.
Qed.

End Drain.

(** The scenario of the specification: a thousand work items, numbered
    from 1 by their tile column at zoom 10, and a fetch that fails on the
    numbers divisible by 7. *)
Definition scenario_tiles : list Tile :=
  map (fun i => mkTile (Z.of_nat i) 0 10) (seq 1 1000).

Definition scenario_fetch (t : Tile) : option bytes * option string :=
  if tile_x t mod 7 =? 0 then (None, Some "Read timed out") else (Some "tile", None).

(** The count of the failing items depends on where the numbering
    starts: 142 among 1 .. 1000, 143 among 0 .. 999. *)
Remark multiples_of_seven :
  List.length (filter (fun t => negb (returned scenario_fetch t)) scenario_tiles) = 142%nat
  /\ List.length (filter (fun t => negb (returned scenario_fetch t))
                    (map (fun i => mkTile (Z.of_nat i) 0 10) (seq 0 1000))) = 143%nat.
Proof. split; vm_compute; reflexivity. Qed.

Lemma scenario_tiles_NoDup : NoDup scenario_tiles.
Proof.
  apply NoDup_map_inj; [|apply seq_NoDup].
  intros a b H. injection H as H. lia.
Qed.

(** C7 (the dispatcher drains the work list).  For every work list,
    every fetch function, every store and every order in which the
    submitted calls complete: the run ends normally, has processed as many
    results as there are work items, has counted as errors exactly the
    items whose fetch returned no payload (none, or an empty one), and
    holds a tile under an index exactly when the store held it before or
    an item with that index returned a payload; from an empty tile table
    and a work list without repeated tiles, the number of stored tiles is
    the number of items that returned a payload, each stored with the
    payload its fetch returned.  In the scenario of 1000 items numbered
    from 1 with failures on the multiples of 7, it stores
    1000 - floor(1000/7) = 858 tiles and counts floor(1000/7) = 142
    errors. *)
Theorem dispatcher_drains_work_list :
  (forall (fetch : Tile -> option bytes * option string) (tiles_list : list Tile)
          (st0 : Store) (completed : list (PyResult FetchResult)),
      as_completed (submit_all (call fetch) tiles_list) completed ->
      exists run,
        run_downloader tiles_list completed st0 = Return run
        /\ processed run = Z.of_nat (List.length tiles_list)
        /\ errors_count run
           = Z.of_nat (List.length (filter (fun t => negb (returned fetch t)) tiles_list))
        /\ (forall z x y,
              (exists p, select_tile (storage_instance run) z x y = Some p) <->
              (exists p, select_tile st0 z x y = Some p)
              \/ (exists t, In t tiles_list /\ returned fetch t = true
                            /\ store_index t = (z, x, y)))
        /\ (tiles st0 = [] -> NoDup tiles_list ->
              tile_count (storage_instance run)
                = List.length (filter (returned fetch) tiles_list)
              /\ (forall t, In t tiles_list -> returned fetch t = true ->
                    select_tile (storage_instance run)
                      (tile_z t) (tile_x t) (flip_y (tile_z t) (tile_y t)) = fst (fetch t))))
  /\ (forall completed : list (PyResult FetchResult),
      as_completed (submit_all (call scenario_fetch) scenario_tiles) completed ->
      exists run,
        run_downloader scenario_tiles completed (mkStore [] [] 0) = Return run
        /\ processed run = 1000
        /\ Z.of_nat (tile_count (storage_instance run)) = 1000 - 1000 / 7
        /\ errors_count run = 1000 / 7).
Proof.
  split.
  - intros fetch tiles_list st0 completed Horder.
    now apply run_downloader_drains.
  - intros completed Horder.
    destruct (run_downloader_drains scenario_fetch scenario_tiles (mkStore [] [] 0)
                completed Horder) as (run & Hret & Hproc & Herr & _ & Hcount).
    destruct (Hcount eq_refl scenario_tiles_NoDup) as [Hn _].
    exists run. split; [exact Hret|]. split; [|split].
    + rewrite Hproc. reflexivity.
    + rewrite Hn. vm_compute. reflexivity.
    + rewrite Herr. vm_compute. reflexivity.
Qed.

(** Four items completing out of order, the second of which fails. *)
Lemma dispatcher_drains_work_list_witness :
  exists run,
    run_downloader [mkTile 0 0 1; mkTile 1 0 1; mkTile 0 1 1; mkTile 1 1 1]
      (map (call (fun t => if (tile_x t =? 1) && (tile_y t =? 0)
                           then (None, Some "Read timed out") else (Some "tile", None)))
           [mkTile 1 1 1; mkTile 1 0 1; mkTile 0 0 1; mkTile 0 1 1])
      (mkStore [] [] 0) = Return run
    /\ processed run = 4
    /\ errors_count run = 1.
Proof.
  destruct (proj1 dispatcher_drains_work_list
              (fun t => if (tile_x t =? 1) && (tile_y t =? 0)
                        then (None, Some "Read timed out") else (Some "tile", None))
              [mkTile 0 0 1; mkTile 1 0 1; mkTile 0 1 1; mkTile 1 1 1]
              (mkStore [] [] 0)
              (map (call (fun t => if (tile_x t =? 1) && (tile_y t =? 0)
                                   then (None, Some "Read timed out") else (Some "tile", None)))
                   [mkTile 1 1 1; mkTile 1 0 1; mkTile 0 0 1; mkTile 0 1 1]))
    as (run & Hret & Hproc & Herr & _).
  - unfold as_completed, submit_all. apply Permutation_map.
    apply (Permutation_cons_app [mkTile 1 1 1; mkTile 1 0 1] [mkTile 0 1 1]).
    apply (Permutation_cons_app [mkTile 1 1 1] [mkTile 0 1 1]).
    apply perm_swap.
  - exists run. split; [exact Hret|]. split; [exact Hproc | exact Herr].
Defined.

End DispatchFacts.

(** ** Merging the partial results *)

Module MergeFacts.
Import Merge.

Lemma cell_eqb_eq a b : cell_eqb a b = true <-> a = b.
Proof.
  destruct a as [n|s], b as [m|t]; simpl; split; intros H; try discriminate.
  - apply Z.eqb_eq in H. now subst.
  - injection H as ->. apply Z.eqb_refl.
  - apply String.eqb_eq in H. now subst.
  - injection H as ->. apply String.eqb_refl.
Qed.

Lemma value_eqb_eq a b : value_eqb a b = true <-> a = b.
Proof.
  destruct a as [x|], b as [y|]; simpl; split; intros H; try discriminate; try reflexivity.
  - apply cell_eqb_eq in H. now subst.
  - injection H as ->. now apply cell_eqb_eq.
Qed.

Lemma seen_iff v seen : existsb (value_eqb v) seen = true <-> In v seen.
Proof.
  rewrite existsb_exists. split.
  - intros (w & Hin & Heq). apply value_eqb_eq in Heq. now subst.
  - intros Hin. exists v. split; [exact Hin | now apply value_eqb_eq].
Qed.

Lemma earlier_iff name v (pre : list Row) :
  existsb (fun r' => value_eqb v (cell name r')) pre = true <-> In v (map (cell name) pre).
Proof.
  rewrite existsb_exists, in_map_iff. split.
  - intros (r & Hin & Heq). apply value_eqb_eq in Heq. eauto.
  - intros (r & Heq & Hin). exists r. split; [exact Hin | now apply value_eqb_eq].
Qed.

Lemma bool_ext (a b : bool) : (a = true <-> b = true) -> a = b.
Proof.
  destruct a, b; intros [H1 H2]; try reflexivity.
  - symmetry. now apply H1.
  - now apply H2.
Qed.

(** The loop of [drop_duplicates] against the positions of the rows:
    [seen] holds the values of the rows before the ones still to scan. *)
Lemma keep_unseen_positions name suf : forall pre seen,
  (forall v, In v seen <-> In v (map (cell name) pre)) ->
  keep_unseen name seen suf =
  map snd (filter (fun kr => negb (existsb (fun r' => value_eqb (cell name (snd kr)) (cell name r'))
                                           (firstn (fst kr) (pre ++ suf))))
                  (combine (seq (List.length pre) (List.length suf)) suf)).
Proof.
  induction suf as [|r rest IH]; intros pre seen Hseen; [reflexivity|].
  cbn [keep_unseen List.length seq combine filter fst snd].
  rewrite firstn_app, Nat.sub_diag, firstn_all. simpl firstn. rewrite app_nil_r.
  assert (Hsame : existsb (value_eqb (cell name r)) seen
                  = existsb (fun r' => value_eqb (cell name r) (cell name r')) pre).
  { apply bool_ext. rewrite seen_iff, earlier_iff. apply Hseen. }
  rewrite <- Hsame.
  assert (Hshift : pre ++ r :: rest = (pre ++ [r]) ++ rest) by now rewrite <- app_assoc.
  assert (Hlen : S (List.length pre) = List.length (pre ++ [r]))
    by (rewrite length_app; simpl; lia).
  destruct (existsb (value_eqb (cell name r)) seen) eqn:E; simpl negb; cbv iota.
  - rewrite Hshift, Hlen. apply IH.
    intros v. rewrite map_app, in_app_iff, <- Hseen. simpl.
    apply seen_iff in E. intuition congruence.
  - simpl map. f_equal. rewrite Hshift, Hlen. apply IH.
    intros v. rewrite map_app, in_app_iff, <- Hseen. simpl. intuition.
Qed.

Lemma drop_duplicates_rows name gdf :
  rows (drop_duplicates name gdf) =
  map snd (filter (fun kr => negb (existsb (fun r' => value_eqb (cell name (snd kr)) (cell name r'))
                                           (firstn (fst kr) (rows gdf))))
                  (combine (seq 0 (List.length (rows gdf))) (rows gdf))).
Proof.
  unfold drop_duplicates. simpl.
  apply (keep_unseen_positions name (rows gdf) [] []). intros v. simpl. tauto.
Qed.

(** The columns of the concatenation. *)
Lemma union_columns_In cols : forall acc c,
  In c (union_columns acc cols) <-> In c acc \/ In c cols.
Proof.
  induction cols as [|d cols IH]; intros acc c; simpl.
  - tauto.
  - destruct (existsb (String.eqb d) acc) eqn:E; rewrite IH.
    + apply existsb_exists in E. destruct E as (d' & Hin & Heq).
      apply String.eqb_eq in Heq. subst d'. intuition congruence.
    + rewrite in_app_iff. simpl. intuition.
Qed.

Lemma concat_columns_In frames : forall acc c,
  In c (fold_left (fun acc f => union_columns acc (columns f)) frames acc) <->
  In c acc \/ exists f, In f frames /\ In c (columns f).
Proof.
  induction frames as [|f frames IH]; intros acc c; simpl.
  - split; [auto | intros [H|(f & [] & _)]; exact H].
  - rewrite IH, union_columns_In. split.
    + intros [[H|H]|(g & Hg & Hc)]; eauto.
    + intros [H|(g & [<-|Hg] & Hc)]; eauto.
Qed.

Lemma has_column_In name gdf : has_column name gdf = true <-> In name (columns gdf).
Proof.
  unfold has_column. rewrite existsb_exists. split.
  - intros (c & Hin & Heq). apply String.eqb_eq in Heq. now subst.
  - intros Hin. exists name. split; [exact Hin | apply String.eqb_refl].
Qed.

Lemma concat_has_column name frames final :
  concat frames = Return final ->
  has_column name final = existsb (has_column name) frames.
Proof.
  intros Hc. apply bool_ext. rewrite has_column_In, existsb_exists.
  destruct frames as [|f frames]; [discriminate|].
  injection Hc as <-. cbn [columns]. rewrite concat_columns_In, union_columns_In.
  split.
  - intros [[[]|Hin]|(g & Hg & Hin)].
    + exists f. split; [now left | now apply has_column_In].
    + exists g. split; [now right | now apply has_column_In].
  - intros (g & [<-|Hg] & Hin); apply has_column_In in Hin.
    + left. now right.
    + right. exists g. split; [exact Hg | exact Hin].
Qed.

Lemma concat_rows frames final :
  concat frames = Return final -> rows final = flat_map rows frames.
Proof. destruct frames; [discriminate|]. intros H. now injection H as <-. Qed.

(** No identity is left twice, and none is lost. *)
Lemma keep_unseen_fresh name rs : forall seen r,
  In r (keep_unseen name seen rs) -> ~ In (cell name r) seen /\ In r rs.
Proof.
  induction rs as [|a rs IH]; intros seen r Hin; simpl in Hin; [destruct Hin|].
  destruct (existsb (value_eqb (cell name a)) seen) eqn:E.
  - destruct (IH _ _ Hin). split; [assumption | now right].
  - destruct Hin as [<-|Hin].
    + split; [|now left]. intros H. apply seen_iff in H. congruence.
    + destruct (IH _ _ Hin) as [Hn Hr]. split; [|now right].
      intros H. apply Hn. now right.
Qed.

Lemma keep_unseen_NoDup name rs : forall seen,
  NoDup (map (cell name) (keep_unseen name seen rs)).
Proof.
  induction rs as [|a rs IH]; intros seen; simpl; [constructor|].
  destruct (existsb (value_eqb (cell name a)) seen); [apply IH|].
  simpl. constructor; [|apply IH].
  intros Hin. apply in_map_iff in Hin. destruct Hin as (r & Heq & Hin).
  apply keep_unseen_fresh in Hin. destruct Hin as [Hn _].
  apply Hn. left. congruence.
Qed.

Lemma keep_unseen_covers name rs : forall seen r,
  In r rs -> In (cell name r) seen \/ In (cell name r) (map (cell name) (keep_unseen name seen rs)).
Proof.
  induction rs as [|a rs IH]; intros seen r Hin; [destruct Hin|]. simpl.
  destruct (existsb (value_eqb (cell name a)) seen) eqn:E.
  - destruct Hin as [<-|Hin]; [left; now apply seen_iff | now apply IH].
  - simpl. destruct Hin as [<-|Hin]; [right; now left|].
    destruct (IH (cell name a :: seen) r Hin) as [[H|H]|H]; auto.
Qed.

(** The example of the specification: two partial sets that share the
    record with identity 1. *)
Definition part_one : GeoDataFrame :=
  mkFrame ["osmid"; "name"]
          [ [("osmid", IntCell 1); ("name", StrCell "first")] ].

Definition part_two : GeoDataFrame :=
  mkFrame ["osmid"; "name"]
          [ [("osmid", IntCell 1); ("name", StrCell "second")];
            [("osmid", IntCell 2); ("name", StrCell "other")] ].

Example merge_example :
  merge_frames [part_one; part_two]
  = Return (mkFrame ["osmid"; "name"]
              [ [("osmid", IntCell 1); ("name", StrCell "first")];
                [("osmid", IntCell 2); ("name", StrCell "other")] ]).
Proof. reflexivity. Qed.

(** A partial set without the [osmid] column: two records, neither with
    an identity. *)
Definition without_identity : GeoDataFrame :=
  mkFrame ["name"] [ [("name", StrCell "a")]; [("name", StrCell "b")] ].

Lemma existsb_ext_in {A : Type} (f g : A -> bool) (l : list A) :
  (forall x, In x l -> f x = g x) -> existsb f l = existsb g l.
Proof.
  induction l as [|a l IH]; intros H; simpl; [reflexivity|].
  rewrite (H a) by now left. rewrite IH; [reflexivity|].
  intros x Hx. apply H. now right.
Qed.

Lemma In_firstn_all {A : Type} (k : nat) (l : list A) (x : A) :
  In x (firstn k l) -> In x l.
Proof. intros H. rewrite <- (firstn_skipn k l). apply in_or_app. now left. Qed.

(** What the merge does on every input.  With the [osmid] column in some
    partial set, a record is dropped exactly when a record before it has
    an equal value in the column, a missing value counting as a value:
    one record per value stays, the first.  Without the column all the
    records stay. *)
Lemma merge_keeps_one_record_per_value (parts : list GeoDataFrame) :
  parts <> [] ->
  exists final,
    merge_frames parts = Return final
    /\ (existsb (has_column "osmid") parts = false -> rows final = flat_map rows parts)
    /\ (existsb (has_column "osmid") parts = true ->
        rows final
        = map snd
            (filter (fun kr =>
                       negb (existsb (fun r' => value_eqb (cell "osmid" (snd kr))
                                                          (cell "osmid" r'))
                                     (firstn (fst kr) (flat_map rows parts))))
                    (combine (seq 0 (List.length (flat_map rows parts)))
                             (flat_map rows parts)))
        /\ NoDup (map (cell "osmid") (rows final))
        /\ (forall r, In r (rows final) -> In r (flat_map rows parts))
        /\ (forall r, In r (flat_map rows parts) ->
              exists r', In r' (rows final) /\ cell "osmid" r' = cell "osmid" r)).
Proof.
  intros Hne. unfold merge_frames, py_bind.
  destruct (concat parts) as [all|e] eqn:Hc.
  2:{ destruct parts; [congruence | discriminate]. }
  pose proof (concat_has_column "osmid" _ _ Hc) as Hcol.
  pose proof (concat_rows _ _ Hc) as Hrows.
  eexists. split; [reflexivity|].
  rewrite Hcol. destruct (existsb (has_column "osmid") parts).
  - split; [discriminate|]. intros _. split; [|split; [|split]].
    + rewrite drop_duplicates_rows, Hrows. reflexivity.
    + unfold drop_duplicates. cbn [rows]. apply keep_unseen_NoDup.
    + unfold drop_duplicates. cbn [rows]. rewrite Hrows.
      intros r Hin. now apply keep_unseen_fresh in Hin.
    + unfold drop_duplicates. cbn [rows]. rewrite Hrows. intros r Hin.
      destruct (keep_unseen_covers "osmid" _ [] r Hin) as [[]|H].
      apply in_map_iff in H. destruct H as (r' & Heq & Hr'). eauto.
  - split; [intros _; exact Hrows | discriminate].
Qed.

(** Where every record has an identity, or no partial set has the
    identity field, the merge is the one of the specification. *)
Lemma merge_agrees_where_identities_are_present (parts : list GeoDataFrame) :
  parts <> [] ->
  (forall r, In r (flat_map rows parts) -> cell "osmid" r <> None)
  \/ existsb (has_column "osmid") parts = false ->
  exists final,
    merge_frames parts = Return final /\ rows final = merged_records parts.
Proof.
  intros Hne Hid.
  destruct (merge_keeps_one_record_per_value parts Hne) as (final & Hm & Hno & Hyes).
  exists final. split; [exact Hm|]. unfold merged_records.
  destruct (existsb (has_column "osmid") parts) eqn:E; [|exact (Hno eq_refl)].
  destruct Hid as [Hall|Hfalse]; [|discriminate].
  destruct (Hyes eq_refl) as (Hrows & _). rewrite Hrows. f_equal.
  apply filter_ext_in. intros [k r] Hin. cbn [fst snd]. f_equal.
  apply in_combine_r in Hin. unfold earlier_has_identity.
  destruct (cell "osmid" r) as [v|] eqn:Hr; [|exfalso; now apply (Hall r)].
  apply existsb_ext_in. intros r' Hr'. apply In_firstn_all in Hr'.
  destruct (cell "osmid" r') as [v'|] eqn:Hv; [reflexivity|].
  exfalso. now apply (Hall r').
Qed.

(** C5 (records without identity are lost).  Two partial sets: the first
    has the [osmid] column and one record, the second has no [osmid]
    column and the two records [a] and [b].  The specification keeps all
    three records: [a] and [b] have no identity, so neither has the
    identity of an earlier record.  The code returns two: after the
    concatenation [a] and [b] both have a missing value in the column,
    [drop_duplicates] counts missing values as equal, and [b] is dropped
    as a duplicate of [a]. *)
Theorem merge_drops_records_without_identity :
  merge_frames [part_one; without_identity]
  = Return (mkFrame ["osmid"; "name"]
              [ [("osmid", IntCell 1); ("name", StrCell "first")];
                [("name", StrCell "a")] ])
  /\ merged_records [part_one; without_identity]
     = [ [("osmid", IntCell 1); ("name", StrCell "first")];
         [("name", StrCell "a")];
         [("name", StrCell "b")] ]
  /\ cell "osmid" [("name", StrCell "b")] = None
  /\ earlier_has_identity (flat_map rows [part_one; without_identity]) 2
       [("name", StrCell "b")] = false.
Proof. repeat split. Qed.

End MergeFacts.

(** ** The vector tile loop *)

Module VectorFacts.
Import Merge Vector.

(** The (attempt, server) pairs of the queries sent for tile [i]. *)
Definition attempts_of (i : nat) (events : list Event) : list (nat * string) :=
  flat_map (fun e => match e with
                     | Attempt j attempt server =>
                         if (j =? i)%nat then [(attempt, server)] else []
                     | _ => []
                     end) events.

Lemma attempts_of_app i e1 e2 :
  attempts_of i (e1 ++ e2) = attempts_of i e1 ++ attempts_of i e2.
Proof. unfold attempts_of. apply flat_map_app. Qed.

Section LoopFacts.

Variable Geom : Type.
Variable servers : list string.
Variable download_settings : DownloadSettings.
Variable query : nat -> nat -> Geom -> string -> QueryOutcome.
Variable stop_flag : option (nat -> nat -> bool).

Local Abbreviation attempts_loop := (attempts_loop Geom servers download_settings query stop_flag).
Local Abbreviation tiles_loop := (tiles_loop Geom servers download_settings query stop_flag).
Local Abbreviation voivodeship_loop := (voivodeship_loop Geom servers query).
Local Abbreviation stop_requested := (stop_requested stop_flag).
Local Abbreviation attempt_numbers := (attempt_numbers download_settings).

(** Every query goes to the server its tile and attempt numbers select. *)
Definition routed (e : Event) : Prop :=
  match e with
  | Attempt i attempt server => server = server_at servers (i + attempt)
  | _ => True
  end.

Lemma Forall_emit P e st :
  Forall P (trace st) -> P e -> Forall P (trace (emit e st)).
Proof. intros H He. unfold emit. simpl. apply Forall_app. split; [exact H | now constructor]. Qed.

Lemma attempts_loop_routed i tile_geom attempts : forall st,
  Forall routed (trace st) -> Forall routed (trace (attempts_loop i tile_geom attempts st)).
Proof.
  induction attempts as [|a rest IH]; intros st H; simpl; [exact H|].
  destruct (stop_requested i a); [exact H|].
  assert (H1 : Forall routed (trace (emit (Attempt i a (server_at servers (i + a))) st)))
    by (apply Forall_emit; [exact H | reflexivity]).
  destruct (query i a tile_geom (server_at servers (i + a))) as [gdf|e].
  - destruct (negb (empty gdf)); exact H1.
  - apply IH. destruct (Z.of_nat a <? max_attempts download_settings); [|exact H1].
    apply Forall_emit; [exact H1 | exact I].
Qed.

Lemma tiles_loop_routed tiles : forall i total st,
  Forall routed (trace st) -> Forall routed (trace (tiles_loop i total tiles st)).
Proof.
  induction tiles as [|g rest IH]; intros i total st H; simpl; [exact H|].
  apply IH. pose proof (attempts_loop_routed i g attempt_numbers st H) as H1.
  destruct (i <? total)%nat; [|exact H1]. apply Forall_emit; [exact H1 | exact I].
Qed.

Definition routed_once (e : Event) : Prop :=
  match e with
  | Attempt i attempt server => attempt = 0%nat /\ server = server_at servers i
  | _ => True
  end.

Lemma voivodeship_loop_routed tiles : forall i total st,
  Forall routed_once (trace st) -> Forall routed_once (trace (voivodeship_loop i total tiles st)).
Proof.
  induction tiles as [|g rest IH]; intros i total st H; simpl; [exact H|].
  apply IH.
  assert (H1 : Forall routed_once (trace (emit (Attempt i 0 (server_at servers i)) st)))
    by (apply Forall_emit; [exact H | split; reflexivity]).
  assert (H2 : Forall routed_once
            (trace match query i 0%nat g (server_at servers i) with
                   | Features gdf =>
                       if negb (empty (if has_column "admin_level" gdf
                                       then where_equal "admin_level" (StrCell "4") gdf
                                       else gdf))
                       then mkLoop (frames (emit (Attempt i 0 (server_at servers i)) st)
                                     ++ [if has_column "admin_level" gdf
                                         then where_equal "admin_level" (StrCell "4") gdf
                                         else gdf])
                                   (trace (emit (Attempt i 0 (server_at servers i)) st))
                       else emit (Attempt i 0 (server_at servers i)) st
                   | QueryError _ => emit (Attempt i 0 (server_at servers i)) st
                   end)).
  { destruct (query i 0%nat g (server_at servers i)) as [gdf|e]; [|exact H1].
    destruct (negb _); exact H1. }
  destruct (i <? total)%nat; [|exact H2]. apply Forall_emit; [exact H2 | exact I].
Qed.

(** Rotation: within any [len(servers)] consecutive numbers the selected
    positions differ. *)
Lemma positions_differ n a b :
  (a < b)%nat -> (b < a + n)%nat -> (a mod n <> b mod n)%nat.
Proof.
  intros Hab Hbn Heq.
  pose proof (Nat.div_mod_eq a n) as Ha. pose proof (Nat.div_mod_eq b n) as Hb.
  rewrite Heq in Ha.
  assert (Hd : (b - a = n * (b / n) - n * (a / n))%nat) by lia.
  assert (Hq : (a / n < b / n)%nat) by nia.
  nia.
Qed.

Lemma servers_differ a b :
  NoDup servers -> (a < b)%nat -> (b < a + List.length servers)%nat ->
  server_at servers a <> server_at servers b.
Proof.
  intros Hnd Hab Hbn Heq. unfold server_at in Heq.
  assert (Hpos : (0 < List.length servers)%nat) by lia.
  apply (positions_differ (List.length servers) a b Hab Hbn).
  pose proof (Nat.mod_upper_bound a (List.length servers)) as Ha.
  pose proof (Nat.mod_upper_bound b (List.length servers)) as Hb.
  apply (proj1 (NoDup_nth servers EmptyString) Hnd); [lia | lia | exact Heq].
Qed.

(** *** One tile: what its attempt loop adds to the state *)

Definition start : LoopState := mkLoop [] [].

Definition added (st delta : LoopState) : LoopState :=
  mkLoop (frames st ++ frames delta) (trace st ++ trace delta).

Lemma added_start st : added st start = st.
Proof. destruct st. unfold added, start. simpl. now rewrite !app_nil_r. Qed.

Lemma added_assoc st d1 d2 : added (added st d1) d2 = added st (added d1 d2).
Proof. unfold added. simpl. now rewrite !app_assoc. Qed.

Lemma emit_added e st : emit e st = added st (emit e start).
Proof. unfold emit, added, start. simpl. now rewrite app_nil_r. Qed.

Lemma attempts_loop_added i tile_geom attempts : forall st,
  attempts_loop i tile_geom attempts st
  = added st (attempts_loop i tile_geom attempts start).
Proof.
  induction attempts as [|a rest IH]; intros st; simpl.
  - now rewrite added_start.
  - destruct (stop_requested i a); [now rewrite added_start|].
    destruct (query i a tile_geom (server_at servers (i + a))) as [gdf|e].
    + destruct (negb (empty gdf)); unfold added, emit, start; simpl;
        now rewrite ?app_nil_r.
    + destruct (Z.of_nat a <? max_attempts download_settings);
        match goal with
        | |- attempts_loop _ _ _ ?s1 = added _ (attempts_loop _ _ _ ?s0) =>
            rewrite (IH s1), (IH s0), <- added_assoc; f_equal;
            unfold added, emit, start; simpl; now rewrite ?app_nil_r, <- ?app_assoc
        end.
Qed.

(** The queries of a tile's loop run through its attempt numbers in
    order and stop somewhere. *)
Lemma attempts_loop_prefix i tile_geom attempts :
  exists m,
    attempts_of i (trace (attempts_loop i tile_geom attempts start))
    = map (fun a => (a, server_at servers (i + a))) (firstn m attempts).
Proof.
  induction attempts as [|a rest IH]; simpl.
  - exists 0%nat. reflexivity.
  - destruct (stop_requested i a); [exists 0%nat; reflexivity|].
    destruct (query i a tile_geom (server_at servers (i + a))) as [gdf|e].
    + exists 1%nat. destruct (negb (empty gdf)); simpl; rewrite Nat.eqb_refl; reflexivity.
    + destruct IH as [m Hm]. exists (S m).
      rewrite attempts_loop_added. unfold added. cbn [trace].
      rewrite attempts_of_app, Hm.
      destruct (Z.of_nat a <? max_attempts download_settings); simpl;
        rewrite Nat.eqb_refl; reflexivity.
Qed.

Lemma attempts_loop_other i j tile_geom attempts :
  j <> i -> attempts_of j (trace (attempts_loop i tile_geom attempts start)) = [].
Proof.
  intros Hne. induction attempts as [|a rest IH]; simpl; [reflexivity|].
  assert (Hij : (i =? j)%nat = false) by (apply Nat.eqb_neq; congruence).
  destruct (stop_requested i a); [reflexivity|].
  destruct (query i a tile_geom (server_at servers (i + a))) as [gdf|e].
  - destruct (negb (empty gdf)); simpl; now rewrite Hij.
  - rewrite attempts_loop_added. unfold added. cbn [trace].
    rewrite attempts_of_app, IH.
    destruct (Z.of_nat a <? max_attempts download_settings); simpl; now rewrite Hij.
Qed.

(** Every attempt raises and nobody asks to stop: all the attempt
    numbers are used and no frame is kept. *)
Lemma attempts_loop_all_fail i tile_geom attempts :
  (forall a, In a attempts -> stop_requested i a = false) ->
  (forall a, In a attempts ->
     exists e, query i a tile_geom (server_at servers (i + a)) = QueryError e) ->
  attempts_of i (trace (attempts_loop i tile_geom attempts start))
    = map (fun a => (a, server_at servers (i + a))) attempts
  /\ frames (attempts_loop i tile_geom attempts start) = [].
Proof.
  induction attempts as [|a rest IH]; intros Hstop Hfail; simpl; [auto|].
  rewrite (Hstop a) by now left.
  destruct (Hfail a) as [e He]; [now left|]. rewrite He.
  destruct IH as [IHa IHf]; [intros; apply Hstop; now right | intros; apply Hfail; now right|].
  rewrite attempts_loop_added. unfold added. cbn [trace frames].
  rewrite attempts_of_app, IHa, IHf.
  destruct (Z.of_nat a <? max_attempts download_settings); simpl;
    rewrite Nat.eqb_refl; auto.
Qed.

(** Failures, then an answer at attempt [k]: the loop ends there. *)
Lemma attempts_loop_answer i tile_geom failed k rest gdf :
  (forall a, In a (failed ++ [k]) -> stop_requested i a = false) ->
  (forall a, In a failed ->
     exists e, query i a tile_geom (server_at servers (i + a)) = QueryError e) ->
  query i k tile_geom (server_at servers (i + k)) = Features gdf ->
  attempts_of i (trace (attempts_loop i tile_geom (failed ++ k :: rest) start))
    = map (fun a => (a, server_at servers (i + a))) (failed ++ [k])
  /\ frames (attempts_loop i tile_geom (failed ++ k :: rest) start)
     = if empty gdf then [] else [gdf].
Proof.
  induction failed as [|a failed IH]; intros Hstop Hfail Hk; simpl.
  - rewrite (Hstop k) by now left. rewrite Hk.
    destruct (empty gdf); simpl; rewrite Nat.eqb_refl; auto.
  - rewrite (Hstop a) by now left.
    destruct (Hfail a) as [e He]; [now left|]. rewrite He.
    destruct IH as [IHa IHf];
      [intros; apply Hstop; now right | intros; apply Hfail; now right | exact Hk |].
    rewrite attempts_loop_added. unfold added. cbn [trace frames].
    rewrite attempts_of_app, IHa, IHf.
    destruct (Z.of_nat a <? max_attempts download_settings); simpl;
      rewrite Nat.eqb_refl; auto.
Qed.

(** *** The loop over the tiles *)

Lemma tiles_loop_app pre : forall i total post st,
  tiles_loop i total (pre ++ post) st
  = tiles_loop (i + List.length pre) total post (tiles_loop i total pre st).
Proof.
  induction pre as [|g pre IH]; intros i total post st; simpl.
  - now rewrite Nat.add_0_r.
  - rewrite IH. f_equal. lia.
Qed.

(** The queries sent for tile [j] in a run are those of the attempt loop
    of the [j]-th tile, whatever happened to the other tiles. *)
Definition unit_queries (i : nat) (tiles : list Geom) (j : nat) : list (nat * string) :=
  if (i <=? j)%nat then
    match nth_error tiles (j - i) with
    | Some tile_geom => attempts_of j (trace (attempts_loop j tile_geom attempt_numbers start))
    | None => []
    end
  else [].

Lemma tiles_loop_queries tiles : forall i total st j,
  attempts_of j (trace (tiles_loop i total tiles st))
  = attempts_of j (trace st) ++ unit_queries i tiles j.
Proof.
  induction tiles as [|g rest IH]; intros i total st j; simpl.
  - unfold unit_queries. destruct (i <=? j)%nat; [|now rewrite app_nil_r].
    destruct (j - i)%nat; simpl; now rewrite app_nil_r.
  - rewrite IH.
    assert (Hst : attempts_of j (trace (if (i <? total)%nat
                     then emit Pause (attempts_loop i g attempt_numbers st)
                     else attempts_loop i g attempt_numbers st))
                  = attempts_of j (trace st)
                    ++ attempts_of j (trace (attempts_loop i g attempt_numbers start))).
    { rewrite attempts_loop_added.
      destruct (i <? total)%nat; unfold emit, added; cbn [trace];
        rewrite ?attempts_of_app; simpl; now rewrite ?app_nil_r. }
    rewrite Hst, <- app_assoc. f_equal.
    unfold unit_queries.
    destruct (Nat.lt_trichotomy j i) as [Hlt|[->|Hgt]].
    + rewrite attempts_loop_other by lia.
      replace (S i <=? j)%nat with false by (symmetry; apply Nat.leb_gt; lia).
      replace (i <=? j)%nat with false by (symmetry; apply Nat.leb_gt; lia).
      reflexivity.
    + replace (S i <=? i)%nat with false by (symmetry; apply Nat.leb_gt; lia).
      rewrite Nat.leb_refl, Nat.sub_diag. simpl. now rewrite app_nil_r.
    + rewrite attempts_loop_other by lia.
      replace (S i <=? j)%nat with true by (symmetry; apply Nat.leb_le; lia).
      replace (i <=? j)%nat with true by (symmetry; apply Nat.leb_le; lia).
      replace (j - i)%nat with (S (j - S i)) by lia. reflexivity.
Qed.

End LoopFacts.

(** *** Endpoint rotation *)

Definition overpass_servers : list string :=
  ["https://overpass-api.de/api"; "https://overpass.kumi.systems/api"].

(** A request that fails with the URL it was sent to as its message. *)
Definition echo_url : string -> list (string * string) -> Z -> Raster.HttpOutcome :=
  fun url _ _ => Raster.RequestException url.

(** C3 as stated fails on the raster path: for the same tile, the same
    server list and the same (first and only) attempt, two runs of the
    GeoTiles fetcher reach different endpoints, as the random draw falls. *)
Lemma raster_endpoint_follows_the_random_draw :
  Raster.GeoTiles.fetch_tile_content FetchFacts.format_plain echo_url 0 FetchFacts.tile0
      ["https://a.tile.example/"; "https://b.tile.example/"] [] 15
    = Return (FetchFacts.tile0, None, Some "https://a.tile.example/")
  /\ Raster.GeoTiles.fetch_tile_content FetchFacts.format_plain echo_url 1 FetchFacts.tile0
      ["https://a.tile.example/"; "https://b.tile.example/"] [] 15
    = Return (FetchFacts.tile0, None, Some "https://b.tile.example/")
  /\ Raster.GeoTiles.random_choice 0 ["https://a.tile.example/"; "https://b.tile.example/"]
     <> Raster.GeoTiles.random_choice 1 ["https://a.tile.example/"; "https://b.tile.example/"].
Proof. repeat split; try reflexivity. discriminate. Qed.

Lemma server_at_position servers k :
  servers <> [] ->
  nth_error servers (k mod List.length servers) = Some (server_at servers k).
Proof.
  intros Hne. unfold server_at. apply nth_error_nth'.
  apply Nat.mod_upper_bound. destruct servers; [congruence | simpl; lia].
Qed.

(** C3, amended.  In the vector loops the endpoint is a function of the
    tile number and the attempt number alone: every query of
    [fetch_layer] for (i, attempt) goes to the server at position
    (i + attempt) mod len(servers), every query of the voivodeship loop
    (one attempt per tile) to the server at position i mod len(servers);
    two runs over the same server list select the same endpoint for every
    (tile, attempt) pair whatever the servers answer and whenever the stop
    flag is raised; and any two attempts of a tile less than len(servers)
    apart select different positions, hence different endpoints when the
    list has no repeated entry.  (The raster fetcher of GeoTiles draws its
    endpoint at random instead.) *)
Theorem vector_endpoint_rotation
    (Geom : Type) (servers : list string) (download_settings : DownloadSettings)
    (query query' : nat -> nat -> Geom -> string -> QueryOutcome)
    (stop_flag stop_flag' : option (nat -> nat -> bool)) (tiles : list Geom) :
  (forall i attempt server,
      In (Attempt i attempt server)
         (trace (tiles_loop Geom servers download_settings query stop_flag
                   1 (List.length tiles) tiles start)) ->
      server = server_at servers (i + attempt))
  /\ (forall i attempt server,
      In (Attempt i attempt server)
         (trace (voivodeship_loop Geom servers query 1 (List.length tiles) tiles start)) ->
      attempt = 0%nat /\ server = server_at servers (i + attempt))
  /\ (forall i attempt server server',
      In (Attempt i attempt server)
         (trace (tiles_loop Geom servers download_settings query stop_flag
                   1 (List.length tiles) tiles start)) ->
      In (Attempt i attempt server')
         (trace (tiles_loop Geom servers download_settings query' stop_flag'
                   1 (List.length tiles) tiles start)) ->
      server = server')
  /\ (forall k, servers <> [] ->
      nth_error servers (k mod List.length servers) = Some (server_at servers k))
  /\ (forall i a b, (a < b)%nat -> (b < a + List.length servers)%nat ->
      ((i + a) mod List.length servers <> (i + b) mod List.length servers)%nat
      /\ (NoDup servers -> server_at servers (i + a) <> server_at servers (i + b))).
Proof.
  assert (Hr : forall q s,
             Forall (routed servers)
               (trace (tiles_loop Geom servers download_settings q s
                         1 (List.length tiles) tiles start)))
    by (intros; apply tiles_loop_routed; constructor).
  split; [|split; [|split; [|split]]].
  - intros i attempt server Hin.
    exact (proj1 (Forall_forall _ _) (Hr query stop_flag) _ Hin).
  - intros i attempt server Hin.
    assert (Hv : Forall (routed_once servers)
               (trace (voivodeship_loop Geom servers query 1 (List.length tiles) tiles start)))
      by (apply voivodeship_loop_routed; constructor).
    destruct (proj1 (Forall_forall _ _) Hv _ Hin) as [-> ->].
    now rewrite Nat.add_0_r.
  - intros i attempt server server' H1 H2.
    pose proof (proj1 (Forall_forall _ _) (Hr query stop_flag) _ H1) as E1.
    pose proof (proj1 (Forall_forall _ _) (Hr query' stop_flag') _ H2) as E2.
    simpl in E1, E2. congruence.
  - intros k. apply server_at_position.
  - intros i a b Hab Hbn. split.
    + apply positions_differ; lia.
    + intros Hnd. apply servers_differ; [exact Hnd | lia | lia].
Qed.

(** Three attempts of tile 1 over three servers. *)
Lemma vector_endpoint_rotation_witness :
  server_at ["s0"; "s1"; "s2"] (1 + 1) <> server_at ["s0"; "s1"; "s2"] (1 + 3).
Proof.
  destruct (vector_endpoint_rotation unit ["s0"; "s1"; "s2"] default_settings
              (fun _ _ _ _ => QueryError "timeout") (fun _ _ _ _ => QueryError "timeout")
              None None [tt]) as (_ & _ & _ & _ & Hrot).
  apply (Hrot 1%nat 1%nat 3%nat); simpl; try lia.
  repeat constructor; simpl; intuition discriminate.
Defined.

(** *** Retries *)

Definition always_times_out : nat -> nat -> unit -> string -> QueryOutcome :=
  fun _ _ _ _ => QueryError "HTTPSConnectionPool: Read timed out. (read timeout=180)".

(** A stop flag raised while the loop sleeps after its first attempt. *)
Definition raised_after_first : option (nat -> nat -> bool) :=
  Some (fun _ attempt => (2 <=? attempt)%nat).

(** C4 as stated fails: with [max_attempts] 3 and a tile whose every
    attempt times out, a stop flag raised after the first attempt leaves
    the tile with one attempt, not three. *)
Lemma stop_flag_ends_the_retries_early :
  max_attempts default_settings = 3
  /\ trace (tiles_loop unit overpass_servers default_settings always_times_out
              raised_after_first 1 1 [tt] start)
     = [Attempt 1 1 "https://overpass-api.de/api"; Sleep 30]
  /\ List.length (attempts_of 1
       (trace (tiles_loop unit overpass_servers default_settings always_times_out
                 raised_after_first 1 1 [tt] start))) = 1%nat.
Proof. repeat split. Qed.

(** A tile that fails on every attempt leaves nothing behind that the
    caller could count: the frames after the run are those of a run in
    which the tile answered with an empty result. *)
Example failed_tile_leaves_no_mark :
  frames (tiles_loop unit overpass_servers default_settings always_times_out None
            1 1 [tt] start)
  = frames (tiles_loop unit overpass_servers default_settings
              (fun _ _ _ _ => Features (mkFrame ["geometry"] [])) None
              1 1 [tt] start).
Proof. reflexivity. Qed.

Section Units.

Variable Geom : Type.
Variable servers : list string.
Variable download_settings : DownloadSettings.
Variable query : nat -> nat -> Geom -> string -> QueryOutcome.
Variable stop_flag : option (nat -> nat -> bool).
Variables (pre : list Geom) (tile_geom : Geom) (post : list Geom).

Local Abbreviation attempts_loop := (attempts_loop Geom servers download_settings query stop_flag).
Local Abbreviation tiles_loop := (tiles_loop Geom servers download_settings query stop_flag).

Let tiles : list Geom := pre ++ tile_geom :: post.
Let i : nat := S (List.length pre).
Let total : nat := List.length tiles.

(** The state when the loop reaches tile [i], and when it leaves it. *)
Let before : LoopState := tiles_loop 1 total pre start.
Let after : LoopState := attempts_loop i tile_geom (attempt_numbers download_settings) before.

Lemma run_through_unit :
  tiles_loop 1 total tiles start
  = tiles_loop (S i) total post (if (i <? total)%nat then emit Pause after else after).
Proof.
  unfold tiles. rewrite tiles_loop_app. simpl. reflexivity.
Qed.

Lemma queries_of_unit :
  attempts_of i (trace (tiles_loop 1 total tiles start))
  = attempts_of i (trace (attempts_loop i tile_geom (attempt_numbers download_settings) start)).
Proof.
  rewrite tiles_loop_queries. simpl. unfold unit_queries, tiles, i. simpl.
  rewrite Nat.sub_0_r, nth_error_app2, Nat.sub_diag by lia. reflexivity.
Qed.

Lemma frames_after :
  frames after
  = frames before ++ frames (attempts_loop i tile_geom (attempt_numbers download_settings) start).
Proof. unfold after. rewrite attempts_loop_added. reflexivity. Qed.

Lemma queries_bounded j :
  (List.length (attempts_of j (trace (tiles_loop 1 total tiles start)))
   <= Z.to_nat (max_attempts download_settings))%nat.
Proof.
  rewrite tiles_loop_queries. simpl. unfold unit_queries.
  destruct (1 <=? j)%nat; [|simpl; lia].
  destruct (nth_error tiles (j - 1)) as [g|]; [|simpl; lia].
  destruct (attempts_loop_prefix Geom servers download_settings query stop_flag
              j g (attempt_numbers download_settings)) as [m Hm].
  rewrite Hm, length_map, length_firstn. unfold attempt_numbers.
  rewrite length_seq. lia.
Qed.

End Units.

(** C4, amended.  No tile is queried more than [max_attempts] times.
    For a tile whose every attempt raises, and while the stop flag is not
    raised, the loop makes exactly the attempts 1 .. [max_attempts], each
    at the server the rotation selects, keeps no frame for the tile, and
    goes on with the next tile.  (The loop keeps no tally of failed
    tiles; a raised stop flag ends the attempts of a tile at once.) *)
Theorem retries_stop_at_max_attempts
    (Geom : Type) (servers : list string) (download_settings : DownloadSettings)
    (query : nat -> nat -> Geom -> string -> QueryOutcome)
    (stop_flag : option (nat -> nat -> bool))
    (pre : list Geom) (tile_geom : Geom) (post : list Geom) :
  let tiles := pre ++ tile_geom :: post in
  let i := S (List.length pre) in
  let total := List.length tiles in
  let run := tiles_loop Geom servers download_settings query stop_flag 1 total tiles start in
  let before := tiles_loop Geom servers download_settings query stop_flag 1 total pre start in
  let after := attempts_loop Geom servers download_settings query stop_flag
                 i tile_geom (attempt_numbers download_settings) before in
  (forall j, (List.length (attempts_of j (trace run))
              <= Z.to_nat (max_attempts download_settings))%nat)
  /\ ((forall attempt, stop_requested stop_flag i attempt = false) ->
      (forall attempt, exists e,
          query i attempt tile_geom (server_at servers (i + attempt)) = QueryError e) ->
      attempts_of i (trace run)
        = map (fun a => (a, server_at servers (i + a)))
              (seq 1 (Z.to_nat (max_attempts download_settings)))
      /\ frames after = frames before
      /\ run = tiles_loop Geom servers download_settings query stop_flag (S i) total post
                 (if (i <? total)%nat then emit Pause after else after)).
Proof.
  intros tiles i total run before after. split.
  - intros j. apply queries_bounded.
  - intros Hstop Hfail.
    destruct (attempts_loop_all_fail Geom servers download_settings query stop_flag
                i tile_geom (attempt_numbers download_settings)) as [Hq Hf];
      [intros; apply Hstop | intros; apply Hfail |].
    split; [|split].
    + unfold run, total, tiles, i. rewrite queries_of_unit. exact Hq.
    + unfold after, before, total, tiles, i. rewrite frames_after.
      fold i. rewrite Hf. apply app_nil_r.
    + apply run_through_unit.
Qed.

(** Two tiles, two servers, every query timing out. *)
Lemma retries_stop_at_max_attempts_witness :
  attempts_of 1 (trace (tiles_loop unit overpass_servers default_settings always_times_out None
                          1 2 [tt; tt] start))
  = [ (1%nat, "https://overpass-api.de/api");
      (2%nat, "https://overpass.kumi.systems/api");
      (3%nat, "https://overpass-api.de/api") ].
Proof.
  destruct (retries_stop_at_max_attempts unit overpass_servers default_settings
              always_times_out None [] tt [tt]) as [_ H].
  destruct H as (Hq & _ & _).
  - reflexivity.
  - intros attempt. eexists. reflexivity.
  - exact Hq.
Defined.

(** C8 (an empty answer is final).  When an attempt of a tile completes
    without an exception and its result set is empty, that attempt is the
    last one of the tile: the queries sent for the tile are the attempts
    up to it and no more, no frame is kept for the tile, and the loop goes
    on with the next tile. *)
Theorem empty_answer_ends_the_attempts
    (Geom : Type) (servers : list string) (download_settings : DownloadSettings)
    (query : nat -> nat -> Geom -> string -> QueryOutcome)
    (stop_flag : option (nat -> nat -> bool))
    (pre : list Geom) (tile_geom : Geom) (post : list Geom)
    (k : nat) (gdf : GeoDataFrame) :
  let tiles := pre ++ tile_geom :: post in
  let i := S (List.length pre) in
  let total := List.length tiles in
  let run := tiles_loop Geom servers download_settings query stop_flag 1 total tiles start in
  let before := tiles_loop Geom servers download_settings query stop_flag 1 total pre start in
  let after := attempts_loop Geom servers download_settings query stop_flag
                 i tile_geom (attempt_numbers download_settings) before in
  (1 <= k)%nat -> (k <= Z.to_nat (max_attempts download_settings))%nat ->
  (forall attempt, (attempt <= k)%nat -> stop_requested stop_flag i attempt = false) ->
  (forall attempt, (attempt < k)%nat -> exists e,
      query i attempt tile_geom (server_at servers (i + attempt)) = QueryError e) ->
  query i k tile_geom (server_at servers (i + k)) = Features gdf ->
  empty gdf = true ->
  attempts_of i (trace run)
    = map (fun a => (a, server_at servers (i + a))) (seq 1 k)
  /\ frames after = frames before
  /\ run = tiles_loop Geom servers download_settings query stop_flag (S i) total post
             (if (i <? total)%nat then emit Pause after else after).
Proof.
  intros tiles i total run before after Hk1 Hk2 Hstop Hfail Hans Hempty.
  assert (Hsplit : attempt_numbers download_settings
                   = seq 1 (k - 1) ++ k :: seq (S k) (Z.to_nat (max_attempts download_settings) - k)).
  { unfold attempt_numbers.
    replace (Z.to_nat (max_attempts download_settings))
      with ((k - 1) + S (Z.to_nat (max_attempts download_settings) - k))%nat at 1 by lia.
    rewrite seq_app. cbn [seq]. replace (1 + (k - 1))%nat with k by lia. reflexivity. }
  destruct (attempts_loop_answer Geom servers download_settings query stop_flag
              i tile_geom (seq 1 (k - 1)) k
              (seq (S k) (Z.to_nat (max_attempts download_settings) - k)) gdf)
    as [Hq Hf].
  - intros a Hin. apply Hstop. apply in_app_iff in Hin. destruct Hin as [Hin|[<-|[]]]; [|lia].
    apply in_seq in Hin. lia.
  - intros a Hin. apply Hfail. apply in_seq in Hin. lia.
  - exact Hans.
  - rewrite <- Hsplit in Hq, Hf. rewrite Hempty in Hf.
    assert (Hseq : seq 1 (k - 1) ++ [k] = seq 1 k).
    { replace k with ((k - 1) + 1)%nat at 3 by lia. rewrite seq_app. cbn [seq].
      replace (1 + (k - 1))%nat with k by lia. reflexivity. }
    rewrite Hseq in Hq.
    split; [|split].
    + unfold run, total, tiles, i. rewrite queries_of_unit. exact Hq.
    + unfold after, before, total, tiles, i. rewrite frames_after.
      fold i. rewrite Hf. apply app_nil_r.
    + apply run_through_unit.
Qed.

(** A first attempt that times out, then an empty answer at the second
    of three. *)
Definition empty_at_second : nat -> nat -> unit -> string -> QueryOutcome :=
  fun _ attempt _ _ =>
    if (attempt =? 2)%nat then Features (mkFrame ["geometry"] [])
    else QueryError "504 Gateway Timeout".

Lemma empty_answer_ends_the_attempts_witness :
  attempts_of 1 (trace (tiles_loop unit overpass_servers default_settings empty_at_second None
                          1 2 [tt; tt] start))
  = [ (1%nat, "https://overpass-api.de/api");
      (2%nat, "https://overpass.kumi.systems/api") ].
Proof.
  destruct (empty_answer_ends_the_attempts unit overpass_servers default_settings
              empty_at_second None [] tt [tt] 2 (mkFrame ["geometry"] []))
    as (Hq & _ & _).
  - lia.
  - simpl. lia.
  - reflexivity.
  - intros attempt Hlt. exists "504 Gateway Timeout".
    unfold empty_at_second.
    destruct attempt as [|[|n]]; [reflexivity | reflexivity | lia].
  - reflexivity.
  - reflexivity.
  - exact Hq.
Defined.

End VectorFacts.

(** ** Partition of the query region *)

Module PartitionFacts.
Import Partition.

(** *** Floats *)

Lemma positive_not_zero (x : float) : SFltb fzero x = true -> SFeqb x fzero = false.
Proof.
  unfold SFltb, SFeqb, fzero.
  destruct x as [s|s| |s m e]; try destruct s; simpl; intros H; congruence.
Qed.

Lemma round_not_negative m e l :
  SFltb (binary_round_aux prec emax false m e l) fzero = false.
Proof.
  unfold binary_round_aux.
  destruct (shr_fexp prec emax m e l) as [mrs' e'].
  destruct (shr_fexp prec emax _ e' loc_Exact) as [mrs'' e''].
  destruct (shr_m mrs''); [reflexivity | | reflexivity].
  destruct (e'' <=? emax - prec); reflexivity.
Qed.

(** Above a positive limit, the quotient ks not negative: the square
    root ks defined. *)
Lemma quotient_not_negative (area max_area : float) :
  SFltb fzero max_area = true ->
  SFleb area max_area = false ->
  SFltb (fdiv area max_area) fzero = false.
Proof.
  intros Hpos Hle. unfold fdiv, SFdiv.
  destruct max_area as [s|s| |s m e]; try destruct s; try discriminate Hpos;
    destruct area as [s'|s'| |s' m' e']; try destruct s'; try discriminate Hle;
    try reflexivity.
  destruct (SFdiv_core_binary prec emax (Z.pos m') e' (Z.pos m) e) as [[mz ez] lz].
  apply round_not_negative.
Qed.

Lemma grid_size_above (libm_cos : float -> float) (area max_area : float) :
  SFltb fzero max_area = true ->
  SFleb area max_area = false ->
  grid_size area max_area
  = (c <- math_ceil (fsqrt (fdiv area max_area)) ;; Return (Z.max 2 c)).
Proof.
  intros Hpos Hle. unfold grid_size, py_div, math_sqrt.
  rewrite (positive_not_zero _ Hpos). simpl py_bind at 1.
  now rewrite (quotient_not_negative _ _ Hpos Hle).
Qed.

(** The conversion of an integer other than 0 is not zero: shifting a
    mantissa right to 53 digits leaves its leading digit in place. *)
Lemma shr_1_m mrs : 0 <= shr_m mrs -> shr_m (shr_1 mrs) = shr_m mrs / 2.
Proof.
  destruct mrs as [m r s]. simpl. intros Hm.
  destruct m as [|p|p]; [reflexivity| |lia].
  destruct p as [p|p|]; simpl shr_m.
  - change (Z.pos p~1) with (2 * Z.pos p + 1). apply Z.div_unique with (r := 1); lia.
  - change (Z.pos p~0) with (2 * Z.pos p). apply Z.div_unique with (r := 0); lia.
  - reflexivity.
Qed.

Lemma iter_shr_1_m p : forall mrs,
  0 <= shr_m mrs -> shr_m (iter_pos shr_1 p mrs) = shr_m mrs / 2 ^ Z.pos p.
Proof.
  induction p as [p IH|p IH|]; intros mrs Hm; simpl iter_pos.
  - assert (H1 : 0 <= shr_m (shr_1 mrs)) by (rewrite shr_1_m by lia; apply Z.div_pos; lia).
    assert (H2 : 0 <= shr_m (iter_pos shr_1 p (shr_1 mrs)))
      by (rewrite IH by lia; apply Z.div_pos; [lia | apply Z.pow_pos_nonneg; lia]).
    rewrite IH, IH, shr_1_m by lia.
    assert (Hp : 0 < 2 ^ Z.pos p) by (apply Z.pow_pos_nonneg; lia).
    rewrite !Z.div_div by lia.
    assert (Hpow : 2 ^ Z.pos p~1 = 2 * 2 ^ Z.pos p * 2 ^ Z.pos p).
    { rewrite <- Z.pow_succ_r, <- Z.pow_add_r by lia. f_equal. lia. }
    f_equal. rewrite Hpow. ring.
  - assert (H2 : 0 <= shr_m (iter_pos shr_1 p mrs))
      by (rewrite IH by lia; apply Z.div_pos; [lia | apply Z.pow_pos_nonneg; lia]).
    rewrite IH, IH by lia.
    assert (Hp : 0 < 2 ^ Z.pos p) by (apply Z.pow_pos_nonneg; lia).
    rewrite Z.div_div by lia.
    assert (Hpow : 2 ^ Z.pos p~0 = 2 ^ Z.pos p * 2 ^ Z.pos p).
    { rewrite <- Z.pow_add_r by lia. f_equal. lia. }
    f_equal. rewrite Hpow. ring.
  - now apply shr_1_m.
Qed.

Lemma digits2_pos_le p : 2 ^ (Z.pos (digits2_pos p) - 1) <= Z.pos p.
Proof.
  induction p as [p IH|p IH|]; simpl digits2_pos.
  - rewrite Pos2Z.inj_succ. change (Z.pos p~1) with (2 * Z.pos p + 1).
    replace (Z.succ (Z.pos (digits2_pos p)) - 1) with (Z.succ (Z.pos (digits2_pos p) - 1)) by lia.
    rewrite Z.pow_succ_r by lia.
    revert IH. generalize (2 ^ (Z.pos (digits2_pos p) - 1)). intros X IH. lia.
  - rewrite Pos2Z.inj_succ. change (Z.pos p~0) with (2 * Z.pos p).
    replace (Z.succ (Z.pos (digits2_pos p)) - 1) with (Z.succ (Z.pos (digits2_pos p) - 1)) by lia.
    rewrite Z.pow_succ_r by lia.
    revert IH. generalize (2 ^ (Z.pos (digits2_pos p) - 1)). intros X IH. lia.
  - simpl. lia.
Qed.

Lemma shr_fexp_positive m e l :
  emin prec emax <= e ->
  0 < shr_m (fst (shr_fexp prec emax (Z.pos m) e l)).
Proof.
  intros He. unfold shr_fexp, shr.
  assert (Hrec : shr_m (shr_record_of_loc (Z.pos m) l) = Z.pos m)
    by (destruct l as [|[| |]]; reflexivity).
  destruct (fexp prec emax (Zdigits2 (Z.pos m) + e) - e) as [|k|k] eqn:Hk; simpl fst;
    try (rewrite Hrec; lia).
  rewrite iter_shr_1_m by (rewrite Hrec; lia). rewrite Hrec.
  apply Z.div_str_pos. split; [apply Z.pow_pos_nonneg; lia|].
  apply Z.le_trans with (2 ^ (Z.pos (digits2_pos m) - 1)); [|apply digits2_pos_le].
  apply Z.pow_le_mono_r; [lia|].
  unfold fexp in Hk. simpl Zdigits2 in Hk. unfold prec in *. lia.
Qed.

Lemma shr_fexp_exponent m e l :
  e <= snd (shr_fexp prec emax m e l).
Proof.
  unfold shr_fexp, shr.
  destruct (fexp prec emax (Zdigits2 m + e) - e); simpl; lia.
Qed.

Lemma round_nearest_even_ge m l : m <= round_nearest_even m l.
Proof.
  unfold round_nearest_even. destruct l as [|[| |]]; try lia.
  destruct (Z.even m); lia.
Qed.

Lemma binary_round_aux_not_zero s m e l :
  emin prec emax <= e ->
  SFeqb (binary_round_aux prec emax s (Z.pos m) e l) fzero = false.
Proof.
  intros He. unfold binary_round_aux.
  pose proof (shr_fexp_positive m e l He) as H1.
  pose proof (shr_fexp_exponent (Z.pos m) e l) as E1.
  destruct (shr_fexp prec emax (Z.pos m) e l) as [mrs' e']. simpl in H1, E1.
  pose proof (round_nearest_even_ge (shr_m mrs') (loc_of_shr_record mrs')) as Hr.
  destruct (round_nearest_even (shr_m mrs') (loc_of_shr_record mrs')) as [|q|q]; try lia.
  pose proof (shr_fexp_positive q e' loc_Exact ltac:(lia)) as H2.
  destruct (shr_fexp prec emax (Z.pos q) e' loc_Exact) as [mrs'' e'']. simpl in H2.
  destruct (shr_m mrs''); try lia.
  destruct (e'' <=? emax - prec); destruct s; reflexivity.
Qed.

Lemma float_of_Z_not_zero n : n <> 0 -> SFeqb (float_of_Z n) fzero = false.
Proof.
  intros Hn. unfold float_of_Z, binary_normalize.
  destruct n as [|p|p]; [congruence| |];
    unfold binary_round;
    destruct (shl_align p 0 (fexp prec emax (Z.pos (digits2_pos p) + 0))) as [mz ez] eqn:Hs;
    apply binary_round_aux_not_zero;
    unfold shl_align in Hs;
    destruct (fexp prec emax (Z.pos (digits2_pos p) + 0) - 0) eqn:Hd;
    injection Hs as _ <-; unfold fexp, emin, prec, emax in *; lia.
Qed.

Lemma py_div_int_grid a c :
  py_div_int a (Z.max 2 c) = Return (fdiv a (float_of_Z (Z.max 2 c))).
Proof.
  unfold py_div_int, py_div. rewrite float_of_Z_not_zero by lia. reflexivity.
Qed.

(** *** The loops *)

Lemma append_loop {A B : Type} (f : A -> B) (keep : B -> bool) (js : list A) : forall acc,
  fold_left (fun tiles j => if keep (f j) then tiles ++ [f j] else tiles) js acc
  = acc ++ filter keep (map f js).
Proof.
  induction js as [|j js IH]; intros acc; simpl.
  - now rewrite app_nil_r.
  - rewrite IH. destruct (keep (f j)); [|reflexivity].
    now rewrite <- app_assoc.
Qed.

Lemma nested_loop {A B : Type} (f : A -> A -> B) (keep : B -> bool) (js : list A) (ks : list A) :
  forall acc,
  fold_left (fun tiles i =>
               fold_left (fun tiles j => if keep (f i j) then tiles ++ [f i j] else tiles)
                         js tiles) ks acc
  = acc ++ filter keep (flat_map (fun i => map (f i) js) ks).
Proof.
  induction ks as [|i ks IH]; intros acc; simpl.
  - now rewrite app_nil_r.
  - rewrite IH, append_loop, filter_app, <- app_assoc. reflexivity.
Qed.

Lemma filter_all {A : Type} (l : list A) : filter (fun _ => true) l = l.
Proof. induction l as [|a l IH]; simpl; congruence. Qed.

Lemma map_flat_map_cells {A B C : Type} (g : B -> C) (f : A -> A -> B) (js ks : list A) :
  map g (flat_map (fun i => map (f i) js) ks)
  = flat_map (fun i => map (fun j => g (f i j)) js) ks.
Proof.
  induction ks as [|i ks IH]; simpl; [reflexivity|].
  now rewrite map_app, map_map, IH.
Qed.

Lemma range_length n : List.length (range n) = Z.to_nat n.
Proof. unfold range. now rewrite length_map, length_seq. Qed.

Lemma grid_length {A B : Type} (f : A -> A -> B) (js ks : list A) :
  List.length (flat_map (fun i => map (f i) js) ks) = (List.length ks * List.length js)%nat.
Proof.
  induction ks as [|i ks IH]; simpl; [reflexivity|].
  now rewrite length_app, length_map, IH.
Qed.

Section Grid.

Variable libm_cos : float -> float.
Variable Geom : Type.
Variable bounds : Geom -> float * float * float * float.
Variable box : float -> float -> float -> float -> Geom.
Variable intersection : Geom -> Geom -> Geom.
Variable is_empty : Geom -> bool.

Lemma polygon_loops_clipped polygon_geom w s e n n_tiles :
  bounds polygon_geom = (w, s, e, n) ->
  polygon_loops Geom box intersection is_empty polygon_geom w s
    (fdiv (fsub e w) (float_of_Z n_tiles)) (fdiv (fsub n s) (float_of_Z n_tiles)) n_tiles
  = clipped_grid Geom bounds box intersection is_empty polygon_geom n_tiles.
Proof.
  intros Hb. unfold polygon_loops, clipped_grid, grid_cells. rewrite Hb.
  set (lon_step := fdiv (fsub e w) (float_of_Z n_tiles)).
  set (lat_step := fdiv (fsub n s) (float_of_Z n_tiles)).
  rewrite map_flat_map_cells.
  exact (nested_loop
           (fun i j => intersection polygon_geom
                         (box_of Geom box (cell_bounds w s lon_step lat_step i j)))
           (fun g => negb (is_empty g)) (range n_tiles) (range n_tiles) []).
Qed.

Lemma bbox_loops_grid w s e n n_tiles :
  bbox_loops w s (fdiv (fsub e w) (float_of_Z n_tiles)) (fdiv (fsub n s) (float_of_Z n_tiles))
    n_tiles
  = grid_cells (w, s, e, n) n_tiles.
Proof.
  unfold bbox_loops, grid_cells.
  set (lon_step := fdiv (fsub e w) (float_of_Z n_tiles)).
  set (lat_step := fdiv (fsub n s) (float_of_Z n_tiles)).
  rewrite <- (filter_all (flat_map _ _)).
  exact (nested_loop (fun i j => cell_bounds w s lon_step lat_step i j)
           (fun _ => true) (range n_tiles) (range n_tiles) []).
Qed.

Lemma grid_cells_length b n :
  List.length (grid_cells b n) = (Z.to_nat n * Z.to_nat n)%nat.
Proof.
  destruct b as [[[w s] e] n']. unfold grid_cells.
  now rewrite grid_length, range_length.
Qed.

End Grid.

(** *** A geometry to run the partition on: rectangles *)

Definition Rect : Type := option (float * float * float * float).

Definition rect_bounds (g : Rect) : float * float * float * float :=
  match g with
  | Some b => b
  | None => (S754_nan, S754_nan, S754_nan, S754_nan)
  end.

Definition rect_box (minx miny maxx maxy : float) : Rect := Some (minx, miny, maxx, maxy).

Definition fmax (a b : float) : float := if SFltb a b then b else a.
Definition fmin (a b : float) : float := if SFltb a b then a else b.

(** The common part of two rectangles, empty unless it has an inside. *)
Definition rect_intersection (a b : Rect) : Rect :=
  match a, b with
  | Some (w1, s1, e1, n1), Some (w2, s2, e2, n2) =>
      let w := fmax w1 w2 in
      let s := fmax s1 s2 in
      let e := fmin e1 e2 in
      let n := fmin n1 n2 in
      if SFltb w e && SFltb s n then Some (w, s, e, n) else None
  | _, _ => None
  end.

Definition rect_is_empty (g : Rect) : bool :=
  match g with
  | None => true
  | Some _ => false
  end.

(** A cosine for small angles, exact at 0. *)
Definition cos_near_zero (x : float) : float :=
  fsub (float_of_Z 1) (fdiv (fmul x x) (float_of_Z 2)).

(** Two degrees by two degrees across the equator: about 49570 km2. *)
Definition equator_square : Rect :=
  rect_box (float_of_Z 0) (float_of_Z (-1)) (float_of_Z 2) (float_of_Z 1).

(** C1 (partition by area).  For every region and every limit
    [max_area > 0]: when the equirectangular area of the region's bounds is
    at most [max_area], the partition is the region itself, alone;
    otherwise, with n = max(2, ceil(sqrt(area / max_area))), it is the
    n-by-n grid over the bounding rectangle, where for a polygon every
    cell is intersected with the polygon and the empty intersections are
    left out (and for a bbox the cells are the tiles).  Between the two
    cases no division by zero and no domain error of the square root
    occurs; the one way out is a float that is not a number: an area or a
    quotient that is NaN or infinite makes [math.cos] or [math.ceil]
    raise. *)
Theorem partition_by_area
    (libm_cos : float -> float) (Geom : Type)
    (bounds : Geom -> float * float * float * float)
    (box : float -> float -> float -> float -> Geom)
    (intersection : Geom -> Geom -> Geom) (is_empty : Geom -> bool)
    (polygon_geom : Geom) (poland_bbox : float * float * float * float)
    (max_area : float) :
  SFltb fzero max_area = true ->
  match approx_area libm_cos (bounds polygon_geom) with
  | Raise exc =>
      fetch_layer_partition libm_cos Geom bounds box intersection is_empty
        polygon_geom max_area = Raise exc
  | Return area =>
      if SFleb area max_area
      then fetch_layer_partition libm_cos Geom bounds box intersection is_empty
             polygon_geom max_area = Return [polygon_geom]
      else match math_ceil (fsqrt (fdiv area max_area)) with
           | Return c =>
               fetch_layer_partition libm_cos Geom bounds box intersection is_empty
                 polygon_geom max_area
               = Return (clipped_grid Geom bounds box intersection is_empty
                           polygon_geom (Z.max 2 c))
           | Raise exc =>
               fetch_layer_partition libm_cos Geom bounds box intersection is_empty
                 polygon_geom max_area = Raise exc
           end
  end
  /\ match approx_area libm_cos poland_bbox with
     | Raise exc => voivodeship_partition libm_cos poland_bbox max_area = Raise exc
     | Return area =>
         if SFleb area max_area
         then voivodeship_partition libm_cos poland_bbox max_area = Return [poland_bbox]
         else match math_ceil (fsqrt (fdiv area max_area)) with
              | Return c =>
                  voivodeship_partition libm_cos poland_bbox max_area
                  = Return (grid_cells poland_bbox (Z.max 2 c))
              | Raise exc => voivodeship_partition libm_cos poland_bbox max_area = Raise exc
              end
     end
  /\ (forall b c,
        List.length (grid_cells b (Z.max 2 c))
        = (Z.to_nat (Z.max 2 c) * Z.to_nat (Z.max 2 c))%nat
        /\ 2 <= Z.max 2 c).
Proof.
  intros Hpos. split; [|split].
  - unfold fetch_layer_partition.
    destruct (bounds polygon_geom) as [[[w s] e] n] eqn:Hb.
    destruct (approx_area libm_cos (w, s, e, n)) as [area|exc]; [|reflexivity].
    simpl py_bind. destruct (SFleb area max_area) eqn:Hle; [reflexivity|].
    rewrite (grid_size_above libm_cos _ _ Hpos Hle).
    destruct (math_ceil (fsqrt (fdiv area max_area))) as [c|exc]; [|reflexivity].
    simpl py_bind. rewrite !py_div_int_grid. simpl py_bind.
    f_equal. now apply polygon_loops_clipped.
  - unfold voivodeship_partition.
    destruct poland_bbox as [[[w s] e] n].
    destruct (approx_area libm_cos (w, s, e, n)) as [area|exc]; [|reflexivity].
    simpl py_bind. destruct (SFleb area max_area) eqn:Hle; [reflexivity|].
    rewrite (grid_size_above libm_cos _ _ Hpos Hle).
    destruct (math_ceil (fsqrt (fdiv area max_area))) as [c|exc]; [|reflexivity].
    simpl py_bind. rewrite !py_div_int_grid. simpl py_bind.
    f_equal. apply bbox_loops_grid.
  - intros b c. split; [apply grid_cells_length | lia].
Qed.

(** The square against a limit of 20000 km2 (a grid of 2 by 2) and
    against a limit of 100000 km2 (the square itself). *)
Lemma partition_by_area_witness :
  fetch_layer_partition cos_near_zero Rect rect_bounds rect_box rect_intersection rect_is_empty
    equator_square (float_of_Z 20000000000)
  = Return [ rect_box (float_of_Z 0) (float_of_Z (-1)) (float_of_Z 1) (float_of_Z 0);
             rect_box (float_of_Z 0) (float_of_Z 0) (float_of_Z 1) (float_of_Z 1);
             rect_box (float_of_Z 1) (float_of_Z (-1)) (float_of_Z 2) (float_of_Z 0);
             rect_box (float_of_Z 1) (float_of_Z 0) (float_of_Z 2) (float_of_Z 1) ]
  /\ fetch_layer_partition cos_near_zero Rect rect_bounds rect_box rect_intersection
       rect_is_empty equator_square (float_of_Z 100000000000)
     = Return [equator_square].
Proof.
  split.
  - destruct (partition_by_area cos_near_zero Rect rect_bounds rect_box rect_intersection
                rect_is_empty equator_square (rect_bounds equator_square)
                (float_of_Z 20000000000) eq_refl) as [H _].
    vm_compute in H. vm_compute. exact H.
  - destruct (partition_by_area cos_near_zero Rect rect_bounds rect_box rect_intersection
                rect_is_empty equator_square (rect_bounds equator_square)
                (float_of_Z 100000000000) eq_refl) as [H _].
    vm_compute in H. vm_compute. exact H.
Defined.

End PartitionFacts.

(** ** More on the tile store *)

Module StorageMore.
Import Storage Raster StorageFacts.

(** X1 (row flip).  For a zoom that is not negative and a row of its
    pyramid, [flip_y] gives a row of the same pyramid, flipping twice
    gives the row back, and the top row is sent to the bottom one. *)
Theorem flip_y_round_trip (z y : Z) :
  0 <= z -> 0 <= y < 2 ^ z ->
  0 <= flip_y z y < 2 ^ z
  /\ flip_y z (flip_y z y) = y
  /\ flip_y z 0 = 2 ^ z - 1.
Proof. intros Hz Hy. unfold flip_y. lia. Qed.

Lemma flip_y_round_trip_witness :
  0 <= flip_y 3 2 < 2 ^ 3 /\ flip_y 3 (flip_y 3 2) = 2 /\ flip_y 3 0 = 2 ^ 3 - 1.
Proof. apply (flip_y_round_trip 3 2); [lia | simpl; lia]. Defined.

(** The calls a user of an open store can make. *)
Inductive Call : Type :=
| CallSaveTile (z x y_tms : Z) (data : bytes)
| CallSaveMetadata (name description bounds_str fmt : string)
| CallCommit.

Definition call_on (st : Store) (c : Call) : Store :=
  match c with
  | CallSaveTile z x y_tms data => save_tile st z x y_tms data
  | CallSaveMetadata name description bounds_str fmt =>
      save_metadata st name description bounds_str fmt
  | CallCommit => commit st
  end.

Lemma call_keeps_unique st c :
  unique_index_ok (tiles st) = true -> unique_index_ok (tiles (call_on st c)) = true.
Proof.
  intros H. destruct c; simpl; [now apply save_tile_keeps_unique | exact H | exact H].
Qed.

Lemma calls_keep_unique calls : forall st,
  unique_index_ok (tiles st) = true ->
  unique_index_ok (tiles (fold_left call_on calls st)) = true.
Proof.
  induction calls as [|c calls IH]; intros st H; simpl; [exact H|].
  apply IH. now apply call_keeps_unique.
Qed.

Lemma enter_unique file st :
  __enter__ file = Return st -> unique_index_ok (tiles st) = true.
Proof.
  unfold __enter__, _init_schema. destruct file as [db|].
  - destruct (unique_index_ok (tiles db)) eqn:E; [|discriminate].
    intros H. injection H as <-. exact E.
  - intros H. injection H as <-. reflexivity.
Qed.

(** X2 (the store can always be opened again).  From a store that
    opened, whatever tiles are saved, metadata saved and commits made, no
    index is held by two rows, and opening the file left by [__exit__]
    succeeds and finds it as it was left. *)
Theorem store_reopens (file : option Store) (st : Store) (calls : list Call) :
  __enter__ file = Return st ->
  unique_index_ok (tiles (fold_left call_on calls st)) = true
  /\ NoDup (map index_of (tiles (fold_left call_on calls st)))
  /\ __enter__ (Some (__exit__ (fold_left call_on calls st)))
     = Return (__exit__ (fold_left call_on calls st)).
Proof.
  intros Hopen.
  assert (Hu : unique_index_ok (tiles (fold_left call_on calls st)) = true)
    by (apply calls_keep_unique; eapply enter_unique; eauto).
  split; [exact Hu|]. split.
  - revert Hu. generalize (tiles (fold_left call_on calls st)). intros rows.
    induction rows as [|r rows IH]; simpl; intros Hu; [constructor|].
    apply andb_true_iff in Hu. destruct Hu as [Hr Hu]. constructor; [|now apply IH].
    intros Hin. apply negb_true_iff in Hr.
    assert (Hp : existsb (same_index (zoom_level r) (tile_column r) (tile_row r)) rows = true).
    { apply existsb_exists. apply in_map_iff in Hin. destruct Hin as (r' & Hr' & Hin).
      exists r'. split; [exact Hin | now apply same_index_spec]. }
    congruence.
  - unfold __enter__, _init_schema, __exit__, commit. simpl. now rewrite Hu.
Qed.

Lemma store_reopens_witness :
  __enter__ (Some (__exit__ (fold_left call_on
      [CallSaveTile 3 2 5 "a"; CallSaveTile 3 2 5 "b"; CallCommit; CallSaveTile 3 1 5 "c"]
      (mkStore [] [] 0))))
  = Return (__exit__ (fold_left call_on
      [CallSaveTile 3 2 5 "a"; CallSaveTile 3 2 5 "b"; CallCommit; CallSaveTile 3 1 5 "c"]
      (mkStore [] [] 0))).
Proof.
  exact (proj2 (proj2 (store_reopens None (mkStore [] [] 0)
    [CallSaveTile 3 2 5 "a"; CallSaveTile 3 2 5 "b"; CallCommit; CallSaveTile 3 1 5 "c"]
    eq_refl))).
Defined.

Lemma same_index_other z x y z' x' y' d :
  (z', x', y') <> (z, x, y) -> same_index z' x' y' (mkTileRow z x y d) = false.
Proof.
  intros Hne. apply not_true_is_false. intros H.
  apply same_index_spec in H. unfold index_of in H. simpl in H. congruence.
Qed.

Lemma find_app_last {A : Type} (f : A -> bool) l a :
  f a = false -> find f (l ++ [a]) = find f l.
Proof.
  intros Ha. induction l as [|b l IH]; simpl; [now rewrite Ha|].
  destruct (f b); [reflexivity | exact IH].
Qed.

(** X3 (a first write, and only that).  Saving a tile under an index the
    table does not hold makes that payload the one read under the index
    and adds one row; what is read under every other index, and the
    metadata, stay as they were. *)
Theorem save_tile_writes_one_index (st : Store) (z x y : Z) (data : bytes) :
  select_tile st z x y = None ->
  select_tile (save_tile st z x y data) z x y = Some data
  /\ tile_count (save_tile st z x y data) = S (tile_count st)
  /\ (forall z' x' y', (z', x', y') <> (z, x, y) ->
        select_tile (save_tile st z x y data) z' x' y' = select_tile st z' x' y')
  /\ metadata (save_tile st z x y data) = metadata st.
Proof.
  intros Hnone.
  assert (Habs : existsb (same_index z x y) (tiles st) = false).
  { apply not_true_is_false. intros H. apply select_tile_present in H.
    destruct H as [p Hp]. congruence. }
  destruct (save_tile_absent st z x y data Habs) as [Hsel Hcount].
  split; [exact Hsel|]. split; [exact Hcount|]. split.
  - intros z' x' y' Hne. unfold save_tile, select_tile. rewrite Habs. simpl.
    rewrite find_app_last; [reflexivity | now apply same_index_other].
  - unfold save_tile. rewrite Habs. reflexivity.
Qed.

Lemma save_tile_writes_one_index_witness :
  select_tile (save_tile one_tile_store 3 1 5 "next") 3 1 5 = Some "next"
  /\ select_tile (save_tile one_tile_store 3 1 5 "next") 3 2 5 = Some "first".
Proof.
  destruct (save_tile_writes_one_index one_tile_store 3 1 5 "next" eq_refl)
    as (Hsel & _ & Hother & _).
  split; [exact Hsel|]. rewrite Hother; [reflexivity | discriminate].
Defined.

Lemma metadata_values_app st name description bounds_str fmt k :
  metadata_values (save_metadata st name description bounds_str fmt) k
  = metadata_values st k
    ++ map snd (filter (fun kv => String.eqb (fst kv) k)
                  [ ("name", name); ("type", "overlay"); ("version", "1.2");
                    ("description", description); ("format", fmt);
                    ("bounds", bounds_str) ]).
Proof.
  unfold metadata_values. now rewrite save_metadata_rows, filter_app, map_app.
Qed.

(** X4 (metadata: the first value is the one read).  On a store without
    metadata, [save_metadata] makes its six values the ones the viewer's
    query reads.  On a store that already holds a value under a name, the
    query goes on reading that value after [save_metadata]: the new rows
    come after the old ones.  The tiles are not touched. *)
Theorem save_metadata_read_back (st : Store) (name description bounds_str fmt : string) :
  (metadata st = [] ->
   select_metadata (save_metadata st name description bounds_str fmt) "name" = Some name
   /\ select_metadata (save_metadata st name description bounds_str fmt) "type" = Some "overlay"
   /\ select_metadata (save_metadata st name description bounds_str fmt) "version" = Some "1.2"
   /\ select_metadata (save_metadata st name description bounds_str fmt) "description"
      = Some description
   /\ select_metadata (save_metadata st name description bounds_str fmt) "format" = Some fmt
   /\ select_metadata (save_metadata st name description bounds_str fmt) "bounds"
      = Some bounds_str)
  /\ (forall k v, select_metadata st k = Some v ->
        select_metadata (save_metadata st name description bounds_str fmt) k = Some v)
  /\ tiles (save_metadata st name description bounds_str fmt) = tiles st.
Proof.
  split; [|split].
  - intros Hempty. unfold select_metadata.
    rewrite !metadata_values_app. unfold metadata_values. rewrite Hempty.
    repeat split; reflexivity.
  - intros k v. unfold select_metadata. rewrite metadata_values_app.
    destruct (metadata_values st k); [discriminate | intros H; exact H].
  - reflexivity.
Qed.

Lemma save_metadata_read_back_witness :
  select_metadata (save_metadata (mkStore [] [] 0) "ORTO" "Layer: ORTO" "14.1,49.0,24.2,54.9" "jpg")
    "bounds" = Some "14.1,49.0,24.2,54.9".
Proof.
  destruct (save_metadata_read_back (mkStore [] [] 0) "ORTO" "Layer: ORTO"
              "14.1,49.0,24.2,54.9" "jpg") as (Hfresh & _ & _).
  destruct (Hfresh eq_refl) as (_ & _ & _ & _ & _ & Hb). exact Hb.
Defined.

End StorageMore.

(** ** More on the dispatcher, and the viewer behind it *)

Module DispatchMore.
Import Storage Raster StorageFacts DispatchFacts Viewer.

(** *** What a run adds to the table *)

Lemma write_payload_adds st r :
  tiles (write_payload st r) = tiles st
  \/ tiles (write_payload st r)
     = tiles st ++ [mkTileRow (tile_z (result_tile r)) (tile_x (result_tile r))
                      (flip_y (tile_z (result_tile r)) (tile_y (result_tile r)))
                      (value_of (snd (fst r)))].
Proof.
  unfold write_payload, save_tile. cbv zeta.
  destruct (existsb _ (tiles st)); [now left | now right].
Qed.

Lemma fold_write_adds l : forall st,
  exists added,
    tiles (fold_left write_payload l st) = tiles st ++ added
    /\ (List.length added <= List.length l)%nat
    /\ Forall (fun row => exists r, In r l /\ tile_data row = value_of (snd (fst r))
                                 /\ index_of row = result_index r) added.
Proof.
  induction l as [|r l IH]; intros st; simpl.
  - exists []. rewrite app_nil_r. split; [reflexivity|]. split; [simpl; lia | constructor].
  - destruct (IH (write_payload st r)) as (added & Heq & Hlen & Hall).
    assert (Hweak : Forall (fun row => exists r0, (r = r0 \/ In r0 l)
                       /\ tile_data row = value_of (snd (fst r0))
                       /\ index_of row = result_index r0) added).
    { eapply Forall_impl; [|exact Hall]. intros row (r0 & Hin & Hd). eauto. }
    destruct (write_payload_adds st r) as [E|E]; rewrite E in Heq.
    + exists added. repeat split; [exact Heq | lia | exact Hweak].
    + eexists (_ :: added). rewrite <- app_assoc in Heq. simpl in Heq.
      split; [exact Heq|]. split; [simpl; lia|].
      constructor; [|exact Hweak]. exists r. repeat split. now left.
Qed.

Lemma handle_result_metadata total run r :
  metadata (storage_instance (handle_result total run r)) = metadata (storage_instance run).
Proof.
  destruct r as [[t content] err]. unfold handle_result, save_tile.
  destruct (truthy content); simpl;
    repeat match goal with |- context [if ?c then _ else _] => destruct c end; reflexivity.
Qed.

Lemma fold_metadata total rs : forall run,
  metadata (storage_instance (fold_left (handle_result total) rs run))
  = metadata (storage_instance run).
Proof.
  induction rs as [|r rs IH]; intros run; simpl; [reflexivity|].
  now rewrite IH, handle_result_metadata.
Qed.

Lemma run_downloader_returns tiles_list rs st0 :
  exists run,
    run_downloader tiles_list (map Return rs) st0 = Return run
    /\ tiles (storage_instance run)
       = tiles (fold_left write_payload (filter has_payload rs) st0)
    /\ metadata (storage_instance run) = metadata st0
    /\ commits (storage_instance run)
       = S (commits (storage_instance
              (fold_left (handle_result (Z.of_nat (List.length tiles_list))) rs
                         (mkRun st0 0 0 [])))).
Proof.
  unfold run_downloader. rewrite drain_returns. unfold py_bind.
  eexists. split; [reflexivity|].
  destruct (0 <? _); simpl; rewrite fold_tiles, fold_metadata; auto.
Qed.

Lemma has_payload_value r : has_payload r = true -> value_of (snd (fst r)) <> EmptyString.
Proof.
  destruct r as [[t content] err]. unfold has_payload. simpl.
  destruct content as [[|c s]|]; simpl; congruence.
Qed.

(** X5 (a run only appends).  Whatever the calls return, the run leaves
    the rows the table held where they were and as they were, adds at most
    one row per result with a payload, never a row with an empty payload,
    and never touches the metadata. *)
Theorem run_only_appends (tiles_list : list Tile) (rs : list FetchResult) (st0 : Store) :
  exists run added,
    run_downloader tiles_list (map Return rs) st0 = Return run
    /\ tiles (storage_instance run) = tiles st0 ++ added
    /\ (List.length added <= List.length (filter has_payload rs))%nat
    /\ Forall (fun row => tile_data row <> EmptyString) added
    /\ metadata (storage_instance run) = metadata st0.
Proof.
  destruct (run_downloader_returns tiles_list rs st0) as (run & Hret & Ht & Hm & _).
  destruct (fold_write_adds (filter has_payload rs) st0) as (added & Heq & Hlen & Hall).
  exists run, added. split; [exact Hret|]. split; [congruence|]. split; [exact Hlen|].
  split; [|exact Hm].
  eapply Forall_impl; [|exact Hall].
  intros row (r & Hin & Hd & _). rewrite Hd.
  apply has_payload_value. apply filter_In in Hin. tauto.
Qed.

(** *** Commits *)

Lemma save_tile_commits st z x y d : commits (save_tile st z x y d) = commits st.
Proof. unfold save_tile. destruct (existsb _ (tiles st)); reflexivity. Qed.

Lemma handle_result_commits total run r :
  commits (storage_instance (handle_result total run r))
  = (commits (storage_instance run)
     + if ((processed run + 1) mod 200 =? 0)%Z then 1 else 0)%nat.
Proof.
  destruct r as [[t content] err]. unfold handle_result.
  destruct (truthy content); simpl;
    destruct ((processed run + 1) mod 200 =? 0); simpl;
    rewrite ?save_tile_commits; lia.
Qed.

Lemma next_two_hundred p :
  0 <= p ->
  (p + 1) / 200 = p / 200 + (if (p + 1) mod 200 =? 0 then 1 else 0).
Proof.
  intros Hp.
  pose proof (Z.div_mod p 200 ltac:(lia)) as Hd.
  pose proof (Z.mod_pos_bound p 200 ltac:(lia)) as Hb.
  destruct (Z.eq_dec (p mod 200) 199) as [E|E].
  - assert (Hq : (p + 1) / 200 = p / 200 + 1)
      by (symmetry; apply Z.div_unique with (r := 0); lia).
    assert (Hr : (p + 1) mod 200 = 0)
      by (symmetry; apply Z.mod_unique with (q := p / 200 + 1); lia).
    rewrite Hq, Hr. reflexivity.
  - assert (Hq : (p + 1) / 200 = p / 200)
      by (symmetry; apply Z.div_unique with (r := p mod 200 + 1); lia).
    assert (Hr : (p + 1) mod 200 = p mod 200 + 1)
      by (symmetry; apply Z.mod_unique with (q := p / 200); lia).
    rewrite Hq, Hr. replace (p mod 200 + 1 =? 0) with false; [lia|].
    symmetry. apply Z.eqb_neq. lia.
Qed.

Lemma fold_commits total rs : forall run,
  0 <= processed run ->
  Z.of_nat (commits (storage_instance (fold_left (handle_result total) rs run)))
  = Z.of_nat (commits (storage_instance run))
    + (processed run + Z.of_nat (List.length rs)) / 200 - processed run / 200.
Proof.
  induction rs as [|r rs IH]; intros run Hp; simpl fold_left; simpl List.length.
  - rewrite Z.add_0_r. lia.
  - rewrite IH by (rewrite handle_result_processed; lia).
    rewrite handle_result_commits, handle_result_processed.
    rewrite (next_two_hundred (processed run) Hp).
    replace (processed run + 1 + Z.of_nat (List.length rs))
      with (processed run + Z.of_nat (S (List.length rs))) by lia.
    destruct ((processed run + 1) mod 200 =? 0); lia.
Qed.

(** X6 (commits).  A run over n results commits once after every 200th
    result and once at its end: floor(n / 200) + 1 commits in all. *)
Theorem run_commits (tiles_list : list Tile) (rs : list FetchResult) (st0 : Store) :
  exists run,
    run_downloader tiles_list (map Return rs) st0 = Return run
    /\ Z.of_nat (commits (storage_instance run))
       = Z.of_nat (commits st0) + Z.of_nat (List.length rs) / 200 + 1.
Proof.
  destruct (run_downloader_returns tiles_list rs st0) as (run & Hret & _ & _ & Hc).
  exists run. split; [exact Hret|]. rewrite Hc, Nat2Z.inj_succ, fold_commits by (simpl; lia).
  cbn [processed storage_instance]. rewrite Z.add_0_l. change (0 / 200) with 0. lia.
Qed.

(** *** A call that raises *)

Lemma drain_first_raise total completed : forall run e,
  (forall c, In c completed -> c = Raise e) -> completed <> [] ->
  drain total completed run = Raise e.
Proof.
  intros run e Hall Hne. destruct completed as [|c rest]; [congruence|].
  rewrite (Hall c) by now left. reflexivity.
Qed.

(** X7 (no servers, no run).  With an empty list of tile servers and
    a work list that is not empty, every call of the GeoTiles fetcher
    raises, and the run ends with that [IndexError] in whatever order the
    calls complete: here a failure does end the run. *)
Theorem run_without_servers_raises
    (str_format : string -> Tile -> PyResult string)
    (requests_get : string -> list (string * string) -> Z -> HttpOutcome)
    (draw : Tile -> nat) (headers : list (string * string)) (timeout : Z)
    (tiles_list : list Tile) (completed : list (PyResult FetchResult)) (st0 : Store) :
  tiles_list <> [] ->
  as_completed
    (submit_all (fun t => GeoTiles.fetch_tile_content str_format requests_get (draw t) t []
                            headers timeout) tiles_list)
    completed ->
  run_downloader tiles_list completed st0
  = Raise (IndexError "Cannot choose from an empty sequence").
Proof.
  intros Hne Horder. unfold run_downloader.
  rewrite (drain_first_raise _ completed _ (IndexError "Cannot choose from an empty sequence")).
  - reflexivity.
  - intros c Hin. apply (Permutation_in _ (Permutation_sym Horder)) in Hin.
    unfold submit_all in Hin. apply in_map_iff in Hin. destruct Hin as (t & <- & _).
    apply FetchFacts.geotiles_no_servers.
  - intros ->. apply Permutation_sym, Permutation_nil in Horder.
    unfold submit_all in Horder. destruct tiles_list; [congruence | discriminate].
Qed.

Lemma run_without_servers_raises_witness :
  run_downloader [mkTile 0 0 1; mkTile 1 0 1]
    [Raise (IndexError "Cannot choose from an empty sequence");
     Raise (IndexError "Cannot choose from an empty sequence")]
    (mkStore [] [] 0)
  = Raise (IndexError "Cannot choose from an empty sequence").
Proof.
  apply (run_without_servers_raises FetchFacts.format_plain (FetchFacts.serves 200 png_magic)
           (fun _ => 0%nat) [] 15 [mkTile 0 0 1; mkTile 1 0 1]).
  - discriminate.
  - unfold as_completed, submit_all. simpl.
    rewrite !FetchFacts.geotiles_no_servers. apply Permutation_refl.
Defined.

End DispatchMore.

(** ** The viewer *)

Module ViewerFacts.
Import Storage Raster StorageFacts DispatchFacts DispatchMore Viewer.

Lemma prefix_of_slice (m : string) : forall (n : nat) (b : string),
  (String.length m <= n)%nat -> prefix m (substring 0 n b) = prefix m b.
Proof.
  induction m as [|c m IH]; intros n b Hlen.
  - destruct n, b; reflexivity.
  - destruct n as [|n]; [simpl in Hlen; lia|].
    destruct b as [|c' b]; [reflexivity|]. simpl.
    destruct (ascii_dec c c'); [|reflexivity].
    apply IH. simpl in Hlen. lia.
Qed.

Definition media_type_of (payload : bytes) : string :=
  if prefix png_magic payload then "image/png" else "image/jpeg".

Lemma get_tile_select db z x y :
  get_tile db z x y
  = match select_tile db z x ((2 ^ z - 1) - y) with
    | Some payload => TileImage payload (media_type_of payload)
    | None => NotFound
    end.
Proof.
  unfold get_tile, select_tile, media_type_of, slice_to. cbv zeta.
  destruct (find _ (tiles db)) as [row|]; simpl; [|reflexivity].
  now rewrite (prefix_of_slice png_magic 4 (tile_data row)) by (simpl; lia).
Qed.

(** X8 (what is stored is what is served).  After a run into an empty
    tile table over a work list without repeated tiles (zooms not
    negative), the viewer answers the address (z, x, y) of every tile
    whose fetch returned a payload with that payload, as [image/png] when
    it starts with the PNG signature and as [image/jpeg] otherwise, and
    answers 404 for every address that is not such a tile: the row flip
    of the writer and the one of the reader cancel. *)
Theorem viewer_serves_what_was_stored
    (fetch : Tile -> option bytes * option string) (tiles_list : list Tile)
    (st0 : Store) (completed : list (PyResult FetchResult)) :
  as_completed (submit_all (call fetch) tiles_list) completed ->
  tiles st0 = [] -> NoDup tiles_list ->
  (forall t, In t tiles_list -> 0 <= tile_z t) ->
  exists run,
    run_downloader tiles_list completed st0 = Return run
    /\ (forall t, In t tiles_list -> returned fetch t = true ->
          get_tile (storage_instance run) (tile_z t) (tile_x t) (tile_y t)
          = TileImage (value_of (fst (fetch t))) (media_type_of (value_of (fst (fetch t)))))
    /\ (forall z x y,
          ~ (In (mkTile x y z) tiles_list /\ returned fetch (mkTile x y z) = true) ->
          get_tile (storage_instance run) z x y = NotFound).
Proof.
  intros Horder Hempty Hnd Hz.
  destruct (run_downloader_drains fetch tiles_list st0 completed Horder)
    as (run & Hret & _ & _ & Hiff & Hcount).
  destruct (Hcount Hempty Hnd) as [_ Hsel].
  exists run. split; [exact Hret|]. split.
  - intros t Hin Hr. rewrite get_tile_select.
    change (2 ^ tile_z t - 1 - tile_y t) with (flip_y (tile_z t) (tile_y t)).
    rewrite (Hsel t Hin Hr).
    unfold returned, truthy in Hr. destruct (fst (fetch t)) as [[|c s]|]; try discriminate.
    reflexivity.
  - intros z x y Hnot. rewrite get_tile_select.
    destruct (select_tile (storage_instance run) z x (2 ^ z - 1 - y)) as [p|] eqn:E;
      [|reflexivity].
    exfalso. assert (Hex : exists p, select_tile (storage_instance run) z x (2 ^ z - 1 - y) = Some p)
      by eauto.
    apply Hiff in Hex. destruct Hex as [[p0 Hp0]|(t & Hin & Hr & Hidx)].
    + unfold select_tile in Hp0. rewrite Hempty in Hp0. discriminate.
    + apply Hnot. destruct t as [tx ty tz]. unfold store_index, flip_y in Hidx. simpl in Hidx.
      injection Hidx as -> -> Hy. assert (ty = y) by lia. subst. auto.
Qed.

Lemma viewer_serves_what_was_stored_witness :
  exists run,
    run_downloader [mkTile 2 5 3; mkTile 1 5 3]
      (map (call (fun t => if tile_x t =? 2 then (Some (png_magic ++ "...")%string, None)
                           else (None, Some "Read timed out")))
           [mkTile 1 5 3; mkTile 2 5 3])
      (mkStore [] [] 0) = Return run
    /\ get_tile (storage_instance run) 3 2 5 = TileImage (png_magic ++ "...")%string "image/png"
    /\ get_tile (storage_instance run) 3 1 5 = NotFound.
Proof.
  destruct (viewer_serves_what_was_stored
              (fun t => if tile_x t =? 2 then (Some (png_magic ++ "...")%string, None)
                        else (None, Some "Read timed out"))
              [mkTile 2 5 3; mkTile 1 5 3] (mkStore [] [] 0)
              (map (call (fun t => if tile_x t =? 2 then (Some (png_magic ++ "...")%string, None)
                                   else (None, Some "Read timed out")))
                   [mkTile 1 5 3; mkTile 2 5 3]))
    as (run & Hret & Hserved & Hmissing).
  - unfold as_completed, submit_all. apply Permutation_map. apply perm_swap.
  - reflexivity.
  - repeat constructor; simpl; intuition discriminate.
  - intros t [<-|[<-|[]]]; simpl; lia.
  - exists run. split; [exact Hret|]. split.
    + exact (Hserved (mkTile 2 5 3) (or_introl eq_refl) eq_refl).
    + apply Hmissing. intros [_ H]. discriminate H.
Defined.

(** *** The GeoTiles fetcher in front of the dispatcher *)

Lemma drain_return_inv total completed : forall run0 run,
  drain total completed run0 = Return run ->
  exists rs, completed = map Return rs /\ run = fold_left (handle_result total) rs run0.
Proof.
  induction completed as [|c rest IH]; intros run0 run H; simpl in H.
  - injection H as <-. exists []. split; reflexivity.
  - destruct c as [r|e]; [|discriminate].
    destruct (IH _ _ H) as (rs & -> & ->). exists (r :: rs). split; reflexivity.
Qed.

(** X9 (only PNG behind the GeoTiles fetcher).  When a run of the
    GeoTiles fetcher into an empty tile table ends normally, every stored
    payload starts with the PNG signature, and every image the viewer
    serves from that file is served as [image/png]. *)
Theorem geotiles_stores_only_png
    (str_format : string -> Tile -> PyResult string)
    (requests_get : string -> list (string * string) -> Z -> HttpOutcome)
    (draw : Tile -> nat) (servers : list string)
    (headers : list (string * string)) (timeout : Z)
    (tiles_list : list Tile) (completed : list (PyResult FetchResult))
    (st0 : Store) (run : Run) :
  as_completed
    (submit_all (fun t => GeoTiles.fetch_tile_content str_format requests_get (draw t) t
                            servers headers timeout) tiles_list)
    completed ->
  tiles st0 = [] ->
  run_downloader tiles_list completed st0 = Return run ->
  Forall (fun row => prefix png_magic (tile_data row) = true) (tiles (storage_instance run))
  /\ (forall z x y content media_type,
        get_tile (storage_instance run) z x y = TileImage content media_type ->
        media_type = "image/png").
Proof.
  intros Horder Hempty Hrun.
  assert (Hrows : Forall (fun row => prefix png_magic (tile_data row) = true)
                    (tiles (storage_instance run))).
  { unfold run_downloader, py_bind in Hrun.
    destruct (drain _ completed _) as [loop|e] eqn:Hd; [|discriminate].
    apply drain_return_inv in Hd. destruct Hd as (rs & Hc & Hloop).
    assert (Ht : tiles (storage_instance run)
                 = tiles (fold_left write_payload (filter has_payload rs) st0)).
    { injection Hrun as <-. destruct (0 <? _); simpl; rewrite Hloop, fold_tiles; reflexivity. }
    destruct (fold_write_adds (filter has_payload rs) st0) as (added & Heq & _ & Hall).
    rewrite Ht, Heq, Hempty. simpl.
    eapply Forall_impl; [|exact Hall].
    intros row (r & Hin & Hdata & _). rewrite Hdata.
    apply filter_In in Hin. destruct Hin as [Hin Hpay].
    assert (Hsub : In (Return r) (submit_all
              (fun t => GeoTiles.fetch_tile_content str_format requests_get (draw t) t
                          servers headers timeout) tiles_list)).
    { apply (Permutation_in _ (Permutation_sym Horder)). rewrite Hc. now apply in_map. }
    unfold submit_all in Hsub. apply in_map_iff in Hsub. destruct Hsub as (t & Hf & _).
    destruct r as [[t' content] err]. unfold has_payload in Hpay. simpl in Hpay |- *.
    destruct content as [body|]; [|discriminate].
    apply FetchFacts.geotiles_payload_inv in Hf. tauto. }
  split; [exact Hrows|].
  intros z x y content media_type Hget. unfold get_tile in Hget. cbv zeta in Hget.
  destruct (find _ (tiles (storage_instance run))) as [row|] eqn:Hf; [|discriminate].
  apply find_some in Hf. destruct Hf as [Hin _].
  rewrite Forall_forall in Hrows. specialize (Hrows row Hin).
  unfold slice_to in Hget.
  rewrite (prefix_of_slice png_magic 4 (tile_data row)) in Hget by (simpl; lia).
  rewrite Hrows in Hget. now injection Hget as _ <-.
Qed.

Lemma geotiles_stores_only_png_witness :
  exists run,
    run_downloader [mkTile 2 5 3]
      [GeoTiles.fetch_tile_content FetchFacts.format_plain
         (FetchFacts.serves 200 (png_magic ++ "...")%string) 0 (mkTile 2 5 3)
         ["https://a.tile.example/"] [] 15]
      (mkStore [] [] 0) = Return run
    /\ tiles (storage_instance run) <> []
    /\ Forall (fun row => prefix png_magic (tile_data row) = true) (tiles (storage_instance run)).
Proof.
  eexists. split; [reflexivity|]. split; [discriminate|].
  apply (geotiles_stores_only_png FetchFacts.format_plain
           (FetchFacts.serves 200 (png_magic ++ "...")%string) (fun _ => 0%nat)
           ["https://a.tile.example/"] [] 15 [mkTile 2 5 3]
           [GeoTiles.fetch_tile_content FetchFacts.format_plain
              (FetchFacts.serves 200 (png_magic ++ "...")%string) 0 (mkTile 2 5 3)
              ["https://a.tile.example/"] [] 15]
           (mkStore [] [] 0)).
  - apply Permutation_refl.
  - reflexivity.
  - reflexivity.
Defined.

(** *** The zoom range of the index page *)

Lemma fold_min_spec zs : forall z,
  (forall v, In v (z :: zs) -> fold_left Z.min zs z <= v) /\ In (fold_left Z.min zs z) (z :: zs).
Proof.
  induction zs as [|a zs IH]; intros z; simpl.
  - split; [intros v [<-|[]]; lia | now left].
  - destruct (IH (Z.min z a)) as [Hle Hin]. split.
    + intros v [<-|[<-|Hv]].
      * specialize (Hle (Z.min z a) (or_introl eq_refl)). lia.
      * specialize (Hle (Z.min z a) (or_introl eq_refl)). lia.
      * apply Hle. now right.
    + destruct Hin as [Hm|Hin]; [|now right; right].
      rewrite <- Hm. destruct (Z.min_spec z a) as [[_ ->]|[_ ->]]; auto.
Qed.

Lemma fold_max_spec zs : forall z,
  (forall v, In v (z :: zs) -> v <= fold_left Z.max zs z) /\ In (fold_left Z.max zs z) (z :: zs).
Proof.
  induction zs as [|a zs IH]; intros z; simpl.
  - split; [intros v [<-|[]]; lia | now left].
  - destruct (IH (Z.max z a)) as [Hle Hin]. split.
    + intros v [<-|[<-|Hv]].
      * specialize (Hle (Z.max z a) (or_introl eq_refl)). lia.
      * specialize (Hle (Z.max z a) (or_introl eq_refl)). lia.
      * apply Hle. now right.
    + destruct Hin as [Hm|Hin]; [|now right; right].
      rewrite <- Hm. destruct (Z.max_spec z a) as [[_ ->]|[_ ->]]; auto.
Qed.

(** X10 (the zoom range shown).  The range the index page gives the map
    is (1, 18) for an empty tile table; otherwise it is the least and the
    greatest stored zoom, and outside it the tile route answers 404 for
    every address. *)
Theorem zoom_range_covers_the_tiles (db : Store) :
  (tiles db = [] -> zoom_range db = (1, 18))
  /\ (tiles db <> [] ->
      (forall row, In row (tiles db) ->
         fst (zoom_range db) <= zoom_level row <= snd (zoom_range db))
      /\ (exists row, In row (tiles db) /\ zoom_level row = fst (zoom_range db))
      /\ (exists row, In row (tiles db) /\ zoom_level row = snd (zoom_range db))
      /\ (forall z x y, ~ (fst (zoom_range db) <= z <= snd (zoom_range db)) ->
            get_tile db z x y = NotFound)).
Proof.
  split.
  - intros H. unfold zoom_range. now rewrite H.
  - intros Hne. unfold zoom_range.
    destruct (tiles db) as [|r rows] eqn:E; [congruence|]. simpl map. cbv iota. simpl fst. simpl snd.
    destruct (fold_min_spec (map zoom_level rows) (zoom_level r)) as [Hmin Hmin_in].
    destruct (fold_max_spec (map zoom_level rows) (zoom_level r)) as [Hmax Hmax_in].
    assert (Hrange : forall row, In row (r :: rows) ->
              fold_left Z.min (map zoom_level rows) (zoom_level r) <= zoom_level row
              <= fold_left Z.max (map zoom_level rows) (zoom_level r)).
    { intros row Hin.
      assert (Hz : In (zoom_level row) (zoom_level r :: map zoom_level rows))
        by (change (In (zoom_level row) (map zoom_level (r :: rows))); now apply in_map).
      split; [now apply Hmin | now apply Hmax]. }
    split; [exact Hrange|]. split; [|split].
    + change (In (fold_left Z.min (map zoom_level rows) (zoom_level r))
                 (map zoom_level (r :: rows))) in Hmin_in.
      apply in_map_iff in Hmin_in. destruct Hmin_in as (row & Hz & Hin). eauto.
    + change (In (fold_left Z.max (map zoom_level rows) (zoom_level r))
                 (map zoom_level (r :: rows))) in Hmax_in.
      apply in_map_iff in Hmax_in. destruct Hmax_in as (row & Hz & Hin). eauto.
    + intros z x y Hout. unfold get_tile. cbv zeta. rewrite E.
      destruct (find _ (r :: rows)) as [row|] eqn:Hf; [|reflexivity].
      apply find_some in Hf. destruct Hf as [Hin Hidx].
      apply same_index_spec in Hidx. unfold index_of in Hidx. injection Hidx as Hz _ _.
      specialize (Hrange row Hin). lia.
Qed.

Lemma zoom_range_covers_the_tiles_witness :
  zoom_range (mkStore [] [mkTileRow 10 1 1 "a"; mkTileRow 12 1 1 "b"; mkTileRow 11 1 1 "c"] 0)
  = (10, 12)
  /\ get_tile (mkStore [] [mkTileRow 10 1 1 "a"; mkTileRow 12 1 1 "b"; mkTileRow 11 1 1 "c"] 0)
       13 1 1 = NotFound.
Proof.
  split; [reflexivity|].
  destruct (zoom_range_covers_the_tiles
              (mkStore [] [mkTileRow 10 1 1 "a"; mkTileRow 12 1 1 "b"; mkTileRow 11 1 1 "c"] 0))
    as [_ H].
  destruct H as (_ & _ & _ & Hout); [discriminate|].
  apply Hout. simpl. lia.
Defined.

End ViewerFacts.

(** ** The tile loops of the vector downloads, as whole runs *)

Module VectorMore.
Import Merge Vector MergeFacts VectorFacts.

Definition is_pause (e : Event) : bool :=
  match e with Pause => true | _ => false end.

Definition is_sleep (e : Event) : bool :=
  match e with Sleep _ => true | _ => false end.

Definition is_attempt (e : Event) : bool :=
  match e with Attempt _ _ _ => true | _ => false end.

(** How many events of a kind a run left. *)
Definition count (kind : Event -> bool) (events : list Event) : nat :=
  List.length (filter kind events).

Lemma count_app kind a b : count kind (a ++ b) = (count kind a + count kind b)%nat.
Proof. unfold count. now rewrite filter_app, length_app. Qed.

Lemma count_emit kind e st :
  count kind (trace (emit e st))
  = (count kind (trace st) + if kind e then 1 else 0)%nat.
Proof.
  unfold emit. cbn [trace]. rewrite count_app. unfold count at 2. simpl.
  now destruct (kind e).
Qed.

Lemma allowed_before_last (m : Z) (n : nat) : forall s,
  (List.length (filter (fun a => (Z.of_nat a <? m)%Z) (seq s n)) <= Z.to_nat m - s)%nat.
Proof.
  induction n as [|n IH]; intros s; simpl; [lia|].
  specialize (IH (S s)).
  destruct (Z.of_nat s <? m) eqn:E; simpl; [apply Z.ltb_lt in E; lia | lia].
Qed.

Ltac tally :=
  cbn [trace frames emit]; rewrite ?count_app, ?length_app; unfold count; simpl.

Section LoopMore.

Variable Geom : Type.
Variable servers : list string.
Variable download_settings : DownloadSettings.
Variable query : nat -> nat -> Geom -> string -> QueryOutcome.
Variable stop_flag : option (nat -> nat -> bool).

Local Abbreviation attempts_loop := (attempts_loop Geom servers download_settings query stop_flag).
Local Abbreviation tiles_loop := (tiles_loop Geom servers download_settings query stop_flag).
Local Abbreviation voivodeship_loop := (voivodeship_loop Geom servers query).
Local Abbreviation stop_requested := (stop_requested stop_flag).
Local Abbreviation attempt_numbers := (attempt_numbers download_settings).

(** *** Pauses *)

Lemma attempts_loop_pauses i tile_geom attempts : forall st,
  count is_pause (trace (attempts_loop i tile_geom attempts st)) = count is_pause (trace st).
Proof.
  induction attempts as [|a rest IH]; intros st; simpl; [reflexivity|].
  destruct (stop_requested i a); [reflexivity|].
  destruct (query i a tile_geom (server_at servers (i + a))) as [gdf|e].
  - destruct (negb (empty gdf)); tally; lia.
  - rewrite IH. destruct (Z.of_nat a <? max_attempts download_settings); tally; lia.
Qed.

Lemma tiles_loop_pauses tiles : forall i total st,
  (i + List.length tiles = S total)%nat ->
  count is_pause (trace (tiles_loop i total tiles st))
  = (count is_pause (trace st) + (List.length tiles - 1))%nat.
Proof.
  induction tiles as [|g rest IH]; intros i total st Hlen; simpl in *; [lia|].
  rewrite IH by lia.
  destruct (i <? total)%nat eqn:E;
    [apply Nat.ltb_lt in E | apply Nat.ltb_ge in E];
    cbn [trace frames emit]; rewrite ?count_app, attempts_loop_pauses; unfold count; simpl; lia.
Qed.

Lemma voivodeship_loop_pauses tiles : forall i total st,
  (i + List.length tiles = S total)%nat ->
  count is_pause (trace (voivodeship_loop i total tiles st))
  = (count is_pause (trace st) + (List.length tiles - 1))%nat.
Proof.
  induction tiles as [|g rest IH]; intros i total st Hlen; simpl in *; [lia|].
  rewrite IH by lia.
  destruct (query i 0%nat g (server_at servers i)) as [gdf|e]; [destruct (negb _)|];
    destruct (i <? total)%nat eqn:E;
    first [apply Nat.ltb_lt in E | apply Nat.ltb_ge in E]; tally; lia.
Qed.

(** *** Queries and waits *)

Definition configured_wait (e : Event) : Prop :=
  match e with
  | Sleep wait_time =>
      wait_time = sleep_on_timeout download_settings
      \/ wait_time = sleep_on_rate_limit download_settings
      \/ wait_time = sleep_on_error download_settings
  | _ => True
  end.

Lemma wait_time_configured e : configured_wait (Sleep (wait_time_for download_settings e)).
Proof.
  unfold configured_wait, wait_time_for.
  destruct (_ || _); [auto|]. destruct (_ || _); auto.
Qed.

Lemma attempts_loop_waits i tile_geom attempts : forall st,
  Forall configured_wait (trace st) ->
  Forall configured_wait (trace (attempts_loop i tile_geom attempts st)).
Proof.
  induction attempts as [|a rest IH]; intros st H; simpl; [exact H|].
  destruct (stop_requested i a); [exact H|].
  assert (H1 : Forall configured_wait
                 (trace (emit (Attempt i a (server_at servers (i + a))) st)))
    by (apply Forall_emit; [exact H | exact I]).
  destruct (query i a tile_geom (server_at servers (i + a))) as [gdf|e].
  - destruct (negb (empty gdf)); exact H1.
  - apply IH. destruct (Z.of_nat a <? max_attempts download_settings); [|exact H1].
    apply Forall_emit; [exact H1 | apply wait_time_configured].
Qed.

Lemma tiles_loop_waits tiles : forall i total st,
  Forall configured_wait (trace st) ->
  Forall configured_wait (trace (tiles_loop i total tiles st)).
Proof.
  induction tiles as [|g rest IH]; intros i total st H; simpl; [exact H|].
  apply IH. pose proof (attempts_loop_waits i g attempt_numbers st H) as H1.
  destruct (i <? total)%nat; [|exact H1]. apply Forall_emit; [exact H1 | exact I].
Qed.

Lemma attempts_loop_budget i tile_geom attempts : forall st,
  (count is_attempt (trace (attempts_loop i tile_geom attempts st))
   <= count is_attempt (trace st) + List.length attempts)%nat
  /\ (count is_sleep (trace (attempts_loop i tile_geom attempts st))
      <= count is_sleep (trace st)
         + List.length (filter (fun a => (Z.of_nat a <? max_attempts download_settings)%Z)
                               attempts))%nat
  /\ (List.length (frames (attempts_loop i tile_geom attempts st))
      <= List.length (frames st) + 1)%nat.
Proof.
  induction attempts as [|a rest IH]; intros st; simpl; [lia|].
  destruct (stop_requested i a); [lia|].
  destruct (query i a tile_geom (server_at servers (i + a))) as [gdf|e].
  - destruct (negb (empty gdf)); tally; lia.
  - destruct (Z.of_nat a <? max_attempts download_settings);
      match goal with |- context [attempts_loop _ _ _ ?s] => destruct (IH s) as (Ha & Hs & Hf) end;
      cbn [trace frames emit] in Ha, Hs, Hf; rewrite ?count_app in Ha, Hs;
      unfold count in *; simpl in *; lia.
Qed.

Lemma tiles_loop_budget tiles : forall i total st,
  (count is_attempt (trace (tiles_loop i total tiles st))
   <= count is_attempt (trace st)
      + List.length tiles * Z.to_nat (max_attempts download_settings))%nat
  /\ (count is_sleep (trace (tiles_loop i total tiles st))
      <= count is_sleep (trace st)
         + List.length tiles * (Z.to_nat (max_attempts download_settings) - 1))%nat
  /\ (List.length (frames (tiles_loop i total tiles st))
      <= List.length (frames st) + List.length tiles)%nat.
Proof.
  induction tiles as [|g rest IH]; intros i total st; simpl; [lia|].
  destruct (attempts_loop_budget i g attempt_numbers st) as (Ha & Hs & Hf).
  pose proof (allowed_before_last (max_attempts download_settings)
                (Z.to_nat (max_attempts download_settings)) 1) as Hb.
  change (seq 1 (Z.to_nat (max_attempts download_settings))) with attempt_numbers in Hb.
  assert (Hn : List.length attempt_numbers = Z.to_nat (max_attempts download_settings))
    by apply length_seq.
  match goal with |- context [tiles_loop _ _ _ ?s] => destruct (IH (S i) total s) as (Ia & Is & If) end.
  destruct (i <? total)%nat;
    cbn [trace frames emit] in Ia, Is, If; rewrite ?count_app in Ia, Is;
    unfold count in *; simpl in *; nia.
Qed.

(** *** The stop flag *)

Lemma attempts_loop_stopped i tile_geom attempts st :
  (forall a, stop_requested i a = true) ->
  attempts_loop i tile_geom attempts st = st.
Proof.
  intros H. destruct attempts as [|a rest]; simpl; [reflexivity|]. now rewrite H.
Qed.

Lemma tiles_loop_stopped tiles : forall i total st,
  (forall j a, stop_requested j a = true) ->
  Forall (fun e => e = Pause) (trace st) ->
  frames (tiles_loop i total tiles st) = frames st
  /\ Forall (fun e => e = Pause) (trace (tiles_loop i total tiles st)).
Proof.
  induction tiles as [|g rest IH]; intros i total st H Hp; simpl; [auto|].
  rewrite attempts_loop_stopped by apply H.
  destruct (i <? total)%nat.
  - destruct (IH (S i) total (emit Pause st) H) as [Hf Ht];
      [apply Forall_emit; [exact Hp | reflexivity]|].
    split; [exact Hf | exact Ht].
  - apply IH; assumption.
Qed.

(** *** The boundaries loop *)

Lemma voivodeship_loop_queries tiles : forall i total st,
  filter is_attempt (trace (voivodeship_loop i total tiles st))
  = filter is_attempt (trace st)
    ++ map (fun j => Attempt j 0 (server_at servers j)) (seq i (List.length tiles)).
Proof.
  induction tiles as [|g rest IH]; intros i total st; simpl; [now rewrite app_nil_r|].
  rewrite IH.
  destruct (query i 0%nat g (server_at servers i)) as [gdf|e]; [destruct (negb _)|];
    destruct (i <? total)%nat; cbn [trace frames emit]; rewrite ?filter_app; simpl;
    rewrite ?app_nil_r, <- ?app_assoc; reflexivity.
Qed.

(** A kept frame of the boundaries loop: not empty, and with level-4
    rows only where it has the column. *)
Definition level_four (gdf : GeoDataFrame) : Prop :=
  empty gdf = false
  /\ (has_column "admin_level" gdf = true ->
      forall r, In r (rows gdf) -> cell "admin_level" r = Some (StrCell "4")).

Lemma where_equal_level_four gdf :
  forall r, In r (rows (where_equal "admin_level" (StrCell "4") gdf)) ->
            cell "admin_level" r = Some (StrCell "4").
Proof.
  intros r Hin. unfold where_equal in Hin. cbn [rows] in Hin.
  apply filter_In in Hin. destruct Hin as [_ Heq]. now apply value_eqb_eq in Heq.
Qed.

Lemma kept_level_four gdf :
  negb (empty (if has_column "admin_level" gdf
               then where_equal "admin_level" (StrCell "4") gdf
               else gdf)) = true ->
  level_four (if has_column "admin_level" gdf
              then where_equal "admin_level" (StrCell "4") gdf
              else gdf).
Proof.
  intros E. apply negb_true_iff in E. split; [exact E|].
  destruct (has_column "admin_level" gdf) eqn:Hc.
  - intros _. apply where_equal_level_four.
  - intros Hc'. congruence.
Qed.

Lemma voivodeship_loop_frames tiles : forall i total st,
  Forall level_four (frames st) ->
  Forall level_four (frames (voivodeship_loop i total tiles st))
  /\ (List.length (frames (voivodeship_loop i total tiles st))
      <= List.length (frames st) + List.length tiles)%nat.
Proof.
  induction tiles as [|g rest IH]; intros i total st H; simpl; [split; [exact H | lia]|].
  destruct (query i 0%nat g (server_at servers i)) as [gdf|e];
    [destruct (negb _) eqn:E|]; destruct (i <? total)%nat;
    match goal with |- context [voivodeship_loop _ _ _ ?s] =>
      destruct (IH (S i) total s) as [H1 H2];
        [cbn [frames emit trace];
         first [exact H
               | apply Forall_app; split;
                 [exact H | constructor; [apply kept_level_four; exact E | constructor]]]
        | split; [exact H1
                 | cbn [frames emit trace] in H2; rewrite ?length_app in H2;
                   simpl in H2; lia]]
    end.
Qed.

(** *** Where the kept frames come from *)

Definition answered (st : LoopState) : Prop :=
  Forall (fun gdf =>
            empty gdf = false
            /\ exists i attempt tile_geom server,
                 In (Attempt i attempt server) (trace st)
                 /\ query i attempt tile_geom server = Features gdf)
         (frames st).

Lemma answered_emit e st : answered st -> answered (emit e st).
Proof.
  unfold answered, emit. cbn [frames trace]. apply Forall_impl.
  intros gdf (He & i & a & g & s & Hin & Hq). split; [exact He|].
  exists i, a, g, s. split; [apply in_or_app; now left | exact Hq].
Qed.

Lemma attempts_loop_answered i tile_geom attempts : forall st,
  answered st -> answered (attempts_loop i tile_geom attempts st).
Proof.
  induction attempts as [|a rest IH]; intros st H; simpl; [exact H|].
  destruct (stop_requested i a); [exact H|].
  destruct (query i a tile_geom (server_at servers (i + a))) as [gdf|e] eqn:Hq.
  - destruct (negb (empty gdf)) eqn:E; [|now apply answered_emit].
    unfold answered. cbn [frames trace emit]. apply Forall_app. split.
    + apply (answered_emit (Attempt i a (server_at servers (i + a)))) in H. exact H.
    + constructor; [|constructor]. split; [now apply negb_true_iff in E|].
      exists i, a, tile_geom, (server_at servers (i + a)).
      split; [apply in_or_app; right; now left | exact Hq].
  - apply IH. destruct (Z.of_nat a <? max_attempts download_settings);
      repeat apply answered_emit; exact H.
Qed.

Lemma tiles_loop_answered tiles : forall i total st,
  answered st -> answered (tiles_loop i total tiles st).
Proof.
  induction tiles as [|g rest IH]; intros i total st H; simpl; [exact H|].
  apply IH. destruct (i <? total)%nat; [apply answered_emit|];
    now apply attempts_loop_answered.
Qed.

End LoopMore.

(** X11 (pauses between the tiles).  Whatever the servers answer and
    whenever the stop flag is raised, a run of [fetch_layer] over its
    tiles and a run of the boundaries download over theirs both pause
    exactly [len(tiles) - 1] times: once after every tile but the last. *)
Theorem pauses_between_tiles
    (Geom : Type) (servers : list string) (download_settings : DownloadSettings)
    (query : nat -> nat -> Geom -> string -> QueryOutcome)
    (stop_flag : option (nat -> nat -> bool)) (tiles : list Geom) :
  count is_pause
    (trace (tiles_loop Geom servers download_settings query stop_flag
              1 (List.length tiles) tiles start))
  = (List.length tiles - 1)%nat
  /\ count is_pause
       (trace (voivodeship_loop Geom servers query 1 (List.length tiles) tiles start))
     = (List.length tiles - 1)%nat.
Proof.
  split.
  - rewrite tiles_loop_pauses by lia. reflexivity.
  - rewrite voivodeship_loop_pauses by lia. reflexivity.
Qed.

(** X12 (the budget of a run).  A run of [fetch_layer] over its tiles
    sends at most [len(tiles) * max_attempts] queries, waits after a
    failure at most [len(tiles) * (max_attempts - 1)] times (never after
    the last allowed attempt of a tile), each time for one of the three
    configured durations, and keeps at most one frame per tile. *)
Theorem run_budget
    (Geom : Type) (servers : list string) (download_settings : DownloadSettings)
    (query : nat -> nat -> Geom -> string -> QueryOutcome)
    (stop_flag : option (nat -> nat -> bool)) (tiles : list Geom) :
  let run := tiles_loop Geom servers download_settings query stop_flag
               1 (List.length tiles) tiles start in
  (count is_attempt (trace run)
   <= List.length tiles * Z.to_nat (max_attempts download_settings))%nat
  /\ (count is_sleep (trace run)
      <= List.length tiles * (Z.to_nat (max_attempts download_settings) - 1))%nat
  /\ (forall wait_time, In (Sleep wait_time) (trace run) ->
        wait_time = sleep_on_timeout download_settings
        \/ wait_time = sleep_on_rate_limit download_settings
        \/ wait_time = sleep_on_error download_settings)
  /\ (List.length (frames run) <= List.length tiles)%nat.
Proof.
  intros run.
  destruct (tiles_loop_budget Geom servers download_settings query stop_flag
              tiles 1 (List.length tiles) start) as (Ha & Hs & Hf).
  split; [exact Ha|]. split; [exact Hs|]. split; [|exact Hf].
  intros wait_time Hin.
  assert (Hw : Forall (configured_wait download_settings) (trace run))
    by (apply tiles_loop_waits; constructor).
  exact (proj1 (Forall_forall _ _) Hw _ Hin).
Qed.

Lemma run_budget_witness :
  In (Sleep 30)
     (trace (tiles_loop unit overpass_servers default_settings always_times_out None
               1 1 [tt] start))
  /\ (30 = sleep_on_timeout default_settings
      \/ 30 = sleep_on_rate_limit default_settings
      \/ 30 = sleep_on_error default_settings).
Proof.
  assert (Hin : In (Sleep 30)
            (trace (tiles_loop unit overpass_servers default_settings always_times_out None
                      1 1 [tt] start)))
    by (vm_compute; right; left; reflexivity).
  split; [exact Hin|].
  destruct (run_budget unit overpass_servers default_settings always_times_out None [tt])
    as (_ & _ & Hw & _).
  exact (Hw 30 Hin).
Defined.

(** X13 (a raised stop flag).  When the stop flag is raised for the whole
    run, [fetch_layer] sends no query and does not wait after a failure:
    all it does is pause between the tiles, and it ends with
    [return False]. *)
Theorem stopped_run_sends_nothing
    (Geom : Type) (servers : list string) (download_settings : DownloadSettings)
    (query : nat -> nat -> Geom -> string -> QueryOutcome)
    (value : nat -> nat -> bool) (tiles : list Geom) :
  (forall i attempt, value i attempt = true) ->
  fst (fetch_layer_tiles Geom servers download_settings query (Some value) tiles)
  = Return None
  /\ Forall (fun e => e = Pause)
       (snd (fetch_layer_tiles Geom servers download_settings query (Some value) tiles)).
Proof.
  intros Hstop. unfold fetch_layer_tiles.
  destruct servers as [|s servers]; [split; [reflexivity | constructor]|].
  destruct (tiles_loop_stopped Geom (s :: servers) download_settings query (Some value)
              tiles 1 (List.length tiles) (mkLoop [] []))
    as [Hf Ht]; [exact Hstop | constructor|].
  cbn [frames] in Hf. rewrite Hf. split; [reflexivity | exact Ht].
Qed.

Lemma stopped_run_sends_nothing_witness :
  fst (fetch_layer_tiles unit overpass_servers default_settings always_times_out
         (Some (fun _ _ => true)) [tt; tt; tt])
  = Return None
  /\ Forall (fun e => e = Pause)
       (snd (fetch_layer_tiles unit overpass_servers default_settings always_times_out
               (Some (fun _ _ => true)) [tt; tt; tt])).
Proof.
  apply (stopped_run_sends_nothing unit overpass_servers default_settings
           always_times_out (fun _ _ => true) [tt; tt; tt]).
  intros i attempt. reflexivity.
Defined.

(** X14 (the boundaries loop).  The download of the voivodeship
    boundaries sends exactly one query per tile, in the order of the
    tiles, tile [i] to the server at position [i mod len(servers)],
    whatever the servers answer: a failed tile is not tried again.  It
    keeps at most one frame per tile, none of them empty, and a kept
    frame that has the column [admin_level] holds only rows whose level
    is the string 4. *)
Theorem boundaries_loop_asks_once
    (Geom : Type) (servers : list string)
    (query : nat -> nat -> Geom -> string -> QueryOutcome) (tiles : list Geom) :
  let run := voivodeship_loop Geom servers query 1 (List.length tiles) tiles start in
  filter is_attempt (trace run)
  = map (fun i => Attempt i 0 (server_at servers i)) (seq 1 (List.length tiles))
  /\ (List.length (frames run) <= List.length tiles)%nat
  /\ (forall gdf, In gdf (frames run) ->
        empty gdf = false
        /\ (has_column "admin_level" gdf = true ->
            forall r, In r (rows gdf) -> cell "admin_level" r = Some (StrCell "4"))).
Proof.
  intros run. split; [|split].
  - unfold run. now rewrite voivodeship_loop_queries.
  - destruct (voivodeship_loop_frames Geom servers query tiles 1 (List.length tiles) start)
      as [_ H]; [constructor|]. exact H.
  - intros gdf Hin.
    destruct (voivodeship_loop_frames Geom servers query tiles 1 (List.length tiles) start)
      as [H _]; [constructor|].
    exact (proj1 (Forall_forall _ _) H _ Hin).
Qed.

(** A server that answers with a town among the voivodeships. *)
Definition mixed_levels : GeoDataFrame :=
  mkFrame ["osmid"; "admin_level"]
          [ [("osmid", IntCell 1); ("admin_level", StrCell "4")];
            [("osmid", IntCell 2); ("admin_level", StrCell "8")] ].

Lemma boundaries_loop_asks_once_witness :
  frames (voivodeship_loop unit overpass_servers (fun _ _ _ _ => Features mixed_levels)
            1 1 [tt] start)
  = [mkFrame ["osmid"; "admin_level"] [ [("osmid", IntCell 1); ("admin_level", StrCell "4")] ]]
  /\ cell "admin_level" [("osmid", IntCell 1); ("admin_level", StrCell "4")]
     = Some (StrCell "4").
Proof.
  split; [reflexivity|].
  destruct (boundaries_loop_asks_once unit overpass_servers
              (fun _ _ _ _ => Features mixed_levels) [tt]) as (_ & _ & H).
  destruct (H (mkFrame ["osmid"; "admin_level"]
                 [ [("osmid", IntCell 1); ("admin_level", StrCell "4")] ]))
    as [_ Hrows]; [left; reflexivity|].
  apply Hrows; [reflexivity | left; reflexivity].
Defined.

End VectorMore.

(** ** [fetch_layer] as a whole: partition, tile loop, merge *)

Module LayerFacts.
Import Merge Vector Partition Layer MergeFacts VectorFacts VectorMore.

Lemma empty_false gdf : empty gdf = false <-> rows gdf <> [] /\ columns gdf <> [].
Proof.
  unfold empty. destruct (rows gdf), (columns gdf); split; intros H;
    try discriminate; try (destruct H; congruence); try reflexivity.
  split; discriminate.
Qed.

(** The merge of frames that are not empty is not empty, and brings no
    row of its own. *)
Lemma merge_of_kept_frames f fs :
  Forall (fun gdf => empty gdf = false) (f :: fs) ->
  exists final,
    merge_frames (f :: fs) = Return final
    /\ empty final = false
    /\ (forall r, In r (rows final) -> exists gdf, In gdf (f :: fs) /\ In r (rows gdf)).
Proof.
  intros Hkept.
  assert (Hf : rows f <> [] /\ columns f <> [])
    by (apply empty_false; now inversion Hkept).
  destruct Hf as [Hrows Hcols].
  set (final := mkFrame (fold_left (fun acc g => union_columns acc (columns g)) (f :: fs) [])
                        (flat_map rows (f :: fs))).
  assert (Hc : columns final <> []).
  { destruct (columns f) as [|c cs] eqn:E; [congruence|].
    assert (Hin : In c (columns final)).
    { unfold final. cbn [columns]. apply concat_columns_In. right.
      exists f. split; [now left | rewrite E; now left]. }
    intros Hnil. rewrite Hnil in Hin. destruct Hin. }
  assert (Hr : exists r rest, rows final = r :: rest).
  { unfold final. cbn [rows flat_map]. destruct (rows f) as [|r rest]; [congruence|].
    simpl. eauto. }
  destruct Hr as (r0 & rest & Hr).
  exists (if has_column "osmid" final then drop_duplicates "osmid" final else final).
  split; [reflexivity|].
  destruct (has_column "osmid" final); split.
  - apply empty_false. unfold drop_duplicates. cbn [rows columns]. rewrite Hr. simpl.
    split; [discriminate | exact Hc].
  - intros r Hin. unfold drop_duplicates in Hin. cbn [rows] in Hin.
    apply keep_unseen_fresh in Hin. destruct Hin as [_ Hin].
    unfold final in Hin. cbn [rows] in Hin. apply in_flat_map in Hin. exact Hin.
  - apply empty_false. rewrite Hr. split; [discriminate | exact Hc].
  - intros r Hin. unfold final in Hin. cbn [rows] in Hin.
    apply in_flat_map in Hin. exact Hin.
Qed.

(** X15 (what [fetch_layer] can come to).  An exception leaves
    [fetch_layer] only from the computation of the partition, before any
    query is sent: the tile loop and the merge raise nothing.  When a
    frame is returned it is not empty, and each of its rows is a row of
    the answer to a query the run sent. *)
Theorem fetch_layer_outcomes
    (libm_cos : float -> float) (Geom : Type)
    (bounds : Geom -> float * float * float * float)
    (box : float -> float -> float -> float -> Geom)
    (intersection : Geom -> Geom -> Geom) (is_empty : Geom -> bool)
    (servers : list string) (download_settings : DownloadSettings)
    (query : nat -> nat -> Geom -> string -> QueryOutcome)
    (stop_flag : option (nat -> nat -> bool))
    (polygon_geom : Geom) (max_area : float) :
  let result := fetch_layer libm_cos Geom bounds box intersection is_empty servers
                  download_settings query stop_flag polygon_geom max_area in
  (forall exc, fst result = Raise exc ->
     snd result = []
     /\ fetch_layer_partition libm_cos Geom bounds box intersection is_empty
          polygon_geom max_area = Raise exc)
  /\ (forall gdf, fst result = Return (Some gdf) ->
        empty gdf = false
        /\ forall r, In r (rows gdf) ->
             exists i attempt tile_geom server answer,
               In (Attempt i attempt server) (snd result)
               /\ query i attempt tile_geom server = Features answer
               /\ In r (rows answer)).
Proof.
  intros result. unfold result, fetch_layer.
  destruct servers as [|s0 ss]; [split; intros ? H; discriminate H|].
  destruct (fetch_layer_partition libm_cos Geom bounds box intersection is_empty
              polygon_geom max_area) as [tiles|exc0] eqn:Hp.
  - unfold fetch_layer_tiles.
    pose proof (tiles_loop_answered Geom (s0 :: ss) download_settings query stop_flag
                  tiles 1 (List.length tiles) (mkLoop [] [])) as Hans.
    specialize (Hans (Forall_nil _)). unfold answered in Hans.
    destruct (frames (tiles_loop Geom (s0 :: ss) download_settings query stop_flag
                        1 (List.length tiles) tiles (mkLoop [] []))) as [|f fs] eqn:Hf;
      [split; intros ? H; discriminate H|].
    destruct (merge_of_kept_frames f fs) as (final & Hm & He & Hfrom).
    { eapply Forall_impl; [|exact Hans]. intros g [Hg _]. exact Hg. }
    rewrite Hm. cbn [py_bind fst snd]. split; [intros ? H; discriminate H|].
    intros gdf H. injection H as <-. split; [exact He|].
    intros r Hin. destruct (Hfrom r Hin) as (g & Hg & Hr).
    destruct (proj1 (Forall_forall _ _) Hans g Hg) as (_ & i & a & tg & sv & Hev & Hq).
    exists i, a, tg, sv, g. auto.
  - cbn [fst snd]. split; [|intros ? H; discriminate H].
    intros exc H. injection H as <-. auto.
Qed.

Lemma fetch_layer_outcomes_witness :
  fst (fetch_layer PartitionFacts.cos_near_zero PartitionFacts.Rect PartitionFacts.rect_bounds
         PartitionFacts.rect_box PartitionFacts.rect_intersection PartitionFacts.rect_is_empty
         overpass_servers default_settings (fun _ _ _ _ => Features part_one) None
         PartitionFacts.equator_square (float_of_Z 100000000000))
  = Return (Some part_one)
  /\ empty part_one = false.
Proof.
  assert (E : fst (fetch_layer PartitionFacts.cos_near_zero PartitionFacts.Rect
                     PartitionFacts.rect_bounds PartitionFacts.rect_box
                     PartitionFacts.rect_intersection PartitionFacts.rect_is_empty
                     overpass_servers default_settings (fun _ _ _ _ => Features part_one) None
                     PartitionFacts.equator_square (float_of_Z 100000000000))
              = Return (Some part_one))
    by (vm_compute; reflexivity).
  split; [exact E|].
  destruct (fetch_layer_outcomes PartitionFacts.cos_near_zero PartitionFacts.Rect
              PartitionFacts.rect_bounds PartitionFacts.rect_box
              PartitionFacts.rect_intersection PartitionFacts.rect_is_empty
              overpass_servers default_settings (fun _ _ _ _ => Features part_one) None
              PartitionFacts.equator_square (float_of_Z 100000000000)) as [_ H].
  exact (proj1 (H part_one E)).
Defined.

End LayerFacts.

(** ** Layer files and the loop over the layers *)

Module LayersFacts.
Import Layers.

(** *** Dicts *)

Lemma dict_get_set {V : Type} (k k' : string) (v : V) (d : Dict V) :
  dict_get k (dict_set k' v d) = if String.eqb k' k then Some v else dict_get k d.
Proof.
  induction d as [|[k0 v0] d IH]; simpl; [reflexivity|].
  destruct (String.eqb k0 k') eqn:E; simpl.
  - apply String.eqb_eq in E. subst k0. now destruct (String.eqb k' k).
  - rewrite IH. destruct (String.eqb k' k) eqn:E1; [|reflexivity].
    apply String.eqb_eq in E1. subst k'. now rewrite E.
Qed.

Lemma dict_set_keys {V : Type} (k : string) (v : V) (d : Dict V) (x : string) :
  In x (dict_keys (dict_set k v d)) <-> x = k \/ In x (dict_keys d).
Proof.
  induction d as [|[k0 v0] d IH]; simpl; [intuition|].
  destruct (String.eqb k0 k) eqn:E; simpl.
  - apply String.eqb_eq in E. subst k0. intuition.
  - rewrite IH. intuition.
Qed.

Lemma dict_set_NoDup {V : Type} (k : string) (v : V) (d : Dict V) :
  NoDup (dict_keys d) -> NoDup (dict_keys (dict_set k v d)).
Proof.
  induction d as [|[k0 v0] d IH]; simpl; intros H.
  - constructor; [intros [] | constructor].
  - inversion H as [|? ? Hnot Hd]; subst.
    destruct (String.eqb k0 k) eqn:E; simpl; [now constructor|].
    constructor; [|now apply IH].
    intros Hin. apply (dict_set_keys k v d k0) in Hin. destruct Hin as [->|Hin]; [|auto].
    now rewrite String.eqb_refl in E.
Qed.

Lemma dict_update_NoDup {V : Type} (other : Dict V) : forall d,
  NoDup (dict_keys d) -> NoDup (dict_keys (dict_update d other)).
Proof.
  unfold dict_update. induction other as [|[k v] other IH]; intros d H; simpl; [exact H|].
  apply IH. now apply dict_set_NoDup.
Qed.

Lemma dict_get_app {V : Type} (k : string) (a b : Dict V) :
  dict_get k (a ++ b)
  = match dict_get k a with Some v => Some v | None => dict_get k b end.
Proof.
  induction a as [|[k0 v0] a IH]; simpl; [reflexivity|].
  now destruct (String.eqb k0 k).
Qed.

Lemma dict_get_None {V : Type} (k : string) (d : Dict V) :
  dict_get k d = None <-> ~ In k (dict_keys d).
Proof.
  induction d as [|[k0 v0] d IH]; simpl; [tauto|].
  destruct (String.eqb k0 k) eqn:E.
  - apply String.eqb_eq in E. split; [discriminate | intros H; exfalso; apply H; now left].
  - apply String.eqb_neq in E. rewrite IH. tauto.
Qed.

(** In a dict the first entry of a key is its only one. *)
Lemma dict_get_rev {V : Type} (k : string) (d : Dict V) :
  NoDup (dict_keys d) -> dict_get k (rev d) = dict_get k d.
Proof.
  induction d as [|[k0 v0] d IH]; simpl; intros H; [reflexivity|].
  inversion H as [|? ? Hnot Hd]; subst.
  rewrite dict_get_app, (IH Hd). simpl.
  destruct (String.eqb k0 k) eqn:E; [|now destruct (dict_get k d)].
  apply String.eqb_eq in E. subst k0.
  apply dict_get_None in Hnot. now rewrite Hnot.
Qed.

Lemma dict_get_update {V : Type} (k : string) (other : Dict V) : forall d,
  dict_get k (dict_update d other)
  = match dict_get k (rev other) with Some v => Some v | None => dict_get k d end.
Proof.
  unfold dict_update. induction other as [|[k' v] other IH]; intros d; simpl; [reflexivity|].
  rewrite IH, dict_get_app, dict_get_set. simpl.
  destruct (dict_get k (rev other)); [reflexivity|].
  now destruct (String.eqb k' k).
Qed.

(** *** Layer files *)

(** The definition of a layer name the files give, read in order: each
    file that defines the name replaces what came before. *)
Definition last_definition {V : Type} (name : string) (layer_files : list (LayerFile V))
    (before : option V) : option V :=
  fold_left (fun found layer_file =>
               match dict_get name (load_layers_from_file layer_file) with
               | Some config => Some config
               | None => found
               end)
            layer_files before.

Definition well_formed {V : Type} (layer_file : LayerFile V) : Prop :=
  NoDup (dict_keys (load_layers_from_file layer_file)).

Lemma load_step {V : Type} (all_layers : Dict V) (layer_file : LayerFile V) :
  match load_layers_from_file layer_file with
  | [] => all_layers
  | _ => dict_update all_layers (load_layers_from_file layer_file)
  end = dict_update all_layers (load_layers_from_file layer_file).
Proof. now destruct (load_layers_from_file layer_file). Qed.

Lemma load_files_get {V : Type} (name : string) (layer_files : list (LayerFile V)) :
  Forall well_formed layer_files ->
  forall all_layers,
    dict_get name
      (fold_left (fun all_layers layer_file =>
                    let layers := load_layers_from_file layer_file in
                    match layers with
                    | [] => all_layers
                    | _ => dict_update all_layers layers
                    end) layer_files all_layers)
    = last_definition name layer_files (dict_get name all_layers).
Proof.
  unfold last_definition.
  induction layer_files as [|f fs IH]; intros Hwf all_layers; simpl; [reflexivity|].
  inversion Hwf as [|? ? Hf Hfs]; subst.
  rewrite (IH Hfs). f_equal.
  rewrite load_step, dict_get_update, dict_get_rev by exact Hf. reflexivity.
Qed.

Lemma load_files_NoDup {V : Type} (layer_files : list (LayerFile V)) : forall all_layers,
  NoDup (dict_keys all_layers) ->
  NoDup (dict_keys
           (fold_left (fun all_layers layer_file =>
                         let layers := load_layers_from_file layer_file in
                         match layers with
                         | [] => all_layers
                         | _ => dict_update all_layers layers
                         end) layer_files all_layers)).
Proof.
  induction layer_files as [|f fs IH]; intros all_layers H; simpl; [exact H|].
  apply IH. rewrite load_step. now apply dict_update_NoDup.
Qed.

Lemma last_definition_silent {V : Type} (name : string) (layer_files : list (LayerFile V)) :
  (forall f, In f layer_files -> dict_get name (load_layers_from_file f) = None) ->
  forall before, last_definition name layer_files before = before.
Proof.
  unfold last_definition.
  induction layer_files as [|f fs IH]; intros H before; simpl; [reflexivity|].
  rewrite (H f) by now left. apply IH. intros g Hg. apply H. now right.
Qed.

(** X16 (several layer files).  When the layer files are loaded one
    after the other, a layer name defined in several files has the
    definition of the last file that defines it; a file that is missing,
    cannot be read or has no [layers] section changes nothing; a name no
    file defines is not in the result; and no name is in the result
    twice. *)
Theorem later_layer_file_wins {V : Type} (layer_files : list (LayerFile V)) :
  Forall well_formed layer_files ->
  NoDup (dict_keys (load_multiple_layer_files layer_files))
  /\ (forall name,
        (forall f, In f layer_files -> dict_get name (load_layers_from_file f) = None) ->
        dict_get name (load_multiple_layer_files layer_files) = None)
  /\ (forall earlier layers later name config,
        layer_files = earlier ++ FileWithLayers layers :: later ->
        dict_get name layers = Some config ->
        (forall f, In f later -> dict_get name (load_layers_from_file f) = None) ->
        dict_get name (load_multiple_layer_files layer_files) = Some config)
  /\ (forall earlier f later,
        layer_files = earlier ++ f :: later ->
        f = FileMissing \/ f = FileUnreadable \/ f = FileWithoutLayers ->
        load_multiple_layer_files layer_files = load_multiple_layer_files (earlier ++ later)).
Proof.
  intros Hwf. unfold load_multiple_layer_files. split; [|split; [|split]].
  - apply load_files_NoDup. constructor.
  - intros name Hnone. rewrite load_files_get by exact Hwf.
    now apply last_definition_silent.
  - intros earlier layers later name config -> Hget Hlater.
    rewrite load_files_get by exact Hwf.
    unfold last_definition. rewrite fold_left_app. simpl. rewrite Hget.
    now apply last_definition_silent.
  - intros earlier f later -> Hf. rewrite !fold_left_app. simpl.
    now destruct Hf as [->|[->| ->]].
Qed.

Lemma later_layer_file_wins_witness :
  dict_get "roads"
    (load_multiple_layer_files
       [FileWithLayers [("roads", 1); ("rivers", 2)]; FileMissing;
        FileWithLayers [("roads", 3)]; FileWithLayers [("lakes", 4)]])
  = Some 3.
Proof.
  destruct (later_layer_file_wins
              [FileWithLayers [("roads", 1); ("rivers", 2)]; FileMissing;
               FileWithLayers [("roads", 3)]; FileWithLayers [("lakes", 4)]])
    as (_ & _ & Hlast & _).
  - repeat constructor; simpl; intuition discriminate.
  - apply (Hlast [FileWithLayers [("roads", 1); ("rivers", 2)]; FileMissing]
                 [("roads", 3)] [FileWithLayers [("lakes", 4)]] "roads" 3).
    + reflexivity.
    + reflexivity.
    + intros f [<-|[]]. reflexivity.
Defined.

(** *** The loop over the layers *)

(** The names of the layers a run asked [fetch_layer] for, in order. *)
Definition fetched (steps : list Step) : list string :=
  flat_map (fun step => match step with
                        | FetchLayer _ name => [name]
                        | SleepBetweenLayers => []
                        end) steps.

Lemma fetched_app a b : fetched (a ++ b) = fetched a ++ fetched b.
Proof. unfold fetched. apply flat_map_app. Qed.

Section Loop.

Variable Geom : Type.
Variable LayerConfig : Type.
Variable layers_dict : Dict LayerConfig.
Variable fetch_layer : nat -> string -> Geom -> PyResult bool.

Local Abbreviation known := (known LayerConfig layers_dict).
Local Abbreviation layers_loop := (layers_loop Geom LayerConfig layers_dict fetch_layer).

Lemma layers_loop_accounts names : forall i total polygon_geom succeeded failed steps
                                          succeeded' failed' steps',
  layers_loop i total names polygon_geom succeeded failed steps
  = (Returned succeeded' failed', steps') ->
  exists more_succeeded more_failed,
    succeeded' = succeeded ++ more_succeeded
    /\ failed' = failed ++ more_failed
    /\ Permutation names (more_succeeded ++ more_failed)
    /\ Forall (fun name => known name = true) more_succeeded
    /\ (forall name, In name names -> known name = false -> In name more_failed)
    /\ fetched steps' = fetched steps ++ filter known names.
Proof.
  induction names as [|name rest IH];
    intros i total g succeeded failed steps succeeded' failed' steps' H; simpl in H.
  - injection H as <- <- <-. exists [], []. rewrite !app_nil_r.
    repeat split; try constructor. intros name [].
  - destruct (known name) eqn:Hk; simpl in H.
    + destruct (fetch_layer i name g) as [ok|e]; [|discriminate].
      apply IH in H. destruct H as (ms & mf & -> & -> & Hperm & Hknown & Hunknown & Hsteps).
      assert (Hf : fetched steps' = fetched steps ++ name :: filter known rest).
      { rewrite Hsteps. destruct (i <? total)%nat; rewrite !fetched_app; simpl;
          rewrite ?app_nil_r, <- app_assoc; reflexivity. }
      destruct ok.
      * exists (name :: ms), mf. rewrite <- !app_assoc. simpl. rewrite Hk.
        repeat split; auto.
        intros n [<-|Hn] Hn'; [congruence | auto].
      * exists ms, (name :: mf). rewrite <- !app_assoc. simpl. rewrite Hk.
        repeat split; auto.
        -- now apply Permutation_cons_app.
        -- intros n [<-|Hn] Hn'; [now left | right; auto].
    + apply IH in H. destruct H as (ms & mf & -> & -> & Hperm & Hknown & Hunknown & Hsteps).
      exists ms, (name :: mf). rewrite <- !app_assoc. simpl. rewrite Hk.
      repeat split; auto.
      * now apply Permutation_cons_app.
      * intros n [<-|Hn] Hn'; [now left | right; auto].
Qed.

End Loop.

(** X17 (every layer is accounted for).  Whenever [download_layers]
    returns, each requested layer name is in exactly one of its two
    lists, as often as it was requested; a returned success is a layer of
    the layer dict; a name the dict does not have is reported as failed;
    and either [fetch_layer] was called once for every requested name the
    dict has, in the order of the request, or (no region and no bbox, or
    no geometry for the region) it was not called at all and every name
    is reported as failed. *)
Theorem download_layers_accounts
    (Geom LayerConfig : Type) (layers_dict : Dict LayerConfig)
    (box : Partition.float -> Partition.float -> Partition.float -> Partition.float -> Geom)
    (boundaries : Boundaries) (get_voivodeship_geometry : string -> PyResult Geom)
    (fetch_layer : nat -> string -> Geom -> PyResult bool)
    (layer_names : list string) (region_name : option string)
    (bbox : option (Partition.float * Partition.float * Partition.float * Partition.float))
    (succeeded failed : list string) (steps : list Step) :
  download_layers Geom LayerConfig layers_dict box boundaries get_voivodeship_geometry
    fetch_layer layer_names region_name bbox
  = (Returned succeeded failed, steps) ->
  Permutation layer_names (succeeded ++ failed)
  /\ Forall (fun name => known LayerConfig layers_dict name = true) succeeded
  /\ (forall name, In name layer_names -> known LayerConfig layers_dict name = false ->
        In name failed)
  /\ (fetched steps = filter (known LayerConfig layers_dict) layer_names
      \/ (steps = [] /\ succeeded = [] /\ failed = layer_names)).
Proof.
  intros H.
  assert (Hloop : forall polygon_geom,
            layers_loop Geom LayerConfig layers_dict fetch_layer
              1 (List.length layer_names) layer_names polygon_geom [] [] []
            = (Returned succeeded failed, steps) ->
            Permutation layer_names (succeeded ++ failed)
            /\ Forall (fun name => known LayerConfig layers_dict name = true) succeeded
            /\ (forall name, In name layer_names ->
                  known LayerConfig layers_dict name = false -> In name failed)
            /\ (fetched steps = filter (known LayerConfig layers_dict) layer_names
                \/ (steps = [] /\ succeeded = [] /\ failed = layer_names))).
  { intros g Hg. apply layers_loop_accounts in Hg.
    destruct Hg as (ms & mf & -> & -> & Hperm & Hknown & Hunknown & Hsteps).
    simpl in *. auto. }
  assert (Hnone : (Returned [] layer_names, @nil Step) = (Returned succeeded failed, steps) ->
            Permutation layer_names (succeeded ++ failed)
            /\ Forall (fun name => known LayerConfig layers_dict name = true) succeeded
            /\ (forall name, In name layer_names ->
                  known LayerConfig layers_dict name = false -> In name failed)
            /\ (fetched steps = filter (known LayerConfig layers_dict) layer_names
                \/ (steps = [] /\ succeeded = [] /\ failed = layer_names))).
  { intros E. injection E as <- <- <-. simpl. repeat split; auto. }
  unfold download_layers in H.
  destruct (given region_name).
  - destruct boundaries; try discriminate.
    destruct (get_voivodeship_geometry _) as [g|e]; [now apply (Hloop g) | now apply Hnone].
  - destruct bbox as [[[[w s] e] n]|]; [now apply (Hloop (box w s e n)) | now apply Hnone].
Qed.

Lemma download_layers_accounts_witness :
  download_layers unit unit [("roads", tt); ("rivers", tt)] (fun _ _ _ _ => tt)
    BoundariesReady (fun _ => Return tt)
    (fun _ name _ => Return (String.eqb name "roads"))
    ["roads"; "lakes"; "rivers"] (Some "mazowieckie") None
  = (Returned ["roads"] ["lakes"; "rivers"],
     [FetchLayer 1 "roads"; SleepBetweenLayers; FetchLayer 3 "rivers"])
  /\ Permutation ["roads"; "lakes"; "rivers"] (["roads"] ++ ["lakes"; "rivers"]).
Proof.
  split; [reflexivity|].
  apply (download_layers_accounts unit unit [("roads", tt); ("rivers", tt)]
           (fun _ _ _ _ => tt) BoundariesReady (fun _ => Return tt)
           (fun _ name _ => Return (String.eqb name "roads"))
           ["roads"; "lakes"; "rivers"] (Some "mazowieckie") None
           ["roads"] ["lakes"; "rivers"]
           [FetchLayer 1 "roads"; SleepBetweenLayers; FetchLayer 3 "rivers"]).
  reflexivity.
Defined.

End LayersFacts.

(** ** The zoom levels of a GeoTiles run *)

Module TilesMainFacts.
Import TilesMain.

(** X18 (zoom levels of a run).  When [main] goes on to list tiles, the
    zoom levels it lists them for are exactly the levels from the resolved
    minimum to the resolved maximum: at least one level, at most twenty,
    each from 0 to 19 and none twice.  A zero on the command line counts
    as no option: with [--min-zoom 0] and a configured minimum other than
    0 no tile of zoom 0 is listed. *)
Theorem zoom_levels_in_range (min_zoom max_zoom : option Z) (config_min config_max : Z)
    (levels : list Z) :
  zoom_levels min_zoom max_zoom config_min config_max = Some levels ->
  levels <> []
  /\ (forall z, In z levels <->
        py_or min_zoom config_min <= z <= py_or max_zoom config_max)
  /\ (forall z, In z levels -> 0 <= z <= 19)
  /\ NoDup levels
  /\ (List.length levels <= 20)%nat
  /\ (min_zoom = Some 0 -> config_min <> 0 -> ~ In 0 levels).
Proof.
  unfold zoom_levels. cbv zeta.
  set (lo := py_or min_zoom config_min). set (hi := py_or max_zoom config_max).
  destruct (hi <? lo) eqn:E1; [discriminate|].
  destruct ((lo <? 0) || (19 <? hi)) eqn:E2; [discriminate|].
  apply Z.ltb_ge in E1. apply orb_false_iff in E2. destruct E2 as [E2 E3].
  apply Z.ltb_ge in E2. apply Z.ltb_ge in E3.
  intros H. injection H as <-.
  assert (Hin : forall z, In z (map (fun k => lo + Z.of_nat k)
                                    (seq 0 (Z.to_nat (hi + 1 - lo))))
                          <-> lo <= z <= hi).
  { intros z. rewrite in_map_iff. split.
    - intros (k & <- & Hk). apply in_seq in Hk. lia.
    - intros Hz. exists (Z.to_nat (z - lo)). split; [lia | apply in_seq; lia]. }
  split; [|split; [|split; [|split; [|split]]]].
  - intros Hnil. assert (Hlo : In lo (map (fun k => lo + Z.of_nat k)
                                         (seq 0 (Z.to_nat (hi + 1 - lo)))))
      by (apply Hin; lia).
    rewrite Hnil in Hlo. destruct Hlo.
  - exact Hin.
  - intros z Hz. apply Hin in Hz. lia.
  - apply Finite.Injective_map_NoDup; [intros a b Hab; lia | apply seq_NoDup].
  - rewrite length_map, length_seq. lia.
  - intros Hmin Hcfg Hz. apply Hin in Hz. subst min_zoom. unfold lo, py_or in Hz, E2.
    simpl in Hz, E2. lia.
Qed.

Lemma zoom_levels_in_range_witness :
  zoom_levels (Some 0) (Some 7) 5 11 = Some [5; 6; 7] /\ ~ In 0 [5; 6; 7].
Proof.
  split; [reflexivity|].
  destruct (zoom_levels_in_range (Some 0) (Some 7) 5 11 [5; 6; 7] eq_refl)
    as (_ & _ & _ & _ & _ & Hzero).
  apply Hzero; [reflexivity | discriminate].
Defined.

End TilesMainFacts.
